(** * vmaker: job lifecycle, progress translation and session cleanup

    A shallow embedding of the Python sources [server.py] (threaded
    Flask/SocketIO variant), [static/app.py] (asyncio/FastAPI variant) and
    [static/utils/video_tools.py].

    Conventions.
    - Python dictionaries used as maps are [gmap]s.
    - A Python exception is an explicit [Raise] outcome; the state reached
      when the exception is raised is kept, as in Python.
    - Seconds, byte counts and percentages are Python floats in the source;
      they are modelled by exact rationals ([Q]), except in the overlay
      layout, where [int(fontsize * 1.4)] depends on binary64 rounding and is
      computed on IEEE-754 binary64 values ([SpecFloat]).
    - Everything outside the process (file system, download engine,
      transcription engine, ffmpeg, clock) is an explicit input. *)

From Stdlib Require Import ZArith QArith Qround Qminmax Lqa String Ascii List Bool Lia.
From Stdlib Require Import Floats.SpecFloat.
From stdpp Require Import base option list gmap strings fin_maps pretty sorting.

Local Open Scope string_scope.

(** ** Strings *)

(** [s.endswith(suffix)] *)
Definition endswith (s suffix : string) : bool :=
  let n := String.length s in
  let k := String.length suffix in
  (k <=? n)%nat && String.eqb (substring (n - k) k s) suffix.

(** [needle in s] *)
Fixpoint contains (needle s : string) : bool :=
  String.prefix needle s ||
  match s with
  | EmptyString => false
  | String _ rest => contains needle rest
  end.

Definition lower_ascii (c : ascii) : ascii :=
  let n := nat_of_ascii c in
  if (65 <=? n)%nat && (n <=? 90)%nat then ascii_of_nat (n + 32) else c.

(** [s.lower()], on ASCII letters *)
Fixpoint lower (s : string) : string :=
  match s with
  | EmptyString => EmptyString
  | String c rest => String (lower_ascii c) (lower rest)
  end.

Definition is_digit (c : ascii) : bool :=
  let n := nat_of_ascii c in (48 <=? n)%nat && (n <=? 57)%nat.

Definition digit_value (c : ascii) : Z := Z.of_nat (nat_of_ascii c - 48).

(** Longest prefix of decimal digits, and what follows it (a greedy [\d*]). *)
Fixpoint span_digits (s : string) : string * string :=
  match s with
  | String c rest =>
      if is_digit c then
        let '(ds, tl) := span_digits rest in (String c ds, tl)
      else (EmptyString, s)
  | EmptyString => (EmptyString, EmptyString)
  end.

(** Value of a string of decimal digits, most significant first. *)
Fixpoint digits_value (acc : Z) (s : string) : Z :=
  match s with
  | EmptyString => acc
  | String c rest => digits_value (10 * acc + digit_value c) rest
  end.

Fixpoint all_digits (s : string) : bool :=
  match s with
  | EmptyString => true
  | String c rest => is_digit c && all_digits rest
  end.

(** [int(s)] on a non-empty string of ASCII digits; [None] is the
    [ValueError] raised on the other strings of this model (Python also
    accepts a sign, surrounding blanks and underscores, which the callers
    below never produce). *)
Definition parse_int (s : string) : option Z :=
  match s with
  | EmptyString => None
  | _ => if all_digits s then Some (digits_value 0 s) else None
  end.

(** [float(s)] on [digits], [digits.digits], [digits.] and [.digits]. *)
Definition parse_float (s : string) : option Q :=
  let '(ip, after) := span_digits s in
  match after with
  | EmptyString =>
      match ip with
      | EmptyString => None
      | _ => Some (inject_Z (digits_value 0 ip))
      end
  | String "." fp =>
      if all_digits fp then
        match ip, fp with
        | EmptyString, EmptyString => None
        | _, _ =>
            Some (inject_Z (digits_value 0 ip)
                  + Qmake (digits_value 0 fp)
                          (Z.to_pos (10 ^ Z.of_nat (String.length fp))))%Q
        end
      else None
  | _ => None
  end.

(** [s.split(sep)] for a one-character separator *)
Fixpoint split_on (sep : ascii) (s : string) : list string :=
  match s with
  | EmptyString => [EmptyString]
  | String c rest =>
      if Ascii.eqb c sep then EmptyString :: split_on sep rest
      else
        match split_on sep rest with
        | w :: ws => String c w :: ws
        | [] => [String c EmptyString]
        end
  end.

(** [s.replace(old, new)] for a non-empty [old]; [skip] counts the
    characters of a match still to be dropped. *)
Fixpoint replace_from (old new : string) (skip : nat) (s : string) : string :=
  match s with
  | EmptyString => EmptyString
  | String c rest =>
      match skip with
      | S k => replace_from old new k rest
      | O =>
          if String.prefix old s
          then new ++ replace_from old new (String.length old - 1) rest
          else String c (replace_from old new 0 rest)
      end
  end.

Definition replace (old new s : string) : string := replace_from old new 0 s.

Definition is_alnum (c : ascii) : bool :=
  let n := nat_of_ascii c in
  is_digit c || ((65 <=? n)%nat && (n <=? 90)%nat) || ((97 <=? n)%nat && (n <=? 122)%nat).

(** ["".join(c if c.isalnum() or c in "-_" else "_" for c in s)], on ASCII *)
Fixpoint sanitize (s : string) : string :=
  match s with
  | EmptyString => EmptyString
  | String c rest =>
      String (if is_alnum c || Ascii.eqb c "-" || Ascii.eqb c "_" then c else "_"%char)
             (sanitize rest)
  end.

(** ** Numbers *)

(** Python truthiness of a number that may be absent: [None] and [0] are
    falsy. *)
Definition truthy_num (x : option Q) : bool :=
  match x with
  | Some q => negb (Qeq_bool q 0)
  | None => false
  end.

(** [a or b] on such numbers *)
Definition or_num (a b : option Q) : option Q :=
  if truthy_num a then a else b.

(** The integer nearest to [y], ties to the even one. *)
Definition nearest_even (y : Q) : Z :=
  let f := Qfloor y in
  match ((y - inject_Z f) ?= (1 # 2))%Q with
  | Lt => f
  | Gt => (f + 1)%Z
  | Eq => if Z.even f then f else (f + 1)%Z
  end.

(** [round(x, 2)]: to the nearest hundredth, ties to the even one. *)
Definition round2 (x : Q) : Q := Qmake (nearest_even (x * 100)) 100.

(** ** Paths *)

Definition DOWNLOADS_DIR := "downloads".
Definition CLIPS_DIR := "clips".
Definition TRANS_DIR := "transcripts".
Definition SESSIONS_DIR := "sessions".

(** [os.path.join(a, b)] for a relative [b] *)
Definition path_join (a b : string) : string := a ++ "/" ++ b.

(** ** Elapsed-time markers of the transcoder *)

(** [ffmpeg_time_to_secs]: the [except] branch returns [0.0]. *)
Definition ffmpeg_time_to_secs (timestr : string) : Q :=
  match split_on ":" timestr with
  | p0 :: p1 :: p2 :: _ =>
      match parse_int p0, parse_int p1, parse_float p2 with
      | Some h, Some m, Some s => (inject_Z (h * 3600) + inject_Z (m * 60) + s)%Q
      | _, _, _ => 0
      end
  | _ => 0
  end.

(** An anchored match of [\d+:\d+:\d+\.\d+]: the matched text.  Each [\d+]
    is followed by a character that is not a digit, so the greedy match is
    the only one. *)
Definition match_time (s : string) : option string :=
  let '(h, s1) := span_digits s in
  match h, s1 with
  | String _ _, String ":" s2 =>
      let '(m, s3) := span_digits s2 in
      match m, s3 with
      | String _ _, String ":" s4 =>
          let '(sec, s5) := span_digits s4 in
          match sec, s5 with
          | String _ _, String "." s6 =>
              let '(fr, _) := span_digits s6 in
              match fr with
              | String _ _ => Some (h ++ ":" ++ m ++ ":" ++ sec ++ "." ++ fr)
              | EmptyString => None
              end
          | _, _ => None
          end
      | _, _ => None
      end
  | _, _ => None
  end.

(** [re.search(r"time=(\d+:\d+:\d+\.\d+)", line)]: group 1 of the leftmost
    match. *)
Fixpoint search_time (line : string) : option string :=
  let here :=
    if String.prefix "time=" line
    then match_time (substring 5 (String.length line - 5) line)
    else None in
  match here with
  | Some g => Some g
  | None =>
      match line with
      | EmptyString => None
      | String _ rest => search_time rest
      end
  end.

(** What the read loop of a transcoding handler computes from one line of
    the diagnostic stream: the [secs] of the line, when it carries a
    marker. *)
Definition line_secs (line : string) : option Q :=
  if contains "time=" line then
    match search_time line with
    | Some g => Some (ffmpeg_time_to_secs g)
    | None => None
    end
  else None.

(** ** Job records ([create_job]) *)

Inductive job_status := Queued | Running | Finished | Error.

#[global] Instance job_status_eq_dec : EqDecision job_status.
Proof. solve_decision. Defined.

(** The [result] dictionaries written by the handlers. *)
Inductive job_result :=
| ResDownload (filename path : string)
| ResTranscript (transcript_file : string) (lines : list (Q * string))
| ResClip (clip_file : string)
| ResTemplateClip (clip_file template : string)
| ResMerged (merged_file : string).

(** A job, over the type [M] of its [meta] dictionary.  Identifiers stand
    for [str(uuid.uuid4())] and time stamps for [time.time()]. *)
Record job (M : Type) := {
  id : nat;
  kind : string;
  meta : M;
  status : job_status;
  progress : Q;
  created_at : nat;
  updated_at : nat;
  result : option job_result;
  error : option string
}.

Arguments id {M} _.
Arguments kind {M} _.
Arguments meta {M} _.
Arguments status {M} _.
Arguments progress {M} _.
Arguments created_at {M} _.
Arguments updated_at {M} _.
Arguments result {M} _.
Arguments error {M} _.

(** [create_job]: a fresh identifier and the table with the new record; the
    two readings of the clock are [now] and [now + 1]. *)
Definition create_job {M : Type} (kind : string) (meta : M) (now : nat)
    (jobs : gmap nat (job M)) : nat * gmap nat (job M) :=
  let job_id := fresh (dom jobs) in
  (job_id,
   <[job_id := {| id := job_id; kind := kind; meta := meta; status := Queued;
                  progress := 0; created_at := now; updated_at := now + 1;
                  result := None; error := None |}]> jobs).

(** ** Session cleanup ([cleanup_session], [cleanup_session_immediate]) *)

Module Cleanup.

(** What a name in a session folder denotes.  [os.remove] deletes a regular
    file and raises on a directory. *)
Inductive entry := RegularFile | Subdirectory.

#[global] Instance entry_eq_dec : EqDecision entry.
Proof. solve_decision. Defined.

(** [os.listdir(folder)] *)
Definition listdir (d : gmap string entry) : list string := (map_to_list d).*1.

(** [os.remove(full)]: [None] stands for the raised [OSError]. *)
Definition os_remove (fname : string) (d : gmap string entry)
  : option (gmap string entry) :=
  match d !! fname with
  | Some RegularFile => Some (delete fname d)
  | _ => None
  end.

(** [try: os.remove(full) except Exception: pass] *)
Definition try_remove (fname : string) (d : gmap string entry) : gmap string entry :=
  match os_remove fname d with
  | Some d' => d'
  | None => d
  end.

(** Body of the [for fname in os.listdir(session_folder)] loop of
    [video_tools.cleanup_session]. *)
Definition cleanup_session_body (delete_clips delete_video : bool)
    (d : gmap string entry) (fname : string) : gmap string entry :=
  if endswith fname ".mp4" then
    if delete_clips || delete_video then try_remove fname d else d
  else if endswith fname ".txt" || endswith fname ".vtt" || endswith fname ".srt" then
    try_remove fname d
  else
    try_remove fname d.

(** Body of the loop of [app.cleanup_session_immediate]. *)
Definition cleanup_session_immediate_body (delete_clips delete_video : bool)
    (d : gmap string entry) (fname : string) : gmap string entry :=
  if endswith fname ".mp4" then
    if delete_clips || delete_video then try_remove fname d else d
  else
    try_remove fname d.

(** [if not os.listdir(folder): os.rmdir(folder)] under its [try]. *)
Definition rmdir_if_empty (session_id : string) (d : gmap string entry)
    (fs : gmap string (gmap string entry)) : gmap string (gmap string entry) :=
  match listdir d with
  | [] => delete session_id fs
  | _ :: _ => <[session_id := d]> fs
  end.

(** The sessions area maps a session id to the content of its folder. *)
Definition cleanup_with
    (body : gmap string entry -> string -> gmap string entry)
    (session_id : string) (fs : gmap string (gmap string entry))
  : bool * gmap string (gmap string entry) :=
  match fs !! session_id with
  | None => (false, fs)
  | Some d => (true, rmdir_if_empty session_id (foldl body d (listdir d)) fs)
  end.

Definition cleanup_session (session_id : string) (delete_clips delete_video : bool) :=
  cleanup_with (cleanup_session_body delete_clips delete_video) session_id.

Definition cleanup_session_immediate (session_id : string)
    (delete_clips delete_video : bool) :=
  cleanup_with (cleanup_session_immediate_body delete_clips delete_video) session_id.

(** Whether the loop asks for [fname] to be removed. *)
Definition doomed (delete_clips delete_video : bool) (fname : string) : bool :=
  if endswith fname ".mp4" then delete_clips || delete_video else true.

(** What remains of an entry once the loop has met its name. *)
Definition survivor (delete_clips delete_video : bool) (fname : string)
    (e : option entry) : option entry :=
  match e with
  | Some RegularFile => if doomed delete_clips delete_video fname then None else Some RegularFile
  | other => other
  end.

(** A sessions area with one folder holding [a.mp4] and [b.txt]. *)
Definition two_files : gmap string (gmap string entry) :=
  {[ "s1" := {[ "a.mp4" := RegularFile; "b.txt" := RegularFile ]} ]}.

End Cleanup.

(** ** Overlay auto-stacking ([app.do_template_clip], the [texts] loop) *)

Module Layout.

(** *** binary64 arithmetic *)

Definition prec : Z := 53.
Definition emax : Z := 1024.

(** An integer read as a float (exact below [2^53]). *)
Definition float_of_Z (z : Z) : spec_float := binary_normalize prec emax z 0 false.

(** The literal [1.4]: the binary64 nearest to 14/10. *)
Definition f1_4 : spec_float := SFdiv prec emax (float_of_Z 14) (float_of_Z 10).

(** [int(x)]: truncation toward zero; [None] for an infinity or a NaN, on
    which Python raises. *)
Definition int_of_float (x : spec_float) : option Z :=
  match x with
  | S754_zero _ => Some 0%Z
  | S754_finite s m e =>
      let a := if (0 <=? e)%Z then (Zpos m * 2 ^ e)%Z else (Zpos m / 2 ^ (- e))%Z in
      Some (if s then (- a)%Z else a)
  | S754_infinity _ | S754_nan => None
  end.

(** *** The loop *)

(** One entry of [template["texts"]]; [None] is an absent key.  The
    optional box, stroke, shadow and font-file keys only append text to the
    filter and are left out. *)
Record txt := {
  text : option string;
  fontcolor : option string;
  fontsize : option Z;
  x : option string;
  y : option string
}.

Definition PORTRAIT_H : Z := 1920.
Definition SAFE_TOP : Z := 120.
Definition SAFE_BOTTOM : Z := 120.
Definition SAFE_CENTER : Z := PORTRAIT_H / 2.

(** The three stacking offsets. *)
Record stacks := {
  bottom_stack : Z;
  center_stack : Z;
  top_stack : Z
}.

Definition initial_stacks : stacks :=
  {| bottom_stack := 0; center_stack := 0; top_stack := 0 |}.

(** The [drawtext] filter of one overlay, by its fields. *)
Record drawtext := {
  draw_text : string;
  draw_fontcolor : string;
  draw_fontsize : Z;
  draw_x : string;
  draw_y : Z
}.

(** [int(txt.get("fontsize", 50) * 1.4)] *)
Definition estimated_h (t : txt) : option Z :=
  int_of_float (SFmul prec emax (float_of_Z (default 50%Z (fontsize t))) f1_4).

Inductive anchor := Top | Center | Bottom.

(** The [if "top" in pos: ... elif ...] chain on [pos = txt.get("y", "").lower()];
    the last two branches of the source are the same. *)
Definition anchor_of (t : txt) : anchor :=
  let pos := lower (default "" (y t)) in
  if contains "top" pos then Top
  else if contains "mid" pos || contains "center" pos then Center
  else if contains "bottom" pos then Bottom
  else Bottom.

(** [auto_y] and the stacks after one overlay. *)
Definition place (st : stacks) (t : txt) (h : Z) : Z * stacks :=
  match anchor_of t with
  | Top =>
      (SAFE_TOP + top_stack st,
       {| bottom_stack := bottom_stack st; center_stack := center_stack st;
          top_stack := top_stack st + (h + 40) |})%Z
  | Center =>
      (SAFE_CENTER + center_stack st,
       {| bottom_stack := bottom_stack st; center_stack := center_stack st + (h + 40);
          top_stack := top_stack st |})%Z
  | Bottom =>
      (PORTRAIT_H - SAFE_BOTTOM - bottom_stack st - h,
       {| bottom_stack := bottom_stack st + (h + 40); center_stack := center_stack st;
          top_stack := top_stack st |})%Z
  end.

Definition draw (t : txt) (auto_y : Z) : drawtext :=
  {| draw_text := replace "'" "\'" (default "" (text t));
     draw_fontcolor := default "white" (fontcolor t);
     draw_fontsize := default 48%Z (fontsize t);
     draw_x := let x_val := default "(w-text_w)/2" (x t) in
               if String.eqb x_val "center" then "(w-text_w)/2" else x_val;
     draw_y := auto_y |}.

(** The [for txt in template.get("texts", [])] loop.  The constants and the
    stacks are assigned inside [if template.get("resolution"):], so they are
    unbound ([None]) for a template without a resolution, and the first
    overlay then raises [UnboundLocalError]. *)
Fixpoint place_texts (st : option stacks) (texts : list txt) : string + list drawtext :=
  match texts with
  | [] => inr []
  | t :: rest =>
      match estimated_h t with
      | None => inl "OverflowError"
      | Some h =>
          match st with
          | None => inl "UnboundLocalError"
          | Some st =>
              let '(auto_y, st') := place st t h in
              match place_texts (Some st') rest with
              | inl e => inl e
              | inr ds => inr (draw t auto_y :: ds)
              end
          end
      end
  end.

(** The stacks as the loop finds them, by [template.get("resolution")]. *)
Definition stacks_for (resolution : option string) : option stacks :=
  match resolution with
  | Some (String _ _) => Some initial_stacks
  | _ => None
  end.

Definition layout (resolution : option string) (texts : list txt) : string + list drawtext :=
  place_texts (stacks_for resolution) texts.

#[global] Instance anchor_eq_dec : EqDecision anchor.
Proof. solve_decision. Defined.

(** The offset of an anchor in the stacks. *)
Definition stack_of (st : stacks) (a : anchor) : Z :=
  match a with
  | Top => top_stack st
  | Center => center_stack st
  | Bottom => bottom_stack st
  end.

(** Where an overlay of height [h] goes when its anchor has offset [off]. *)
Definition position (a : anchor) (off h : Z) : Z :=
  match a with
  | Top => SAFE_TOP + off
  | Center => SAFE_CENTER + off
  | Bottom => PORTRAIT_H - SAFE_BOTTOM - off - h
  end.

(** By how much the overlays of [prefix] have advanced the offset of [a]. *)
Fixpoint stack_before (a : anchor) (prefix : list txt) : Z :=
  match prefix with
  | [] => 0
  | t :: rest =>
      (if decide (anchor_of t = a) then default 0%Z (estimated_h t) + 40 else 0)
      + stack_before a rest
  end.

(** The layout as the specification words it: anchors by the substrings
    top, center and bottom only, and a height of exactly [fontSize * 1.4]. *)
Definition spec_anchor_of (t : txt) : anchor :=
  let pos := lower (default "" (y t)) in
  if contains "top" pos then Top
  else if contains "center" pos then Center
  else Bottom.

Definition spec_height (t : txt) : Q := (inject_Z (default 50%Z (fontsize t)) * (14 # 10))%Q.

(** Overlays used in the examples. *)
Definition overlay_at (pos : string) (size : Z) : txt :=
  {| text := Some "a"; fontcolor := None; fontsize := Some size; x := None;
     y := Some pos |}.

(** The [y] positions chosen by a layout that did not raise. *)
Definition ys_of (r : string + list drawtext) : option (list Z) :=
  match r with
  | inr draws => Some (map draw_y draws)
  | inl _ => None
  end.

Definition three_bottom : list txt :=
  [overlay_at "bottom" 50; overlay_at "bottom" 50; overlay_at "bottom" 50].

Definition three_bottom_draws : list drawtext :=
  Eval vm_compute in
    match layout (Some "1080x1920") three_bottom with
    | inr draws => draws
    | inl _ => []
    end.

End Layout.

(** ** The template store and template-clip submission ([server.py]) *)

Module Templates.

(** Python values; lists and dictionaries are objects on a heap and values
    hold references to them, so that sharing is visible. *)
Inductive value :=
| VNone
| VBool (b : bool)
| VNum (q : Q)
| VStr (s : string)
| VRef (a : nat).

Inductive object :=
| ODict (items : gmap string value)
| OList (items : list value).

(** The body of a request, before [request.get_json()] reads it. *)
#[warnings="-register-all"]
Inductive json :=
| JNull
| JBool (b : bool)
| JNum (q : Q)
| JStr (s : string)
| JList (items : list json)
| JDict (items : list (string * json)).

Definition alloc (o : object) (h : gmap nat object) : nat * gmap nat object :=
  let a := fresh (dom h) in (a, <[a := o]> h).

(** Reading a JSON document builds new objects. *)
Fixpoint load (j : json) (h : gmap nat object) : value * gmap nat object :=
  match j with
  | JNull => (VNone, h)
  | JBool b => (VBool b, h)
  | JNum q => (VNum q, h)
  | JStr s => (VStr s, h)
  | JList items =>
      let '(vs, h1) :=
        (fix load_items (js : list json) (h : gmap nat object) :=
           match js with
           | [] => ([], h)
           | j :: js' =>
               let '(v, h1) := load j h in
               let '(vs, h2) := load_items js' h1 in
               (v :: vs, h2)
           end) items h in
      let '(a, h2) := alloc (OList vs) h1 in
      (VRef a, h2)
  | JDict items =>
      let '(d, h1) :=
        (fix load_fields (kvs : list (string * json)) (d : gmap string value)
             (h : gmap nat object) :=
           match kvs with
           | [] => (d, h)
           | (k, j) :: kvs' =>
               let '(v, h1) := load j h in
               load_fields kvs' (<[k := v]> d) h1
           end) items ∅ h in
      let '(a, h2) := alloc (ODict d) h1 in
      (VRef a, h2)
  end.

(** Truthiness ([if not v]). *)
Definition truthy (h : gmap nat object) (v : value) : bool :=
  match v with
  | VNone => false
  | VBool b => b
  | VNum q => negb (Qeq_bool q 0)
  | VStr s => negb (String.eqb s "")
  | VRef a =>
      match h !! a with
      | Some (ODict d) => negb (bool_decide (d = ∅))
      | Some (OList l) => negb (bool_decide (l = []))
      | None => false
      end
  end.

(** [v.copy()]: a new object with the same items (a shallow copy); strings
    and numbers have no [copy] method. *)
Definition copy (v : value) (h : gmap nat object) : option (nat * gmap nat object) :=
  match v with
  | VRef a =>
      match h !! a with
      | Some o => Some (alloc o h)
      | None => None
      end
  | _ => None
  end.

(** [template[key] = v] on the object at [a]; a list raises [TypeError]. *)
Definition setitem (a : nat) (key : string) (v : value) (h : gmap nat object)
  : option (gmap nat object) :=
  match h !! a with
  | Some (ODict d) => Some (<[a := ODict (<[key := v]> d)]> h)
  | _ => None
  end.

(** [if custom is not None: template[key] = custom] *)
Definition override (a : nat) (key : string) (custom : value) (h : gmap nat object)
  : option (gmap nat object) :=
  match custom with
  | VNone => Some h
  | _ => setitem a key custom h
  end.

(** The [meta] of a [clip_template] job. *)
Record template_meta := {
  filename : string;
  template : nat;
  session_id : option string
}.

Record state := {
  heap : gmap nat object;
  templates : gmap string value;
  jobs : gmap nat (job template_meta);
  job_queue : list nat;
  job_updates : list (option (job template_meta));
  now : nat
}.

(** The fields of the body of [POST /api/clip-template]; an absent key reads
    as [JNull].  Names are strings or absent. *)
Record clip_template_request := {
  req_filename : option string;
  req_template_name : option string;
  custom_overlays : json;
  custom_start : json;
  custom_duration : json;
  custom_output_name : json;
  custom_resolution : json;
  custom_flip : json;
  req_session_id : option string
}.

Inductive response :=
| Accepted (job_id : nat)
| Created
| BadRequest
| NotFound
| ServerError.

Definition truthy_name (s : option string) : bool :=
  match s with
  | Some (String _ _) => true
  | _ => false
  end.

(** [api_clip_with_template] *)
Definition api_clip_with_template (req : clip_template_request) (st : state)
  : response * state :=
  let '(v_overlays, h) := load (custom_overlays req) (heap st) in
  let '(v_start, h) := load (custom_start req) h in
  let '(v_duration, h) := load (custom_duration req) h in
  let '(v_output_name, h) := load (custom_output_name req) h in
  let '(v_resolution, h) := load (custom_resolution req) h in
  let '(v_flip, h) := load (custom_flip req) h in
  let st0 := {| heap := h; templates := templates st; jobs := jobs st;
                job_queue := job_queue st; job_updates := job_updates st;
                now := now st |} in
  if negb (truthy_name (req_filename req)) || negb (truthy_name (req_template_name req))
  then (BadRequest, st0)
  else
    match templates st !! default "" (req_template_name req) with
    | None => (NotFound, st0)
    | Some stored =>
        match copy stored h with
        | None => (ServerError, st0)
        | Some (template, h) =>
            let overridden :=
              h ← override template "overlays" v_overlays h;
              h ← override template "start" v_start h;
              h ← override template "duration" v_duration h;
              h ← override template "output_name" v_output_name h;
              h ← override template "resolution" v_resolution h;
              override template "flip" v_flip h in
            match overridden with
            | None => (ServerError, st0)
            | Some h =>
                let '(job_id, jobs') :=
                  create_job "clip_template"
                    {| filename := default "" (req_filename req);
                       template := template;
                       session_id := req_session_id req |}
                    (now st) (jobs st) in
                (Accepted job_id,
                 {| heap := h; templates := templates st; jobs := jobs';
                    job_queue := job_queue st ++ [job_id];
                    job_updates := job_updates st ++ [jobs' !! job_id];
                    now := now st + 2 |})
            end
        end
    end.

(** [create_template] with [save_template]: the parsed [data] object itself
    becomes the entry of the store. *)
Definition create_template (name : option string) (data : json) (st : state)
  : response * state :=
  let '(template_data, h) := load data (heap st) in
  let st0 := {| heap := h; templates := templates st; jobs := jobs st;
                job_queue := job_queue st; job_updates := job_updates st;
                now := now st |} in
  if negb (truthy_name name) || negb (truthy h template_data)
  then (BadRequest, st0)
  else
    (Created,
     {| heap := h; templates := <[default "" name := template_data]> (templates st);
        jobs := jobs st; job_queue := job_queue st; job_updates := job_updates st;
        now := now st |}).




End Templates.

(** ** Jobs, handlers and workers *)

Module Jobs.

(** *** Data *)

(** One text or emoji overlay of a [server.py] template, by the keys that
    decide whether [generate_overlay_filter] draws it. *)
Record overlay := {
  overlay_type : option string;
  overlay_text : option string;
  overlay_emoji : option string
}.

(** The template dictionary of a [clip_template] job ([server.py]); [None]
    is an absent key. *)
Record server_template := {
  t_name : option string;
  t_start : option Q;
  t_duration : option Q;
  t_output_name : option string;
  t_resolution : option string;
  t_flip : bool;
  t_overlays : list overlay;
  t_text : option string;
  t_font_size : option Z
}.

(** The template dictionary of a [template_clip] job ([app.py]). *)
Record app_template := {
  a_resolution : option string;
  a_texts : list Layout.txt
}.

(** The [meta] dictionaries built by the submission endpoints. *)
Inductive job_meta :=
| MetaDownload (url : string) (session_id : option string)
| MetaTranscribe (filename : string) (session_id : option string)
| MetaClip (filename : string) (start end_ : Q) (text : string) (flip : bool)
    (session_id : option string) (output_name : option string)
| MetaClipTemplate (filename : string) (template : server_template)
    (session_id : option string)
| MetaTemplateClip (filename : string) (start end_ : Q) (template : app_template)
    (output_name : option string) (session_id : option string)
| MetaMerge (clips : list string) (output_name : string) (session_id : option string).

(** The dictionary passed to a progress hook of the download engine. *)
Record hook := {
  hook_status : string;
  total_bytes : option Q;
  total_bytes_estimate : option Q;
  downloaded_bytes : option Q
}.

(** A segment yielded by the transcription engine. *)
Record segment := {
  seg_start : option Q;
  seg_end : option Q;
  seg_text : option string;
  seg_transcript : option string
}.

(** A video filter of a transcoding command. *)
Inductive filter :=
| Hflip
| Drawtext (text : string) (fontsize : Z)
| OverlayText (o : overlay)
| Placed (d : Layout.drawtext)
| Scale (resolution : string)
| VerticalFilter
| MobileFullWidthFilter.

(** An argument of a command line; [Num q] is [str(q)]. *)
Inductive arg :=
| Lit (s : string)
| Num (q : Q)
| Vf (filters : list filter).

Inductive event :=
| JobUpdate (snapshot : option (job job_meta))
| DownloadProgress (job_id : nat) (p : Q)
| ClipProgress (job_id : nat) (p : Q)
| TemplateProgress (job_id : nat) (p : Q)
| MergeProgress (job_id : nat) (p : Q)
| TranscriptSegment (job_id : nat) (start end_ : Q) (text : string)
| VideosUpdate.

(** A task handed to the event loop with [asyncio.create_task]. *)
Inductive task :=
| Broadcast (e : event)
| PushJobUpdate (job_id : nat).

(** An entry of [clips_metadata]. *)
Record clip_record := {
  source_video : string;
  clip_start : Q;
  clip_end : Q;
  clip_text : string;
  clip_overlays : list overlay;
  clip_template : string;
  clip_created_at : nat;
  clip_path : string
}.

(** What one execution of a handler receives from outside the program. *)
Record world := {
  WHISPER_AVAILABLE : bool;
  model_error : option string;
  path_exists : string -> bool;
  basename : string -> string;
  splitext_root : string -> string;
  uuid_hex : string;
  hook_calls : list hook;
  download_error : option string;
  ffprobe : string -> option Q;
  transcription : list (list segment);
  transcription_error : option string;
  write_error : option string;
  popen_error : option string;
  stderr_lines : list string;
  returncode : Z;
  makedirs_error : string -> option string;
  copy_error : option string
}.

Record state := {
  jobs : gmap nat (job job_meta);
  job_queue : list nat;
  emitted : list event;
  scheduled : list task;
  launched : list (list arg);
  killed : nat;
  clips_metadata : gmap string clip_record;
  sessions : gmap string (gmap string Cleanup.entry);
  now : nat
}.

(** *** Field updates *)

Definition with_status (v : job_status) (j : job job_meta) : job job_meta :=
  {| id := id j; kind := kind j; meta := meta j; status := v;
     progress := progress j; created_at := created_at j; updated_at := updated_at j;
     result := result j; error := error j |}.

Definition with_progress (v : Q) (j : job job_meta) : job job_meta :=
  {| id := id j; kind := kind j; meta := meta j; status := status j;
     progress := v; created_at := created_at j; updated_at := updated_at j;
     result := result j; error := error j |}.

Definition with_updated_at (v : nat) (j : job job_meta) : job job_meta :=
  {| id := id j; kind := kind j; meta := meta j; status := status j;
     progress := progress j; created_at := created_at j; updated_at := v;
     result := result j; error := error j |}.

Definition with_result (v : job_result) (j : job job_meta) : job job_meta :=
  {| id := id j; kind := kind j; meta := meta j; status := status j;
     progress := progress j; created_at := created_at j; updated_at := updated_at j;
     result := Some v; error := error j |}.

Definition with_error (v : string) (j : job job_meta) : job job_meta :=
  {| id := id j; kind := kind j; meta := meta j; status := status j;
     progress := progress j; created_at := created_at j; updated_at := updated_at j;
     result := result j; error := Some v |}.

Definition set_jobs (v : gmap nat (job job_meta)) (s : state) : state :=
  {| jobs := v; job_queue := job_queue s; emitted := emitted s;
     scheduled := scheduled s; launched := launched s; killed := killed s;
     clips_metadata := clips_metadata s; sessions := sessions s; now := now s |}.

Definition set_job_queue (v : list nat) (s : state) : state :=
  {| jobs := jobs s; job_queue := v; emitted := emitted s;
     scheduled := scheduled s; launched := launched s; killed := killed s;
     clips_metadata := clips_metadata s; sessions := sessions s; now := now s |}.

Definition set_emitted (v : list event) (s : state) : state :=
  {| jobs := jobs s; job_queue := job_queue s; emitted := v;
     scheduled := scheduled s; launched := launched s; killed := killed s;
     clips_metadata := clips_metadata s; sessions := sessions s; now := now s |}.

Definition set_scheduled (v : list task) (s : state) : state :=
  {| jobs := jobs s; job_queue := job_queue s; emitted := emitted s;
     scheduled := v; launched := launched s; killed := killed s;
     clips_metadata := clips_metadata s; sessions := sessions s; now := now s |}.

Definition set_launched (v : list (list arg)) (s : state) : state :=
  {| jobs := jobs s; job_queue := job_queue s; emitted := emitted s;
     scheduled := scheduled s; launched := v; killed := killed s;
     clips_metadata := clips_metadata s; sessions := sessions s; now := now s |}.

Definition set_killed (v : nat) (s : state) : state :=
  {| jobs := jobs s; job_queue := job_queue s; emitted := emitted s;
     scheduled := scheduled s; launched := launched s; killed := v;
     clips_metadata := clips_metadata s; sessions := sessions s; now := now s |}.

Definition set_clips_metadata (v : gmap string clip_record) (s : state) : state :=
  {| jobs := jobs s; job_queue := job_queue s; emitted := emitted s;
     scheduled := scheduled s; launched := launched s; killed := killed s;
     clips_metadata := v; sessions := sessions s; now := now s |}.

Definition set_sessions (v : gmap string (gmap string Cleanup.entry)) (s : state) : state :=
  {| jobs := jobs s; job_queue := job_queue s; emitted := emitted s;
     scheduled := scheduled s; launched := launched s; killed := killed s;
     clips_metadata := clips_metadata s; sessions := v; now := now s |}.

Definition set_now (v : nat) (s : state) : state :=
  {| jobs := jobs s; job_queue := job_queue s; emitted := emitted s;
     scheduled := scheduled s; launched := launched s; killed := killed s;
     clips_metadata := clips_metadata s; sessions := sessions s; now := v |}.

(** *** The monad of handlers: state, and exceptions that keep the state *)

Inductive outcome (A : Type) :=
| Ret (a : A)
| Raise (e : string).

Arguments Ret {A} a.
Arguments Raise {A} e.

Definition M (A : Type) : Type := state -> outcome A * state.

#[global] Instance M_ret : MRet M := fun A a s => (Ret a, s).

#[global] Instance M_bind : MBind M := fun A B f m s =>
  match m s with
  | (Ret a, s') => f a s'
  | (Raise e, s') => (Raise e, s')
  end.

Definition raise {A : Type} (e : string) : M A := fun s => (Raise e, s).

(** [try: body except Exception as e: handler(str(e))] *)
Definition try_except {A : Type} (body : M A) (handler : string -> M A) : M A :=
  fun s =>
    match body s with
    | (Ret a, s') => (Ret a, s')
    | (Raise e, s') => handler e s'
    end.

(** [try: body finally: cleanup] *)
Definition try_finally {A : Type} (body : M A) (cleanup : M unit) : M A :=
  fun s =>
    match body s with
    | (r, s') =>
        match cleanup s' with
        | (Ret _, s'') => (r, s'')
        | (Raise e, s'') => (Raise e, s'')
        end
    end.

Definition when (b : bool) (m : M unit) : M unit := if b then m else mret tt.

(** [for x in l: body(x)] *)
Fixpoint for_each {A : Type} (l : list A) (body : A -> M unit) : M unit :=
  match l with
  | [] => mret tt
  | x :: rest => body x ;; for_each rest body
  end.

(** A loop that carries local variables. *)
Fixpoint fold_m {A B : Type} (body : B -> A -> M B) (acc : B) (l : list A) : M B :=
  match l with
  | [] => mret acc
  | x :: rest => acc' ← body acc x; fold_m body acc' rest
  end.

Definition raise_if (e : option string) : M unit :=
  match e with
  | Some msg => raise msg
  | None => mret tt
  end.

(** *** Primitive operations *)

(** [jobs[job_id]] *)
Definition get_job (job_id : nat) : M (job job_meta) := fun s =>
  match jobs s !! job_id with
  | Some j => (Ret j, s)
  | None => (Raise "KeyError", s)
  end.

(** [jobs[job_id][field] = v] *)
Definition set_job (job_id : nat) (f : job job_meta -> job job_meta) : M unit := fun s =>
  match jobs s !! job_id with
  | Some j => (Ret tt, set_jobs (<[job_id := f j]> (jobs s)) s)
  | None => (Raise "KeyError", s)
  end.

Definition emit (e : event) : M unit := fun s => (Ret tt, set_emitted (emitted s ++ [e]) s).

(** [asyncio.create_task(...)]: the task runs when the handler next yields
    to the event loop. *)
Definition create_task (e : task) : M unit := fun s =>
  (Ret tt, set_scheduled (scheduled s ++ [e]) s).

(** [push_job_update]: [jobs.get(job_id, {})] is sent to the subscribers. *)
Definition push_job_update (job_id : nat) : M unit := fun s =>
  (Ret tt, set_emitted (emitted s ++ [JobUpdate (jobs s !! job_id)]) s).

(** [time.time()] *)
Definition time_time : M nat := fun s => (Ret (now s), set_now (S (now s)) s).

(** [subprocess.Popen(cmd, ...)] *)
Definition popen (w : world) (cmd : list arg) : M unit := fun s =>
  match popen_error w with
  | Some e => (Raise e, s)
  | None => (Ret tt, set_launched (launched s ++ [cmd]) s)
  end.

(** [proc.kill()] *)
Definition kill : M unit := fun s => (Ret tt, set_killed (S (killed s)) s).

(** [os.makedirs(path, exist_ok=True)] *)
Definition makedirs (w : world) (path : string) : M unit :=
  raise_if (makedirs_error w path).

(** The session folder exists after [os.makedirs(..., exist_ok=True)]. *)
Definition ensure_session (session_id : string) : M unit := fun s =>
  match sessions s !! session_id with
  | Some _ => (Ret tt, s)
  | None => (Ret tt, set_sessions (<[session_id := ∅]> (sessions s)) s)
  end.

(** [os.makedirs(os.path.join(SESSIONS_DIR, session_id), exist_ok=True)] *)
Definition make_session_folder (w : world) (session_id : string) : M unit :=
  makedirs w (path_join SESSIONS_DIR session_id) ;;
  ensure_session session_id.

(** A file of that name is in the session folder after a copy. *)
Definition add_session_file (session_id name : string) : M unit := fun s =>
  (Ret tt,
   set_sessions
     (<[session_id := <[name := Cleanup.RegularFile]>
                        (default ∅ (sessions s !! session_id))]> (sessions s)) s).

(** [shutil.copy(src, os.path.join(SESSIONS_DIR, session_id, os.path.basename(src)))] *)
Definition copy_to_session (w : world) (src session_id : string) : M unit :=
  raise_if (copy_error w) ;;
  add_session_file session_id (basename w src).

(** [clips_metadata[key] = record] *)
Definition set_clip_metadata (key : string) (r : clip_record) : M unit := fun s =>
  (Ret tt, set_clips_metadata (<[key := r]> (clips_metadata s)) s).

(** Truthiness of an optional string ([if session_id:]). *)
Definition truthy_str (x : option string) : bool :=
  match x with
  | Some (String _ _) => true
  | _ => false
  end.

(** [a / b] on floats *)
Definition py_div (a b : Q) : M Q :=
  if Qeq_bool b 0 then raise "float division by zero" else mret (a / b)%Q.


(** [jobs[job_id]["meta"]] *)
Definition get_meta (job_id : nat) : M job_meta := j ← get_job job_id; mret (meta j).

(** The three writes of a failure path:
    [status = "error"], [error = msg], [push_job_update]. *)
Definition fail (job_id : nat) (msg : string) : M unit :=
  set_job job_id (with_status Error) ;;
  set_job job_id (with_error msg) ;;
  push_job_update job_id.

(** [job_queue.get()]: on an empty queue the threaded variant raises
    [queue.Empty] after its timeout. *)
Definition queue_get : M nat := fun s =>
  match job_queue s with
  | job_id :: rest => (Ret job_id, set_job_queue rest s)
  | [] => (Raise "Empty", s)
  end.

(** [job_queue.task_done()] only counts finished tasks. *)
Definition task_done : M unit := mret tt.

(** [jobs.get(job_id)] *)
Definition lookup_job (job_id : nat) : M (option (job job_meta)) := fun s =>
  (Ret (jobs s !! job_id), s).

(** [a or b or ""] on optional strings *)
Definition or_str (a b : option string) : string :=
  if truthy_str a then default "" a else if truthy_str b then default "" b else "".

(** *** [server.py] *)

Module Server.

(** The progress hook of [do_download]. *)
Definition progress_hook (job_id : nat) (d : hook) : M unit :=
  if String.eqb (hook_status d) "downloading" then
    let total := default 0%Q (or_num (or_num (total_bytes d) (total_bytes_estimate d)) (Some 0%Q)) in
    let downloaded := default 0%Q (or_num (downloaded_bytes d) (Some 0%Q)) in
    let prog := if Qeq_bool total 0 then 0%Q else (downloaded / total * 100)%Q in
    set_job job_id (with_progress (round2 prog)) ;;
    t ← time_time;
    set_job job_id (with_updated_at t) ;;
    j ← get_job job_id;
    emit (DownloadProgress job_id (progress j)) ;;
    push_job_update job_id
  else if String.eqb (hook_status d) "finished" then
    set_job job_id (with_progress 100) ;;
    push_job_update job_id
  else mret tt.

(** [if session_id: os.makedirs(...); shutil.copy(...)] *)
Definition copy_into_session (w : world) (session_id : option string) (src : string)
  : M unit :=
  when (truthy_str session_id)
    (make_session_folder w (default "" session_id) ;;
     copy_to_session w src (default "" session_id)).

Definition do_download (w : world) (job_id : nat) : M unit :=
  set_job job_id (with_status Running) ;;
  push_job_update job_id ;;
  m ← get_meta job_id;
  match m with
  | MetaDownload url session_id =>
      t ← time_time;
      let outname := pretty t ++ "_" ++ uuid_hex w ++ ".mp4" in
      let outpath := path_join DOWNLOADS_DIR outname in
      try_except
        (for_each (hook_calls w) (progress_hook job_id) ;;
         raise_if (download_error w) ;;
         set_job job_id (with_status Finished) ;;
         set_job job_id (with_result (ResDownload (basename w outpath) outpath)) ;;
         set_job job_id (with_progress 100) ;;
         copy_into_session w session_id outpath ;;
         push_job_update job_id ;;
         emit VideosUpdate)
        (fun e => fail job_id e)
  | _ => raise "KeyError"
  end.

(** The read loop over the diagnostic stream of the transcoder, for one
    line; [make_event] is the progress event of the handler. *)
Definition read_line (job_id : nat) (make_event : nat -> Q -> event) (duration : Q)
    (line : string) : M unit :=
  match line_secs line with
  | Some secs =>
      q ← py_div secs duration;
      let prog := (q * 100)%Q in
      set_job job_id (with_progress (round2 (Qmin 100 prog))) ;;
      t ← time_time;
      set_job job_id (with_updated_at t) ;;
      j ← get_job job_id;
      emit (make_event job_id (progress j)) ;;
      push_job_update job_id
  | None => mret tt
  end.

(** [proc.wait()] and the check of the return code. *)
Definition wait_process (w : world) : M unit :=
  if Z.eqb (returncode w) 0 then mret tt
  else raise ("ffmpeg failed with code " ++ pretty (returncode w)).

Definition ffmpeg_command (start : Q) (input_path : string) (duration : Q)
    (vf_filters : list filter) (outpath : string) : list arg :=
  [Lit "ffmpeg"; Lit "-y";
   Lit "-ss"; Num start; Lit "-i"; Lit input_path;
   Lit "-t"; Num duration;
   Lit "-vf"; Vf vf_filters;
   Lit "-c:v"; Lit "libx264";
   Lit "-c:a"; Lit "aac";
   Lit outpath].

Definition do_clip (w : world) (job_id : nat) : M unit :=
  set_job job_id (with_status Running) ;;
  push_job_update job_id ;;
  m ← get_meta job_id;
  match m with
  | MetaClip filename start end_ text flip session_id output_name =>
      output_name ←
        (if truthy_str output_name then mret (default "" output_name)
         else t ← time_time; mret ("clip_" ++ pretty t ++ ".mp4"));
      let input_path := path_join DOWNLOADS_DIR filename in
      if negb (path_exists w input_path) then fail job_id "input file not found"
      else
        let duration := (end_ - start)%Q in
        if Qle_bool duration 0 then fail job_id "invalid start/end"
        else
          let video_name := splitext_root w filename in
          let video_clips_dir := path_join CLIPS_DIR video_name in
          makedirs w video_clips_dir ;;
          timestamp ← time_time;
          let unique_output_name :=
            splitext_root w output_name ++ "_" ++ pretty timestamp ++ ".mp4" in
          let outpath := path_join video_clips_dir unique_output_name in
          let vf_filters : list filter :=
            ((if flip then [Hflip] else []) ++
             (if String.eqb text "" then [] else [Drawtext (replace "'" "\'" text) 28]) ++
             [VerticalFilter])%list in
          let cmd := ffmpeg_command start input_path duration vf_filters outpath in
          popen w cmd ;;
          try_except
            (for_each (stderr_lines w) (read_line job_id ClipProgress duration) ;;
             wait_process w ;;
             set_job job_id (with_status Finished) ;;
             set_job job_id (with_result (ResClip outpath)) ;;
             set_job job_id (with_progress 100) ;;
             created ← time_time;
             set_clip_metadata (video_name ++ "/" ++ basename w outpath)
               {| source_video := filename; clip_start := start; clip_end := end_;
                  clip_text := text; clip_overlays := []; clip_template := "";
                  clip_created_at := created; clip_path := outpath |} ;;
             copy_into_session w session_id outpath ;;
             push_job_update job_id)
            (fun e => kill ;; fail job_id e)
  | _ => raise "KeyError"
  end.

(** [generate_overlay_filter]: which overlays are drawn. *)
Definition generate_overlay_filter (overlays : list overlay) : list filter :=
  flat_map
    (fun o =>
       let overlay_type := default "text" (overlay_type o) in
       if String.eqb overlay_type "text" then
         if truthy_str (overlay_text o) then [OverlayText o] else []
       else if String.eqb overlay_type "emoji" then
         if truthy_str (overlay_emoji o) then [OverlayText o] else []
       else [])
    overlays.

Definition do_clip_with_template (w : world) (job_id : nat) : M unit :=
  set_job job_id (with_status Running) ;;
  push_job_update job_id ;;
  m ← get_meta job_id;
  match m with
  | MetaClipTemplate filename template session_id =>
      let input_path := path_join DOWNLOADS_DIR filename in
      if negb (path_exists w input_path) then fail job_id "input file not found"
      else
        let start := default 0%Q (t_start template) in
        let duration := default 10%Q (t_duration template) in
        let end_ := (start + duration)%Q in
        timestamp ← time_time;
        let output_name :=
          replace "{timestamp}" (pretty timestamp)
            (default ("template_clip_" ++ pretty timestamp ++ ".mp4")
               (t_output_name template)) in
        let resolution := default "1080:1920" (t_resolution template) in
        let video_name := splitext_root w filename in
        let video_clips_dir := path_join CLIPS_DIR video_name in
        makedirs w video_clips_dir ;;
        let outpath := path_join video_clips_dir output_name in
        let overlays := t_overlays template in
        let vf_filters : list filter :=
          ((if t_flip template then [Hflip] else []) ++
          (match overlays with
           | _ :: _ => generate_overlay_filter overlays
           | [] =>
               if truthy_str (t_text template)
               then [Drawtext (replace "'" "\'" (default "" (t_text template)))
                       (default 28%Z (t_font_size template))]
               else []
           end) ++
          (if negb (String.eqb resolution "") && negb (String.eqb resolution "original")
           then [Scale resolution] else []) ++
          (if bool_decide (t_name template = Some "mobile_full_width")
           then [MobileFullWidthFilter] else [VerticalFilter]))%list in
        let cmd := ffmpeg_command start input_path duration vf_filters outpath in
        popen w cmd ;;
        try_except
          (for_each (stderr_lines w) (read_line job_id ClipProgress duration) ;;
           wait_process w ;;
           set_job job_id (with_status Finished) ;;
           set_job job_id
             (with_result (ResTemplateClip outpath (default "unknown" (t_name template)))) ;;
           set_job job_id (with_progress 100) ;;
           created ← time_time;
           set_clip_metadata (video_name ++ "/" ++ basename w outpath)
             {| source_video := filename; clip_start := start; clip_end := end_;
                clip_text := ""; clip_overlays := overlays;
                clip_template := default "unknown" (t_name template);
                clip_created_at := created; clip_path := outpath |} ;;
           copy_into_session w session_id outpath ;;
           push_job_update job_id)
          (fun e => kill ;; fail job_id e)
  | _ => raise "KeyError"
  end.

(** The inner loop of [do_transcribe] over the segments of one yielded
    item; the local variables are [processed_time] and
    [transcription_lines]. *)
Definition transcribe_segment (job_id : nat) (acc : Q * list (Q * string)) (s : segment)
  : M (Q * list (Q * string)) :=
  let start := default 0%Q (seg_start s) in
  let end_ := default start (seg_end s) in
  let text := or_str (seg_text s) (seg_transcript s) in
  emit (TranscriptSegment job_id start end_ text) ;;
  mret (Qmax (fst acc) end_, (snd acc ++ [(start, text)])%list).

(** The body of the outer loop: one yielded item, then the progress
    update. *)
Definition transcribe_item (job_id : nat) (total_duration : option Q)
    (acc : Q * list (Q * string)) (segs : list segment) : M (Q * list (Q * string)) :=
  acc' ← fold_m (transcribe_segment job_id) acc segs;
  (if truthy_num total_duration then
     set_job job_id
       (with_progress (round2 (Qmin 100 (fst acc' / default 0%Q total_duration * 100))))
   else
     j ← get_job job_id;
     set_job job_id (with_progress (Qmin 99 (progress j + 5)))) ;;
  t ← time_time;
  set_job job_id (with_updated_at t) ;;
  push_job_update job_id ;;
  mret acc'.

Definition do_transcribe (w : world) (job_id : nat) : M unit :=
  if negb (WHISPER_AVAILABLE w) then fail job_id "faster-whisper not available"
  else
    set_job job_id (with_status Running) ;;
    push_job_update job_id ;;
    m ← get_meta job_id;
    match m with
    | MetaTranscribe filename session_id =>
        let path := path_join DOWNLOADS_DIR filename in
        if negb (path_exists w path) then fail job_id "file not found"
        else
          raise_if (model_error w) ;;
          let total_duration := ffprobe w path in
          set_job job_id (with_progress 0) ;;
          push_job_update job_id ;;
          try_except
            (acc ← fold_m (transcribe_item job_id total_duration) (0%Q, []) (transcription w);
             raise_if (transcription_error w) ;;
             let outfile := path_join TRANS_DIR (filename ++ ".txt") in
             raise_if (write_error w) ;;
             copy_into_session w session_id outfile ;;
             set_job job_id (with_status Finished) ;;
             set_job job_id (with_result (ResTranscript outfile (snd acc))) ;;
             set_job job_id (with_progress 100) ;;
             push_job_update job_id)
            (fun e => fail job_id e)
    | _ => raise "KeyError"
    end.

(** The [if kind == ...] chain of [job_worker]. *)
Definition run_job (w : world) (kind : string) (job_id : nat) : M unit :=
  if String.eqb kind "download" then do_download w job_id
  else if String.eqb kind "transcribe" then do_transcribe w job_id
  else if String.eqb kind "clip" then do_clip w job_id
  else if String.eqb kind "clip_template" then do_clip_with_template w job_id
  else fail job_id ("unknown job kind: " ++ kind).

(** One turn of the [while True] loop of [job_worker]. *)
Definition job_worker (w : world) : M unit :=
  try_except
    (job_id ← queue_get;
     job ← lookup_job job_id;
     match job with
     | None => mret tt
     | Some job =>
         try_finally
           (try_except (run_job w (kind job) job_id) (fun e => fail job_id e))
           task_done
     end)
    (fun _ => mret tt).

End Server.


(** The submission endpoints share one shape:
    [create_job(kind, meta)], [job_queue.put(job_id)], [push_job_update(job_id)]. *)
Definition submit (kind : string) (m : job_meta) : M nat := fun s =>
  let '(job_id, jobs') := create_job kind m (now s) (jobs s) in
  (Ret job_id,
   set_emitted (emitted s ++ [JobUpdate (jobs' !! job_id)])
     (set_job_queue (job_queue s ++ [job_id])
        (set_now (now s + 2) (set_jobs jobs' s)))).

(** *** [static/app.py] *)

Module App.

(** The progress hook of [do_download]. *)
Definition progress_hook (job_id : nat) (d : hook) : M unit :=
  if String.eqb (hook_status d) "downloading" then
    let total := default 0%Q (or_num (or_num (total_bytes d) (total_bytes_estimate d)) (Some 0%Q)) in
    let downloaded := default 0%Q (or_num (downloaded_bytes d) (Some 0%Q)) in
    let prog := if Qeq_bool total 0 then 0%Q else (downloaded / total)%Q in
    set_job job_id (with_progress (round2 (prog * 100))) ;;
    t ← time_time;
    set_job job_id (with_updated_at t) ;;
    j ← get_job job_id;
    create_task (Broadcast (DownloadProgress job_id (progress j))) ;;
    create_task (PushJobUpdate job_id)
  else if String.eqb (hook_status d) "finished" then
    set_job job_id (with_progress 100) ;;
    t ← time_time;
    set_job job_id (with_updated_at t) ;;
    create_task (PushJobUpdate job_id)
  else mret tt.

(** [jobs[job_id]["updated_at"] = time.time()] *)
Definition touch (job_id : nat) : M unit :=
  t ← time_time; set_job job_id (with_updated_at t).

(** The failure path of the handlers of [app.py]. *)
Definition fail_touch (job_id : nat) (msg : string) : M unit :=
  set_job job_id (with_status Error) ;;
  set_job job_id (with_error msg) ;;
  touch job_id ;;
  push_job_update job_id.

Definition do_download (w : world) (job_id : nat) : M unit :=
  set_job job_id (with_status Running) ;;
  push_job_update job_id ;;
  m ← get_meta job_id;
  match m with
  | MetaDownload url session_id =>
      t ← time_time;
      let outname := pretty t ++ "_" ++ uuid_hex w ++ ".mp4" in
      let outpath := path_join DOWNLOADS_DIR outname in
      try_except
        (for_each (hook_calls w) (progress_hook job_id) ;;
         raise_if (download_error w) ;;
         set_job job_id (with_status Finished) ;;
         set_job job_id (with_result (ResDownload (basename w outpath) outpath)) ;;
         set_job job_id (with_progress 100) ;;
         touch job_id ;;
         when (truthy_str session_id)
           (make_session_folder w (default "" session_id) ;;
            try_except (copy_to_session w outpath (default "" session_id))
              (fun _ => mret tt)) ;;
         push_job_update job_id)
        (fun e => fail_touch job_id e)
  | _ => raise "KeyError"
  end.

(** [if session_id: os.makedirs(...); shutil.copy(...)], as the other
    handlers of [app.py] write it. *)
Definition copy_into_session (w : world) (session_id : option string) (src : string)
  : M unit :=
  when (truthy_str session_id)
    (make_session_folder w (default "" session_id) ;;
     copy_to_session w src (default "" session_id)).

Definition transcribe_segment (job_id : nat) (acc : Q * list (Q * string)) (s : segment)
  : M (Q * list (Q * string)) :=
  let start := default 0%Q (seg_start s) in
  let end_ := default start (seg_end s) in
  let text := or_str (seg_text s) (seg_transcript s) in
  emit (TranscriptSegment job_id start end_ text) ;;
  mret (Qmax (fst acc) end_, (snd acc ++ [(start, text)])%list).

Definition transcribe_item (job_id : nat) (total_duration : option Q)
    (acc : Q * list (Q * string)) (segs : list segment) : M (Q * list (Q * string)) :=
  acc' ← fold_m (transcribe_segment job_id) acc segs;
  (if truthy_num total_duration then
     set_job job_id
       (with_progress (round2 (Qmin 100 (fst acc' / default 0%Q total_duration * 100))))
   else
     j ← get_job job_id;
     set_job job_id (with_progress (Qmin 99 (progress j + 5)))) ;;
  touch job_id ;;
  push_job_update job_id ;;
  mret acc'.

Definition do_transcribe (w : world) (job_id : nat) : M unit :=
  set_job job_id (with_status Running) ;;
  push_job_update job_id ;;
  m ← get_meta job_id;
  match m with
  | MetaTranscribe filename session_id =>
      let path := path_join DOWNLOADS_DIR filename in
      if negb (path_exists w path) then fail job_id "file not found"
      else
        raise_if (model_error w) ;;
        let total_duration := ffprobe w path in
        set_job job_id (with_progress 0) ;;
        push_job_update job_id ;;
        try_except
          (acc ← fold_m (transcribe_item job_id total_duration) (0%Q, []) (transcription w);
           raise_if (transcription_error w) ;;
           let outfile := path_join TRANS_DIR (filename ++ ".txt") in
           raise_if (write_error w) ;;
           copy_into_session w session_id outfile ;;
           set_job job_id (with_status Finished) ;;
           set_job job_id (with_result (ResTranscript outfile (snd acc))) ;;
           set_job job_id (with_progress 100) ;;
           touch job_id ;;
           push_job_update job_id)
          (fun e => fail_touch job_id e)
  | _ => raise "KeyError"
  end.

(** The read loop, for one line; [percent secs] is the expression assigned
    to [prog]. *)
Definition read_line (job_id : nat) (make_event : nat -> Q -> event)
    (percent : Q -> M Q) (line : string) : M unit :=
  match line_secs line with
  | Some secs =>
      prog ← percent secs;
      set_job job_id (with_progress (round2 (Qmin 100 prog))) ;;
      touch job_id ;;
      j ← get_job job_id;
      emit (make_event job_id (progress j)) ;;
      push_job_update job_id
  | None => mret tt
  end.

(** [(secs / duration) * 100.0] *)
Definition percent_of (duration : Q) (secs : Q) : M Q :=
  q ← py_div secs duration; mret (q * 100)%Q.

(** What follows the read loop in the three transcoding handlers. *)
Definition finish (w : world) (job_id : nat) (r : job_result) (outpath : string)
    (session_id : option string) : M unit :=
  Server.wait_process w ;;
  set_job job_id (with_status Finished) ;;
  set_job job_id (with_result r) ;;
  set_job job_id (with_progress 100) ;;
  touch job_id ;;
  copy_into_session w session_id outpath ;;
  push_job_update job_id.

Definition do_clip (w : world) (job_id : nat) : M unit :=
  set_job job_id (with_status Running) ;;
  push_job_update job_id ;;
  m ← get_meta job_id;
  match m with
  | MetaClip filename start end_ text _ session_id output_name =>
      output_name ←
        (if truthy_str output_name then mret (default "" output_name)
         else t ← time_time; mret ("clip_" ++ pretty t ++ ".mp4"));
      let input_path := path_join DOWNLOADS_DIR filename in
      if negb (path_exists w input_path) then fail job_id "input file not found"
      else
        let duration := (end_ - start)%Q in
        if Qle_bool duration 0 then fail job_id "invalid start/end"
        else
          let outpath := path_join CLIPS_DIR output_name in
          (* [cmd] is assigned under [if text:] only *)
          cmd ←
            (if String.eqb text "" then raise "UnboundLocalError"
             else
               mret (Server.ffmpeg_command start input_path duration
                       [VerticalFilter; Hflip; Drawtext (replace "'" "\'" text) 28]
                       outpath));
          popen w cmd ;;
          try_except
            (for_each (stderr_lines w)
               (read_line job_id ClipProgress (percent_of duration)) ;;
             finish w job_id (ResClip outpath) outpath session_id)
            (fun e => kill ;; fail_touch job_id e)
  | _ => raise "KeyError"
  end.

(** [w, h = template["resolution"].split("x")] and the scale filter, under
    their [try]. *)
Definition scale_filter (resolution : string) : list filter :=
  match split_on "x" resolution with
  | [w; h] => [Scale (w ++ ":" ++ h)]
  | _ => []
  end.

(** [output_name if output_name.endswith(".mp4") else output_name + ".mp4"] *)
Definition mp4_name (output_name : string) : string :=
  if endswith output_name ".mp4" then output_name else output_name ++ ".mp4".

Definition do_template_clip (w : world) (job_id : nat) : M unit :=
  set_job job_id (with_status Running) ;;
  push_job_update job_id ;;
  m ← get_meta job_id;
  match m with
  | MetaTemplateClip filename start end_ template output_name session_id =>
      output_name ←
        (if truthy_str output_name then mret (default "" output_name)
         else t ← time_time; mret ("templated_" ++ pretty t ++ ".mp4"));
      let input_path := path_join DOWNLOADS_DIR filename in
      if negb (path_exists w input_path) then fail job_id "input file not found"
      else
        let duration := (end_ - start)%Q in
        if Qle_bool duration 0 then fail job_id "invalid start/end"
        else
          let outpath := path_join CLIPS_DIR (mp4_name output_name) in
          let scale :=
            if truthy_str (a_resolution template)
            then scale_filter (default "" (a_resolution template)) else [] in
          match Layout.layout (a_resolution template) (a_texts template) with
          | inl e => raise e
          | inr draws =>
              let vf_filters : list filter := (scale ++ map Placed draws)%list in
              let final_vf :=
                match vf_filters with
                | [] => [VerticalFilter]
                | _ :: _ => VerticalFilter :: Hflip :: vf_filters
                end in
              let cmd := Server.ffmpeg_command start input_path duration final_vf outpath in
              popen w cmd ;;
              try_except
                (for_each (stderr_lines w)
                   (read_line job_id TemplateProgress (percent_of duration)) ;;
                 finish w job_id (ResClip outpath) outpath session_id)
                (fun e => kill ;; fail_touch job_id e)
          end
  | _ => raise "KeyError"
  end.

(** [(secs / total_duration) * 100.0 if total_duration else 0.0] *)
Definition merge_percent (total_duration : Q) (secs : Q) : M Q :=
  if Qeq_bool total_duration 0 then mret 0%Q else mret (secs / total_duration * 100)%Q.

Definition do_merge (w : world) (job_id : nat) : M unit :=
  set_job job_id (with_status Running) ;;
  push_job_update job_id ;;
  m ← get_meta job_id;
  match m with
  | MetaMerge clips output_name session_id =>
      t ← time_time;
      let list_file :=
        path_join CLIPS_DIR ("merge_" ++ sanitize output_name ++ "_" ++ pretty t ++ ".txt") in
      raise_if (write_error w) ;;
      let outpath := path_join CLIPS_DIR (mp4_name output_name) in
      let cmd :=
        [Lit "ffmpeg"; Lit "-y"; Lit "-f"; Lit "concat"; Lit "-safe"; Lit "0";
         Lit "-i"; Lit list_file; Lit "-vf"; Vf [VerticalFilter];
         Lit "-c:v"; Lit "libx264"; Lit "-c:a"; Lit "aac"; Lit outpath] in
      popen w cmd ;;
      let total_duration :=
        foldl (fun acc c => (acc + default 0 (ffprobe w (path_join CLIPS_DIR c)))%Q) 0%Q clips in
      try_finally
        (try_except
           (for_each (stderr_lines w)
              (read_line job_id MergeProgress (merge_percent total_duration)) ;;
            finish w job_id (ResMerged outpath) outpath session_id)
           (fun e => kill ;; fail_touch job_id e))
        (mret tt)
  | _ => raise "KeyError"
  end.

(** The [if kind == ...] chain of [worker_loop]. *)
Definition run_job (w : world) (kind : string) (job_id : nat) : M unit :=
  if String.eqb kind "download" then do_download w job_id
  else if String.eqb kind "transcribe" then do_transcribe w job_id
  else if String.eqb kind "clip" then do_clip w job_id
  else if String.eqb kind "template_clip" then do_template_clip w job_id
  else if String.eqb kind "merge" then do_merge w job_id
  else fail job_id ("unknown job kind: " ++ kind).

(** One turn of the [while True] loop of [worker_loop]; on an empty queue
    the worker stays suspended in [job_queue.get()]. *)
Definition worker_loop (w : world) : M unit := fun s =>
  match job_queue s with
  | [] => (Ret tt, s)
  | job_id :: rest =>
      (job ← lookup_job job_id;
       match job with
       | None => task_done
       | Some job =>
           try_finally
             (try_except (run_job w (kind job) job_id) (fun e => fail job_id e))
             task_done
       end) (set_job_queue rest s)
  end.

End App.

(** *** Vocabulary of the statements *)

(** The state after running [m]. *)
Definition exec {A : Type} (m : M A) (s : state) : state := (m s).2.

(** [m], run from [s], ends in a state satisfying [Q] when it returns and
    [E] when it raises. *)
Definition wp {A : Type} (m : M A) (Q : A -> state -> Prop) (E : string -> state -> Prop)
    (s : state) : Prop :=
  match m s with
  | (Ret a, s') => Q a s'
  | (Raise e, s') => E e s'
  end.

(** [m] preserves [I], whether it returns or raises. *)
Definition keeps {A : Type} (I : state -> Prop) (m : M A) : Prop :=
  forall s, I s -> I (m s).2.

(** Since [s0], only the record of [job_id] may have changed in the job
    table; it is still there, and the queue is the same. *)
Definition only_job (job_id : nat) (s0 s : state) : Prop :=
  (forall other, other ≠ job_id -> jobs s !! other = jobs s0 !! other) /\
  is_Some (jobs s !! job_id) /\
  job_queue s = job_queue s0.

(** What one turn of a worker does with the job [job_id] at the head of
    the queue: the turn itself never raises, the identifier leaves the
    queue, no other record changes, and the job is handed to [run_job];
    when [run_job] returns, the turn ends in the state it reached, and when
    it raises [e] the record gets the status [Error] and the message [e]. *)
Definition worker_contract (worker : world -> M unit)
    (run_job : world -> string -> nat -> M unit) : Prop :=
  forall (w : world) (s : state) (job_id : nat) (rest : list nat) (j : job job_meta),
    job_queue s = job_id :: rest ->
    jobs s !! job_id = Some j ->
    (worker w s).1 = Ret tt /\
    job_queue (worker w s).2 = rest /\
    (forall other, other ≠ job_id -> jobs (worker w s).2 !! other = jobs s !! other) /\
    is_Some (jobs (worker w s).2 !! job_id) /\
    match (run_job w (kind j) job_id (set_job_queue rest s)).1 with
    | Ret _ => (worker w s).2 = (run_job w (kind j) job_id (set_job_queue rest s)).2
    | Raise e =>
        exists j',
          jobs (run_job w (kind j) job_id (set_job_queue rest s)).2 !! job_id = Some j' /\
          jobs (worker w s).2 !! job_id = Some (with_error e (with_status Error j'))
    end.

(** A kind outside [kinds] gets the unknown-kind error recorded. *)
Definition unknown_kind_contract (run_job : world -> string -> nat -> M unit)
    (kinds : list string) : Prop :=
  forall (w : world) (s : state) (job_id : nat) (kind : string) (j : job job_meta),
    kind ∉ kinds ->
    jobs s !! job_id = Some j ->
    (run_job w kind job_id s).1 = Ret tt /\
    jobs (run_job w kind job_id s).2 !! job_id
    = Some (with_error ("unknown job kind: " ++ kind) (with_status Error j)).

(** The record of [job_id] is in the table and satisfies [P]. *)
Definition job_has (job_id : nat) (P : job job_meta -> Prop) (s : state) : Prop :=
  exists j, jobs s !! job_id = Some j /\ P j.

(** A finished job has progress 100. *)
Definition finished_at_100 (j : job job_meta) : Prop :=
  status j = Finished -> progress j = 100%Q.

Definition is_present (job_id : nat) : state -> Prop :=
  job_has job_id (fun _ => True).

Definition not_finished (job_id : nat) : state -> Prop :=
  job_has job_id (fun j => status j ≠ Finished).

Definition at_100 (job_id : nat) : state -> Prop :=
  job_has job_id (fun j => progress j = 100%Q).

Definition finished_goal (job_id : nat) : state -> Prop :=
  job_has job_id finished_at_100.

(** The invariant of the data model on one record: [result] is present
    exactly when the job is finished and [error] exactly when it failed. *)
Definition result_error_invariant (j : job job_meta) : Prop :=
  (is_Some (result j) <-> status j = Finished) /\
  (is_Some (error j) <-> status j = Error).

(** The progress values of the snapshots of [job_id] published while it was
    running, oldest first. *)
Definition running_progress (job_id : nat) (events : list event) : list Q :=
  omap (fun e =>
          match e with
          | JobUpdate (Some j) =>
              if decide (id j = job_id /\ status j = Running) then Some (progress j)
              else None
          | _ => None
          end) events.


(** Every value lies in [0, 100]. *)
Definition bounded_progress (l : list Q) : Prop :=
  Forall (fun x => 0 <= x /\ x <= 100)%Q l.


(** The running progress published so far for [job_id]. *)
Definition trace (job_id : nat) (s : state) : list Q :=
  running_progress job_id (emitted s).




(** The progress of the job is at most [c]. *)
Definition capped (job_id : nat) (c : Q) (s : state) : Prop :=
  job_has job_id (fun j => progress j <= c)%Q s.




(** Whatever was published while running, and the current progress, lie
    in [0, 100]. *)
Definition within_bounds (job_id : nat) (s : state) : Prop :=
  bounded_progress (trace job_id s) /\
  job_has job_id (fun j => id j = job_id /\ (0 <= progress j /\ progress j <= 100)%Q) s.


(** A record as [create_job] leaves it, with nothing published for it while
    running. *)
Definition just_queued (job_id : nat) (s : state) : Prop :=
  exists j, jobs s !! job_id = Some j /\ id j = job_id /\ status j = Queued /\
            progress j = 0%Q /\ trace job_id s = [].

(** The argument that follows [-t] in a command. *)
Fixpoint trim_length (cmd : list arg) : option Q :=
  match cmd with
  | Lit "-t" :: Num q :: _ => Some q
  | _ :: rest => trim_length rest
  | [] => None
  end.

(** The progress fraction as the specification words it:
    [min(1.0, elapsed / totalDurationSeconds)] for the marker of the line. *)
Definition spec_progress_fraction (line : string) (total : Q) : option Q :=
  match line_secs line with
  | Some elapsed => Some (Qmin 1 (elapsed / total))
  | None => None
  end.

(** *** Inputs of the examples *)

(** A world in which every file exists and every external step succeeds
    without output. *)
Definition quiet_world : world :=
  {| WHISPER_AVAILABLE := true; model_error := None;
     path_exists := fun _ => true; basename := fun p => p; splitext_root := fun p => p;
     uuid_hex := "0a1b2c3d"; hook_calls := []; download_error := None;
     ffprobe := fun _ => None; transcription := []; transcription_error := None;
     write_error := None; popen_error := None; stderr_lines := []; returncode := 0;
     makedirs_error := fun _ => None; copy_error := None |}.

Definition with_copy_error (e : string) (w : world) : world :=
  {| WHISPER_AVAILABLE := WHISPER_AVAILABLE w; model_error := model_error w;
     path_exists := path_exists w; basename := basename w;
     splitext_root := splitext_root w; uuid_hex := uuid_hex w;
     hook_calls := hook_calls w; download_error := download_error w;
     ffprobe := ffprobe w; transcription := transcription w;
     transcription_error := transcription_error w; write_error := write_error w;
     popen_error := popen_error w; stderr_lines := stderr_lines w;
     returncode := returncode w; makedirs_error := makedirs_error w;
     copy_error := Some e |}.


Definition with_stderr_lines (l : list string) (w : world) : world :=
  {| WHISPER_AVAILABLE := WHISPER_AVAILABLE w; model_error := model_error w;
     path_exists := path_exists w; basename := basename w;
     splitext_root := splitext_root w; uuid_hex := uuid_hex w;
     hook_calls := hook_calls w; download_error := download_error w;
     ffprobe := ffprobe w; transcription := transcription w;
     transcription_error := transcription_error w; write_error := write_error w;
     popen_error := popen_error w; stderr_lines := l;
     returncode := returncode w; makedirs_error := makedirs_error w;
     copy_error := copy_error w |}.


Definition with_returncode (rc : Z) (w : world) : world :=
  {| WHISPER_AVAILABLE := WHISPER_AVAILABLE w; model_error := model_error w;
     path_exists := path_exists w; basename := basename w;
     splitext_root := splitext_root w; uuid_hex := uuid_hex w;
     hook_calls := hook_calls w; download_error := download_error w;
     ffprobe := ffprobe w; transcription := transcription w;
     transcription_error := transcription_error w; write_error := write_error w;
     popen_error := popen_error w; stderr_lines := stderr_lines w;
     returncode := rc; makedirs_error := makedirs_error w;
     copy_error := copy_error w |}.

(** The state of a program that has just started. *)
Definition initial_state : state :=
  {| jobs := ∅; job_queue := []; emitted := []; scheduled := []; launched := [];
     killed := 0; clips_metadata := ∅; sessions := ∅; now := 0 |}.

(** Every identifier in the queue names a job. *)
Definition queue_closed (s : state) : Prop :=
  forall job_id, job_id ∈ job_queue s -> is_Some (jobs s !! job_id).

(** The record of job [0] after one submission to a fresh program and one
    turn of a worker. *)
Definition submitted_then (worker : world -> M unit) (w : world) (kind : string)
    (m : job_meta) : option (job job_meta) :=
  jobs (exec (worker w) (exec (submit kind m) initial_state)) !! 0%nat.

(** The commands launched by that turn. *)
Definition launched_by (worker : world -> M unit) (w : world) (kind : string)
    (m : job_meta) : list (list arg) :=
  launched (exec (worker w) (exec (submit kind m) initial_state)).

(** The jobs of the examples, each with the session id [s1]. *)
Definition download_meta : job_meta := MetaDownload "https://example.org/v" (Some "s1").
Definition transcribe_meta : job_meta := MetaTranscribe "v.mp4" (Some "s1").
Definition clip_meta : job_meta := MetaClip "v.mp4" 10 15 "Hi" false (Some "s1") None.
Definition merge_meta : job_meta := MetaMerge ["a.mp4"; "b.mp4"] "out" (Some "s1").

(** A world in which everything succeeds but the copy into the session
    folder. *)
Definition copy_fails : world := with_copy_error "disk full" quiet_world.

(** A template that only sets a start and a duration. *)
Definition bare_template (start duration : Q) : server_template :=
  {| t_name := None; t_start := Some start; t_duration := Some duration;
     t_output_name := None; t_resolution := None; t_flip := false; t_overlays := [];
     t_text := None; t_font_size := None |}.

Definition clip_template_meta : job_meta :=
  MetaClipTemplate "v.mp4" (bare_template 5 10) (Some "s1").

Definition template_clip_meta : job_meta :=
  MetaTemplateClip "v.mp4" 10 15
    {| a_resolution := Some "1080x1920"; a_texts := Layout.three_bottom |}
    None (Some "s1").



(** The marker line of the specification's example, and the same line
    without the fractional half second. *)
Definition example_line : string := "frame=10 time=00:01:05.50 bitrate=...".
Definition whole_second_line : string := "frame=10 time=00:01:05.00 bitrate=...".

(** A clip of 130 seconds. *)
Definition long_clip_meta : job_meta := MetaClip "v.mp4" 0 130 "Hi" false None None.

End Jobs.


(** ** Outcomes of a worker turn *)

Module Outcomes.
Import Jobs.

(** A record that no handler has concluded yet: queued or running, with
    neither a result nor an error. *)
Definition pending (j : job job_meta) : Prop :=
  (status j = Queued \/ status j = Running) /\ result j = None /\ error j = None.

(** A record as the success path of a handler leaves it. *)
Definition succeeded (j : job job_meta) : Prop :=
  status j = Finished /\ is_Some (result j) /\ error j = None /\ progress j = 100%Q.

(** A record as a failure path leaves it. *)
Definition failed (j : job job_meta) : Prop :=
  status j = Error /\ is_Some (error j).

Definition concluded (j : job job_meta) : Prop := succeeded j \/ failed j.

(** The turns of a worker, one world per turn. *)
Definition turns (worker : world -> M unit) (ws : list world) (s : state) : state :=
  foldl (fun s w => exec (worker w) s) s ws.

(** What the dispatch chain of a worker owes to its loop: run on a pending
    record, it returns with the record concluded, or raises with the record
    still in the table. *)
Definition concludes (run_job : world -> string -> nat -> M unit) : Prop :=
  forall w kind job_id s,
    job_has job_id pending s ->
    wp (run_job w kind job_id) (fun _ => job_has job_id concluded)
       (fun _ => is_present job_id) s.

(** The handler gave up on the job with the message [msg] before touching
    anything else: the record is the one it found with the status [Error]
    and the message, and nothing was launched, copied or recorded. *)
Definition rejected_with (msg : string) (job_id : nat) (j : job job_meta) (s s' : state)
  : Prop :=
  jobs s' !! job_id = Some (with_error msg (with_status Error j)) /\
  launched s' = launched s /\
  sessions s' = sessions s /\
  clips_metadata s' = clips_metadata s.

(** The transcoder was launched once, exited with the code [rc] and was
    killed; the job ended in error with the message of the handler and the
    result it had before. *)
Definition reported_failure (rc : Z) (job_id : nat) (j : job job_meta) (s s' : state)
  : Prop :=
  job_has job_id
    (fun j' => status j' = Error /\
               error j' = Some ("ffmpeg failed with code " ++ pretty rc) /\
               result j' = result j) s' /\
  killed s' = S (killed s) /\
  length (launched s') = S (length (launched s)).

(** What the launch and the read loop of a transcoding handler leave
    alone: the result of the job, the count of killed processes and the
    commands launched. *)
Definition untouched (job_id : nat) (j : job job_meta) (k : nat) (cmds : list (list arg))
    (s : state) : Prop :=
  job_has job_id (fun j' => result j' = result j) s /\
  killed s = k /\ launched s = cmds.



(** A world in which no file exists. *)
Definition no_files : world :=
  {| WHISPER_AVAILABLE := true; model_error := None;
     path_exists := fun _ => false; basename := fun p => p; splitext_root := fun p => p;
     uuid_hex := "0a1b2c3d"; hook_calls := []; download_error := None;
     ffprobe := fun _ => None; transcription := []; transcription_error := None;
     write_error := None; popen_error := None; stderr_lines := []; returncode := 0;
     makedirs_error := fun _ => None; copy_error := None |}.

(** A job with a text, as [app.do_clip] needs it to build its command. *)
Definition some_clip : job job_meta :=
  {| id := 0; kind := "clip"; meta := clip_meta; status := Queued; progress := 0;
     created_at := 0; updated_at := 1; result := None; error := None |}.

(** Two submissions to a fresh program. *)
Definition two_submitted : state :=
  exec (submit "clip" clip_meta) (exec (submit "download" download_meta) initial_state).

End Outcomes.

(** ** Time markers, by their fields *)

Module Markers.


(** [HH:MM:SS.ff], from its four fields. *)
Definition timestamp (h m sec fr : string) : string :=
  h ++ ":" ++ m ++ ":" ++ sec ++ "." ++ fr.


(** The number of occurrences of a character. *)
Fixpoint count_char (c : ascii) (s : string) : nat :=
  match s with
  | EmptyString => 0
  | String a rest => (if Ascii.eqb a c then 1 else 0) + count_char c rest
  end.


End Markers.

(** ** The connection manager of [static/app.py] ([ConnectionManager]) *)

Module Sockets.

Section Manager.

(** The type of the messages; sockets are named by numbers. *)
Variable Msg : Type.

(** [self.active], with what the sockets have been sent and which of them
    the manager has closed. *)
Record manager := {
  active : list nat;
  sent : list (nat * Msg);
  closed : list nat
}.

(** [connect]: [await ws.accept()], which raises ([None]) when the
    handshake fails, then [self.active.append(ws)]. *)
Definition connect (accepted : bool) (ws : nat) (m : manager) : option manager :=
  if accepted then
    Some {| active := active m ++ [ws]; sent := sent m; closed := closed m |}
  else None.

(** [l.remove(x)] on a list that holds [x]: the first occurrence goes. *)
Fixpoint remove_first (x : nat) (l : list nat) : list nat :=
  match l with
  | [] => []
  | y :: rest => if decide (y = x) then rest else y :: remove_first x rest
  end.

(** [disconnect]: [if ws in self.active: self.active.remove(ws)] *)
Definition disconnect (ws : nat) (m : manager) : manager :=
  if decide (ws ∈ active m) then
    {| active := remove_first ws (active m); sent := sent m; closed := closed m |}
  else m.

(** The loop of [broadcast] over the snapshot [list(self.active)].  Each
    turn awaits [ws.send_json], which succeeds on the sockets that are
    [alive] and raises on the others, which are then closed; while the
    coroutine is suspended in the [k]-th turn, the other coroutines change
    [self.active] by [meanwhile k]. *)
Fixpoint send_all (alive : nat -> bool) (meanwhile : nat -> list nat -> list nat)
    (message : Msg) (k : nat) (snapshot living : list nat) (m : manager)
  : list nat * manager :=
  match snapshot with
  | [] => (living, m)
  | ws :: rest =>
      if alive ws then
        send_all alive meanwhile message (S k) rest (living ++ [ws])
          {| active := meanwhile k (active m); sent := sent m ++ [(ws, message)];
             closed := closed m |}
      else
        send_all alive meanwhile message (S k) rest living
          {| active := meanwhile k (active m); sent := sent m;
             closed := closed m ++ [ws] |}
  end.

(** [broadcast]: the loop, then [self.active = living]. *)
Definition broadcast (alive : nat -> bool) (meanwhile : nat -> list nat -> list nat)
    (message : Msg) (m : manager) : manager :=
  let '(living, m') := send_all alive meanwhile message 0 (active m) [] m in
  {| active := living; sent := sent m'; closed := closed m' |}.

End Manager.

Arguments active {Msg} _.
Arguments sent {Msg} _.
Arguments closed {Msg} _.
Arguments connect {Msg} _ _ _.
Arguments disconnect {Msg} _ _.
Arguments send_all {Msg} _ _ _ _ _ _ _.
Arguments broadcast {Msg} _ _ _ _.

(** Two sockets, the second of which has gone away, and a third one that
    connects during the first turn of a broadcast. *)
Definition two_sockets : manager string := {| active := [1; 2]; sent := []; closed := [] |}.
Definition first_alive (ws : nat) : bool := bool_decide (ws = 1 \/ ws = 3).
Definition third_arrives (k : nat) (l : list nat) : list nat :=
  if decide (k = 0) then l ++ [3] else l.

End Sockets.

(** ** The list of fonts ([server.get_system_fonts]) *)

Module Fonts.






(** The file system, as [os.path.exists] and [os.walk] show it: [walk d]
    lists every directory under [d] with the names of its files. *)
Record disk := {
  path_exists : string -> bool;
  walk : string -> list (string * list string)
}.

(** An entry of the list. *)
Record font := {
  font_name : string;
  font_file : string;
  font_path : string
}.




(** The order of [sorted(..., key=lambda x: x['name'])]: strings compare
    character by character. *)
Definition name_le (f g : font) : Prop := String.leb (font_name f) (font_name g) = true.

#[global] Instance name_le_dec : RelDecision name_le.
Proof. intros f g. unfold name_le. apply _. Defined.



End Fonts.

(** ** Serving and listing clips ([server.py]) *)

Module Routes.
Import Jobs.

(** [s.split(sep, 1)]: at most one cut, at the first separator. *)
Fixpoint split_once (sep : ascii) (s : string) : list string :=
  match s with
  | EmptyString => [EmptyString]
  | String c rest =>
      if Ascii.eqb c sep then [EmptyString; rest]
      else
        match split_once sep rest with
        | w :: ws => String c w :: ws
        | [] => [String c EmptyString]
        end
  end.

(** [get_clip_file]: the directory and the file name handed to
    [send_from_directory], which serves the file of that name under that
    directory. *)
Definition get_clip_file (filepath : string) : string * string :=
  match split_once "/" filepath with
  | [folder; filename] => (path_join "clips" folder, filename)
  | _ => ("clips", filepath)
  end.

(** The guard of the second loop of [get_clips_for_video], over the clips
    recorded by their bare name:
    [metadata.get("source_video") == video_filename and
     not clip_filename.startswith(f"{video_name}/")]. *)
Definition is_legacy (splitext_root : string -> string) (video_filename : string)
    (clip_filename : string) (metadata : clip_record) : bool :=
  bool_decide (source_video metadata = video_filename) &&
  negb (String.prefix (splitext_root video_filename ++ "/") clip_filename).

(** The entries that this loop lists. *)
Definition legacy_clips (splitext_root : string -> string) (video_filename : string)
    (metadata : gmap string clip_record) : list (string * clip_record) :=
  base.filter (fun kv => is_legacy splitext_root video_filename kv.1 kv.2 = true)
    (map_to_list metadata).

(** Every clip is recorded under the folder of its source video. *)
Definition foldered (splitext_root : string -> string) (s : state) : Prop :=
  forall key r,
    clips_metadata s !! key = Some r ->
    String.prefix (splitext_root (source_video r) ++ "/") key = true.

(** The states that the program reaches from its start by submissions and
    turns of the workers, on a system whose [os.path.splitext] is
    [splitext_root]. *)
Inductive reachable (root : string -> string) : state -> Prop :=
| reach_start : reachable root initial_state
| reach_submit s kind m :
    reachable root s -> reachable root (exec (submit kind m) s)
| reach_server s w :
    splitext_root w = root ->
    reachable root s -> reachable root (exec (Server.job_worker w) s)
| reach_app s w :
    splitext_root w = root ->
    reachable root s -> reachable root (exec (App.worker_loop w) s).

End Routes.

(** ** [static/utils/video_tools.py]: merging and rendering *)

Module Tools.
Import Jobs.

(** The paths of the files and of the directories that exist. *)
Record disk := {
  files : gset string;
  dirs : gset string
}.

(** What a call receives from outside the program. *)
Inductive cp_outcome := CpCopied | CpFailed | CpMissing.

Record env := {
  now : nat;                       (* [int(time.time())] *)
  ffmpeg_returncode : Z;           (* the exit code of the transcoder *)
  makedirs_error : option string;  (* the error of [os.makedirs], if any *)
  copy_error : option string;      (* the error of [shutil.copy], if any *)
  cp : cp_outcome                  (* how the [cp] command goes *)
}.

(** [os.path.exists] *)
Definition path_exists (d : disk) (p : string) : bool :=
  bool_decide (p ∈ files d \/ p ∈ dirs d).

Definition add_file (p : string) (d : disk) : disk :=
  {| files := {[p]} ∪ files d; dirs := dirs d |}.

Definition remove_file (p : string) (d : disk) : disk :=
  {| files := files d ∖ {[p]}; dirs := dirs d |}.

Definition add_dir (p : string) (d : disk) : disk :=
  {| files := files d; dirs := {[p]} ∪ dirs d |}.

(** [uuid_name]: the characters outside letters, digits, [-] and [_]
    become [_], and the time is appended. *)
Definition uuid_name (e : env) (s : string) : string :=
  sanitize s ++ "_" ++ pretty (now e).

(** ["".join(c if c.isalnum() or c in "-_." else "_" for c in output_name)],
    on ASCII *)
Fixpoint safe_name (s : string) : string :=
  match s with
  | EmptyString => EmptyString
  | String c rest =>
      String (if is_alnum c || Ascii.eqb c "-" || Ascii.eqb c "_" || Ascii.eqb c "."
              then c else "_"%char)
             (safe_name rest)
  end.

(** An argument of a command: a string, or [str(x)] for a float [x]. *)
Inductive word :=
| Str (s : string)
| Float (q : Q).

(** The outcome of a call, the disk it leaves and the commands it ran. *)
Record run := {
  outcome_of : outcome string;
  disk_after : disk;
  commands : list (list word)
}.

(** *** [merge_clips] *)

(** The loop that writes the list file raises on the first clip that is
    not there: its full path. *)
Fixpoint first_missing (d : disk) (clips : list string) : option string :=
  match clips with
  | [] => None
  | c :: rest =>
      let full := path_join CLIPS_DIR c in
      if path_exists d full then first_missing d rest else Some full
  end.

Definition list_file_of (e : env) (output_name : string) : string :=
  path_join CLIPS_DIR ("merge_" ++ uuid_name e output_name ++ ".txt").

Definition concat_command (list_file output_path : string) : list word :=
  [Str "ffmpeg"; Str "-y"; Str "-f"; Str "concat"; Str "-safe"; Str "0";
   Str "-i"; Str list_file; Str "-c"; Str "copy"; Str output_path].

(** [_make_session_folder] *)
Definition make_session_folder (e : env) (session_id : string) (d : disk)
  : outcome string * disk :=
  let folder := path_join SESSIONS_DIR session_id in
  match makedirs_error e with
  | Some err => (Raise err, d)
  | None => (Ret folder, add_dir folder d)
  end.

(** [merge_clips].  The transcoder leaves its output when it exits with 0;
    the list file is removed by the last statements, which an exception
    skips. *)
Definition merge_clips (e : env) (clips : list string) (output_name : string)
    (session_id : option string) (d : disk) : run :=
  let list_file := list_file_of e output_name in
  let d := add_file list_file d in
  match first_missing d clips with
  | Some full =>
      {| outcome_of := Raise ("Clip not found: " ++ full); disk_after := d; commands := [] |}
  | None =>
      let final := output_name in
      let output_path := path_join CLIPS_DIR final in
      let cmd := concat_command list_file output_path in
      if negb (Z.eqb (ffmpeg_returncode e) 0) then
        {| outcome_of := Raise "CalledProcessError"; disk_after := d; commands := [cmd] |}
      else
        let d := add_file output_path d in
        let copied :=
          if truthy_str session_id then
            match make_session_folder e (default "" session_id) d with
            | (Raise err, d) => (Raise err, d)
            | (Ret session_folder, d) =>
                (* [try: shutil.copy(...) except Exception: pass] *)
                match copy_error e with
                | Some _ => (Ret tt, d)
                | None => (Ret tt, add_file (path_join session_folder final) d)
                end
            end
          else (Ret tt, d) in
        match copied with
        | (Raise err, d) =>
            {| outcome_of := Raise err; disk_after := d; commands := [cmd] |}
        | (Ret _, d) =>
            (* [try: os.remove(list_file) except Exception: pass] *)
            {| outcome_of := Ret final; disk_after := remove_file list_file d;
               commands := [cmd] |}
        end
  end.

(** *** [render_template_clip] *)

(** One entry of [template["texts"]], by its keys; [None] is an absent
    key. *)
Record overlay_text := {
  text : option string;
  fontcolor : option string;
  fontsize : option Z;
  x : option string;
  y : option string;
  fontfile : option string;
  box : bool;
  boxcolor : option string;
  boxborder : option Z
}.

Record template := {
  resolution : option string;
  texts : list overlay_text
}.

(** The [drawtext] filter of one entry. *)
Definition draw (txt : overlay_text) : string :=
  let escaped_text := replace "'" "\'" (default "" (text txt)) in
  "drawtext=" ++
  "text='" ++ escaped_text ++ "':" ++
  "fontcolor=" ++ default "white" (fontcolor txt) ++ ":" ++
  "fontsize=" ++ pretty (default 48%Z (fontsize txt)) ++ ":" ++
  "x=" ++ default "(w-text_w)/2" (x txt) ++ ":" ++
  "y=" ++ default "h-150" (y txt) ++
  (if truthy_str (fontfile txt) then ":fontfile=" ++ default "" (fontfile txt) else "") ++
  (if box txt then
     ":box=1:boxcolor=" ++ default "black@0.5" (boxcolor txt) ++
     ":boxborderw=" ++ pretty (default 5%Z (boxborder txt))
   else "").

(** [w, h = template["resolution"].split("x")] and the scale filter, under
    their [try]. *)
Definition scale (t : template) : list string :=
  if truthy_str (resolution t) then
    match split_on "x" (default "" (resolution t)) with
    | [w; h] => ["scale=" ++ w ++ ":" ++ h]
    | _ => []
    end
  else [].

Definition vf_filters (t : template) : list string :=
  (scale t ++ map draw (texts t))%list.

Definition render_command (input_path : string) (start end_ : Q) (filters : list string)
    (output_path : string) : list word :=
  ([Str "ffmpeg"; Str "-y"; Str "-ss"; Float start; Str "-i"; Str input_path;
    Str "-t"; Float (end_ - start)] ++
   (match filters with
    | [] => []
    | _ :: _ => [Str "-vf"; Str (String.concat "," filters)]
    end) ++
   [Str "-c:v"; Str "libx264"; Str "-c:a"; Str "aac"; Str output_path])%list.

(** The copy of the clip into the session folder: the [cp] command, whose
    exit code is not checked, and [shutil.copy] when the command cannot be
    run. *)
Definition copy_clip (e : env) (src dst : string) (d : disk) : outcome unit * disk :=
  match cp e with
  | CpCopied => (Ret tt, add_file dst d)
  | CpFailed => (Ret tt, d)
  | CpMissing =>
      match copy_error e with
      | Some err => (Raise err, d)
      | None => (Ret tt, add_file dst d)
      end
  end.

Definition render_template_clip (e : env) (input_file : string) (start end_ : Q)
    (t : template) (output_name : string) (session_id : option string) (d : disk) : run :=
  let input_path := path_join DOWNLOADS_DIR input_file in
  if negb (path_exists d input_path) then
    {| outcome_of := Raise ("Input file not found: " ++ input_path); disk_after := d;
       commands := [] |}
  else
    let made :=
      if truthy_str session_id
      then
        match make_session_folder e (default "" session_id) d with
        | (Raise err, d) => (Raise err, d)
        | (Ret folder, d) => (Ret (Some folder), d)
        end
      else (Ret None, d) in
    match made with
    | (Raise err, d) => {| outcome_of := Raise err; disk_after := d; commands := [] |}
    | (Ret session_folder, d) =>
        let output_file := safe_name output_name ++ ".mp4" in
        let output_path := path_join CLIPS_DIR output_file in
        let cmd := render_command input_path start end_ (vf_filters t) output_path in
        if negb (Z.eqb (ffmpeg_returncode e) 0) then
          {| outcome_of := Raise "CalledProcessError"; disk_after := d; commands := [cmd] |}
        else
          let d := add_file output_path d in
          match session_folder with
          | Some folder =>
              match copy_clip e output_path (path_join folder output_file) d with
              | (Raise err, d) =>
                  {| outcome_of := Raise err; disk_after := d; commands := [cmd] |}
              | (Ret _, d) =>
                  {| outcome_of := Ret output_file; disk_after := d; commands := [cmd] |}
              end
          | None => {| outcome_of := Ret output_file; disk_after := d; commands := [cmd] |}
          end
    end.

(** The argument that follows [-t] in a command. *)
Fixpoint trim_of (cmd : list word) : option Q :=
  match cmd with
  | Str "-t" :: Float q :: _ => Some q
  | _ :: rest => trim_of rest
  | [] => None
  end.

(** A disk with two clips, and an environment in which everything goes
    well but the copy. *)
Definition two_clips : disk :=
  {| files := {["clips/a.mp4"; "clips/b.mp4"; "downloads/v.mp4"]}; dirs := {["clips"]} |}.

Definition fine (rc : Z) : env :=
  {| now := 7; ffmpeg_returncode := rc; makedirs_error := None;
     copy_error := Some "disk full"; cp := CpFailed |}.

End Tools.

(** ** Template submissions ([create_template] then [api_clip_with_template]) *)

Module Submissions.
Import Templates.

(** The six overrides of a request, in the order in which
    [api_clip_with_template] applies them. *)
Definition customs (req : clip_template_request) : list json :=
  [custom_overlays req; custom_start req; custom_duration req;
   custom_output_name req; custom_resolution req; custom_flip req].

(** [custom is None] *)
Definition is_null (j : json) : bool :=
  match j with JNull => true | _ => false end.

Definition is_none (v : value) : bool :=
  match v with VNone => true | _ => false end.

(** A request for the template [name] that overrides nothing. *)
Definition plain_request (name : string) : clip_template_request :=
  {| req_filename := Some "v.mp4"; req_template_name := Some name;
     custom_overlays := JNull; custom_start := JNull; custom_duration := JNull;
     custom_output_name := JNull; custom_resolution := JNull; custom_flip := JNull;
     req_session_id := None |}.

Definition empty_store : state :=
  {| heap := ∅; templates := ∅; jobs := ∅; job_queue := []; job_updates := [];
     now := 0 |}.

End Submissions.

(** * Theorems *)

Import Jobs.

Section MonadFacts.
Import Jobs.

Lemma wp_bind {A B} (m : M A) (k : A -> M B) Q E s :
  wp m (fun a s' => wp (k a) Q E s') E s -> wp (m ≫= k) Q E s.
Proof.
  unfold wp, mbind, M_bind. destruct (m s) as [[a|e] s']; done.
Qed.

Lemma wp_ret {A} (a : A) (Q : A -> state -> Prop) E s : Q a s -> wp (mret a) Q E s.
Proof. done. Qed.

Lemma wp_raise {A} e (Q : A -> state -> Prop) (E : string -> state -> Prop) s :
  E e s -> wp (raise e) Q E s.
Proof. done. Qed.

Lemma wp_mono {A} (m : M A) (Q Q' : A -> state -> Prop) (E E' : string -> state -> Prop) s :
  (forall a s', Q a s' -> Q' a s') -> (forall e s', E e s' -> E' e s') ->
  wp m Q E s -> wp m Q' E' s.
Proof. unfold wp. destruct (m s) as [[a|e] s']; auto. Qed.

Lemma wp_try_except {A} (body : M A) handler Q E s :
  wp body Q (fun e s' => wp (handler e) Q E s') s -> wp (try_except body handler) Q E s.
Proof. unfold wp, try_except. destruct (body s) as [[a|e] s']; done. Qed.

Lemma wp_try_finally {A} (body : M A) Q E s :
  wp body Q E s -> wp (try_finally body (mret tt)) Q E s.
Proof. unfold wp, try_finally. destruct (body s) as [[a|e] s']; done. Qed.

Lemma wp_for_each {A} (I : state -> Prop) (E : string -> state -> Prop)
    (body : A -> M unit) (l : list A) s :
  (forall x s, x ∈ l -> I s -> wp (body x) (fun _ => I) E s) ->
  I s -> wp (for_each l body) (fun _ => I) E s.
Proof.
  revert s. induction l as [|x l IH]; intros s Hbody HI; simpl; [done|].
  apply wp_bind. eapply wp_mono; [| |apply Hbody; [by left|done]]; simpl; [|done].
  intros _ s' HI'. apply IH; [|done]. intros y s'' Hy. apply Hbody. by right.
Qed.


Lemma wp_set_job job_id f (Q : unit -> state -> Prop) (E : string -> state -> Prop) s j :
  jobs s !! job_id = Some j ->
  Q tt (set_jobs (<[job_id := f j]> (jobs s)) s) ->
  wp (set_job job_id f) Q E s.
Proof. intros Hj HQ. unfold wp, set_job. by rewrite Hj. Qed.

Lemma wp_get_job job_id (Q : job job_meta -> state -> Prop) (E : string -> state -> Prop) s j :
  jobs s !! job_id = Some j -> Q j s -> wp (get_job job_id) Q E s.
Proof. intros Hj HQ. unfold wp, get_job. by rewrite Hj. Qed.

(** [keeps] is closed under the constructions of the handlers. *)
Lemma keeps_bind {A B} I (m : M A) (k : A -> M B) :
  keeps I m -> (forall a, keeps I (k a)) -> keeps I (m ≫= k).
Proof.
  intros Hm Hk s HI. specialize (Hm s HI). unfold mbind, M_bind.
  destruct (m s) as [[a|e] s'] eqn:Hms; simpl in *; [by apply Hk | done].
Qed.

Lemma keeps_ret {A} I (a : A) : keeps I (mret a).
Proof. by intros s. Qed.

Lemma keeps_raise {A} I e : keeps I (raise (A := A) e).
Proof. by intros s. Qed.

Lemma keeps_try_except {A} I (body : M A) handler :
  keeps I body -> (forall e, keeps I (handler e)) -> keeps I (try_except body handler).
Proof.
  intros Hb Hh s HI. specialize (Hb s HI). unfold try_except.
  destruct (body s) as [[a|e] s']; simpl in *; [done | by apply Hh].
Qed.

Lemma keeps_try_finally {A} I (body : M A) cleanup :
  keeps I body -> keeps I cleanup -> keeps I (try_finally body cleanup).
Proof.
  intros Hb Hc s HI. specialize (Hb s HI). unfold try_finally.
  destruct (body s) as [r s']. simpl in *. specialize (Hc s' Hb).
  by destruct (cleanup s') as [[a|e] s''].
Qed.

Lemma keeps_when I b m : keeps I m -> keeps I (when b m).
Proof. intros H. destruct b; [done | apply keeps_ret]. Qed.

Lemma keeps_for_each {A} I (l : list A) body :
  (forall x, keeps I (body x)) -> keeps I (for_each l body).
Proof.
  intros Hb. induction l as [|x l IH]; simpl; [apply keeps_ret|].
  apply keeps_bind; [apply Hb | done].
Qed.

Lemma keeps_fold_m {A B} I (body : B -> A -> M B) acc (l : list A) :
  (forall acc x, keeps I (body acc x)) -> keeps I (fold_m body acc l).
Proof.
  intros Hb. revert acc. induction l as [|x l IH]; intros acc; simpl; [apply keeps_ret|].
  apply keeps_bind; [apply Hb | done].
Qed.

Lemma keeps_raise_if I e : keeps I (raise_if e).
Proof. destruct e; [apply keeps_raise | apply keeps_ret]. Qed.

End MonadFacts.

Section FrameFacts.
Import Jobs.

Variables (job_id : nat) (s0 : state).

(** An operation that leaves the job table and the queue alone. *)
Lemma keeps_only_job_silent {A} (m : M A) :
  (forall s, jobs (m s).2 = jobs s /\ job_queue (m s).2 = job_queue s) ->
  keeps (only_job job_id s0) m.
Proof.
  intros Hm s (Ho & Hj & Hq). destruct (Hm s) as [Hjobs Hqueue].
  unfold only_job. rewrite Hjobs, Hqueue. done.
Qed.

Lemma keeps_set_job f : keeps (only_job job_id s0) (set_job job_id f).
Proof.
  intros s (Ho & Hj & Hq). unfold set_job.
  destruct (jobs s !! job_id) as [j|] eqn:E; unfold only_job; simpl; [|done].
  split; [|split; [|done]].
  - intros other Hne. rewrite lookup_insert_ne by done. by apply Ho.
  - rewrite lookup_insert_eq. eauto.
Qed.

Lemma keeps_get_job : keeps (only_job job_id s0) (get_job job_id).
Proof.
  apply keeps_only_job_silent. intros s. unfold get_job. by destruct (jobs s !! job_id).
Qed.

Lemma keeps_emit e : keeps (only_job job_id s0) (emit e).
Proof. by apply keeps_only_job_silent. Qed.

Lemma keeps_create_task e : keeps (only_job job_id s0) (create_task e).
Proof. by apply keeps_only_job_silent. Qed.

Lemma keeps_push_job_update : keeps (only_job job_id s0) (push_job_update job_id).
Proof. by apply keeps_only_job_silent. Qed.

Lemma keeps_time_time : keeps (only_job job_id s0) time_time.
Proof. by apply keeps_only_job_silent. Qed.

Lemma keeps_popen w cmd : keeps (only_job job_id s0) (popen w cmd).
Proof.
  apply keeps_only_job_silent. intros s. unfold popen. by destruct (popen_error w).
Qed.

Lemma keeps_kill : keeps (only_job job_id s0) kill.
Proof. by apply keeps_only_job_silent. Qed.

Lemma keeps_ensure_session sid : keeps (only_job job_id s0) (ensure_session sid).
Proof.
  apply keeps_only_job_silent. intros s. unfold ensure_session.
  by destruct (sessions s !! sid).
Qed.

Lemma keeps_add_session_file sid name :
  keeps (only_job job_id s0) (add_session_file sid name).
Proof. by apply keeps_only_job_silent. Qed.

Lemma keeps_set_clip_metadata key r : keeps (only_job job_id s0) (set_clip_metadata key r).
Proof. by apply keeps_only_job_silent. Qed.

Lemma keeps_py_div a b : keeps (only_job job_id s0) (py_div a b).
Proof. unfold py_div. destruct (Qeq_bool b 0); [apply keeps_raise | apply keeps_ret]. Qed.

End FrameFacts.

(** Decomposes a handler into its primitive operations, which [prim]
    solves. *)
Ltac keeps_with prim :=
  repeat first
    [ apply keeps_bind | apply keeps_ret | apply keeps_raise | apply keeps_try_except
    | apply keeps_try_finally | apply keeps_when | apply keeps_for_each
    | apply keeps_fold_m | apply keeps_raise_if
    | match goal with
      | |- forall _, _ => intro
      | |- Jobs.keeps _ (match ?x with _ => _ end) => destruct x
      end
    | prim ].

Ltac only_job_prim :=
  idtac;
  first
    [ apply keeps_set_job | apply keeps_get_job | apply keeps_emit
    | apply keeps_create_task | apply keeps_push_job_update | apply keeps_time_time
    | apply keeps_popen | apply keeps_kill | apply keeps_ensure_session
    | apply keeps_add_session_file | apply keeps_set_clip_metadata | apply keeps_py_div ].

Ltac keeps_handler := keeps_with only_job_prim.

(** A primitive that does not write the field an invariant reads. *)
Ltac silent_prim :=
  idtac;
  lazymatch goal with
  | |- Jobs.keeps _ _ =>
      let s := fresh "s" in
      let H := fresh "H" in
      intros s H;
      cbv [Jobs.set_job Jobs.get_job Jobs.emit Jobs.create_task Jobs.push_job_update
           Jobs.time_time Jobs.kill Jobs.ensure_session Jobs.add_session_file
           Jobs.set_clip_metadata Jobs.py_div Jobs.raise Jobs.popen];
      repeat case_match; simpl; exact H
  end.

Section HandlerFrames.
Import Jobs.

Variables (w : world) (job_id : nat) (s0 : state).

Lemma keeps_fail msg : keeps (only_job job_id s0) (fail job_id msg).
Proof. unfold fail. keeps_handler. Qed.

Lemma keeps_server_do_download : keeps (only_job job_id s0) (Server.do_download w job_id).
Proof.
  unfold Server.do_download, Server.progress_hook, Server.copy_into_session, get_meta, fail,
    make_session_folder, copy_to_session, makedirs.
  keeps_handler.
Qed.

Lemma keeps_server_do_clip : keeps (only_job job_id s0) (Server.do_clip w job_id).
Proof.
  unfold Server.do_clip, Server.read_line, Server.wait_process, Server.copy_into_session,
    get_meta, fail, make_session_folder, copy_to_session, makedirs.
  keeps_handler.
Qed.

Lemma keeps_server_do_clip_with_template :
  keeps (only_job job_id s0) (Server.do_clip_with_template w job_id).
Proof.
  unfold Server.do_clip_with_template, Server.read_line, Server.wait_process,
    Server.copy_into_session, get_meta, fail, make_session_folder, copy_to_session,
    makedirs.
  keeps_handler.
Qed.

Lemma keeps_server_do_transcribe :
  keeps (only_job job_id s0) (Server.do_transcribe w job_id).
Proof.
  unfold Server.do_transcribe, Server.transcribe_item, Server.transcribe_segment,
    Server.copy_into_session, get_meta, fail, make_session_folder, copy_to_session,
    makedirs.
  keeps_handler.
Qed.

Lemma keeps_server_run_job kind :
  keeps (only_job job_id s0) (Server.run_job w kind job_id).
Proof.
  unfold Server.run_job.
  repeat match goal with |- keeps _ (if ?b then _ else _) => destruct b end;
    auto using keeps_server_do_download, keeps_server_do_transcribe, keeps_server_do_clip,
      keeps_server_do_clip_with_template, keeps_fail.
Qed.

Lemma keeps_app_do_download : keeps (only_job job_id s0) (App.do_download w job_id).
Proof.
  unfold App.do_download, App.progress_hook, App.fail_touch, App.touch, get_meta,
    make_session_folder, copy_to_session, makedirs.
  keeps_handler.
Qed.

Lemma keeps_app_do_transcribe : keeps (only_job job_id s0) (App.do_transcribe w job_id).
Proof.
  unfold App.do_transcribe, App.transcribe_item, App.transcribe_segment,
    App.copy_into_session, App.fail_touch, App.touch, get_meta, fail,
    make_session_folder, copy_to_session, makedirs.
  keeps_handler.
Qed.

Lemma keeps_app_do_clip : keeps (only_job job_id s0) (App.do_clip w job_id).
Proof.
  unfold App.do_clip, App.read_line, App.percent_of, App.finish, Server.wait_process,
    App.copy_into_session, App.fail_touch, App.touch, get_meta, fail,
    make_session_folder, copy_to_session, makedirs.
  keeps_handler.
Qed.

Lemma keeps_app_do_template_clip :
  keeps (only_job job_id s0) (App.do_template_clip w job_id).
Proof.
  unfold App.do_template_clip, App.read_line, App.percent_of, App.finish,
    Server.wait_process, App.copy_into_session, App.fail_touch, App.touch, get_meta,
    fail, make_session_folder, copy_to_session, makedirs.
  keeps_handler.
Qed.

Lemma keeps_app_do_merge : keeps (only_job job_id s0) (App.do_merge w job_id).
Proof.
  unfold App.do_merge, App.read_line, App.merge_percent, App.finish,
    Server.wait_process, App.copy_into_session, App.fail_touch, App.touch, get_meta,
    fail, make_session_folder, copy_to_session, makedirs.
  keeps_handler.
Qed.

Lemma keeps_app_run_job kind : keeps (only_job job_id s0) (App.run_job w kind job_id).
Proof.
  unfold App.run_job.
  repeat match goal with |- keeps _ (if ?b then _ else _) => destruct b end;
    auto using keeps_app_do_download, keeps_app_do_transcribe, keeps_app_do_clip,
      keeps_app_do_template_clip, keeps_app_do_merge, keeps_fail.
Qed.

End HandlerFrames.

Section WorkerFacts.
Import Jobs.

Lemma fail_run job_id e s j :
  jobs s !! job_id = Some j ->
  (fail job_id e s).1 = Ret tt /\
  jobs (fail job_id e s).2 = <[job_id := with_error e (with_status Error j)]> (jobs s) /\
  job_queue (fail job_id e s).2 = job_queue s.
Proof.
  intros Hj. unfold fail, mbind, M_bind, set_job, push_job_update.
  rewrite Hj. simpl. rewrite lookup_insert_eq. simpl.
  by rewrite insert_insert_eq.
Qed.

Lemma only_job_refl job_id s j : jobs s !! job_id = Some j -> only_job job_id s s.
Proof. intros Hj. split; [done|]. split; [eauto | done]. Qed.

Lemma server_job_worker_contract : worker_contract Server.job_worker Server.run_job.
Proof.
  intros w s job_id rest j Hq Hj.
  pose proof (keeps_server_run_job w job_id (set_job_queue rest s) (kind j)
                (set_job_queue rest s) (only_job_refl job_id (set_job_queue rest s) j Hj)) as Hkeep.
  unfold Server.job_worker, try_except, try_finally, task_done, mbind, M_bind,
    queue_get, lookup_job.
  rewrite Hq. simpl. rewrite Hj.
  destruct (Server.run_job w (kind j) job_id (set_job_queue rest s)) as [[[]|e] s1];
    simpl in *; destruct Hkeep as (Ho & [j' Hj'] & Hqueue).
  - eauto.
  - destruct (fail_run job_id e s1 j' Hj') as (Hr & Hjobs & Hfq).
    destruct (fail job_id e s1) as [[[]|e'] s2]; simpl in *; [|done].
    split; [done|]. split; [congruence|]. split; [|split].
    + intros other Hne. rewrite Hjobs, lookup_insert_ne by done. by apply Ho.
    + rewrite Hjobs, lookup_insert_eq. eauto.
    + exists j'. split; [done|]. rewrite Hjobs. apply lookup_insert_eq.
Qed.

Lemma app_worker_loop_contract : worker_contract App.worker_loop App.run_job.
Proof.
  intros w s job_id rest j Hq Hj.
  pose proof (keeps_app_run_job w job_id (set_job_queue rest s) (kind j)
                (set_job_queue rest s) (only_job_refl job_id (set_job_queue rest s) j Hj)) as Hkeep.
  unfold App.worker_loop, try_except, try_finally, task_done, mbind, M_bind, lookup_job.
  rewrite Hq. simpl. rewrite Hj.
  destruct (App.run_job w (kind j) job_id (set_job_queue rest s)) as [[[]|e] s1];
    simpl in *; destruct Hkeep as (Ho & [j' Hj'] & Hqueue).
  - eauto.
  - destruct (fail_run job_id e s1 j' Hj') as (Hr & Hjobs & Hfq).
    destruct (fail job_id e s1) as [[[]|e'] s2]; simpl in *; [|done].
    split; [done|]. split; [congruence|]. split; [|split].
    + intros other Hne. rewrite Hjobs, lookup_insert_ne by done. by apply Ho.
    + rewrite Hjobs, lookup_insert_eq. eauto.
    + exists j'. split; [done|]. rewrite Hjobs. apply lookup_insert_eq.
Qed.

Lemma eqb_not_elem (k a : string) (l : list string) : k ∉ a :: l -> String.eqb k a = false /\ k ∉ l.
Proof.
  intros H. split.
  - apply String.eqb_neq. intros ->. apply H. by left.
  - intros Hin. apply H. by right.
Qed.

Lemma server_unknown_kind :
  unknown_kind_contract Server.run_job ["download"; "transcribe"; "clip"; "clip_template"].
Proof.
  intros w s job_id kind j Hk Hj. unfold Server.run_job.
  repeat (apply eqb_not_elem in Hk as [-> Hk]).
  destruct (fail_run job_id ("unknown job kind: " ++ kind) s j Hj) as (Hr & Hjobs & _).
  split; [done|]. rewrite Hjobs. apply lookup_insert_eq.
Qed.

Lemma app_unknown_kind :
  unknown_kind_contract App.run_job
    ["download"; "transcribe"; "clip"; "template_clip"; "merge"].
Proof.
  intros w s job_id kind j Hk Hj. unfold App.run_job.
  repeat (apply eqb_not_elem in Hk as [-> Hk]).
  destruct (fail_run job_id ("unknown job kind: " ++ kind) s j Hj) as (Hr & Hjobs & _).
  split; [done|]. rewrite Hjobs. apply lookup_insert_eq.
Qed.

(** C6. One turn of either worker on a dequeued job never raises, changes
    no other job, and hands the job to the dispatch chain, which runs the
    handler of a recognized kind and records an unknown-kind error for any
    other kind; an exception escaping the handler is caught and recorded on
    that job as status [Error] with the exception's message. *)
Theorem worker_dispatches_and_contains_failures :
  worker_contract Server.job_worker Server.run_job /\
  worker_contract App.worker_loop App.run_job /\
  (forall w job_id,
     Server.run_job w "download" job_id = Server.do_download w job_id /\
     Server.run_job w "transcribe" job_id = Server.do_transcribe w job_id /\
     Server.run_job w "clip" job_id = Server.do_clip w job_id /\
     Server.run_job w "clip_template" job_id = Server.do_clip_with_template w job_id /\
     App.run_job w "download" job_id = App.do_download w job_id /\
     App.run_job w "transcribe" job_id = App.do_transcribe w job_id /\
     App.run_job w "clip" job_id = App.do_clip w job_id /\
     App.run_job w "template_clip" job_id = App.do_template_clip w job_id /\
     App.run_job w "merge" job_id = App.do_merge w job_id) /\
  unknown_kind_contract Server.run_job ["download"; "transcribe"; "clip"; "clip_template"] /\
  unknown_kind_contract App.run_job
    ["download"; "transcribe"; "clip"; "template_clip"; "merge"].
Proof.
  split; [apply server_job_worker_contract|].
  split; [apply app_worker_loop_contract|].
  split; [by repeat split|].
  split; [apply server_unknown_kind | apply app_unknown_kind].
Qed.

Lemma worker_dispatches_witness :
  (Server.job_worker quiet_world
     (exec (submit "mystery" (MetaDownload "u" None)) initial_state)).1 = Ret tt /\
  submitted_then Server.job_worker quiet_world "mystery" (MetaDownload "u" None)
  = Some {| id := 0; kind := "mystery"; meta := MetaDownload "u" None; status := Error;
            progress := 0; created_at := 0; updated_at := 1; result := None;
            error := Some "unknown job kind: mystery" |}.
Proof.
  destruct worker_dispatches_and_contains_failures as (Hw & _ & _ & Hu & _).
  split.
  - eapply (Hw quiet_world _ 0%nat []); vm_compute; reflexivity.
  - vm_compute. reflexivity.
Defined.

(** Submission and the turns of the workers keep the queue closed, so a
    worker always finds the record of the identifier it dequeues. *)
Lemma submit_queue_closed kind m s : queue_closed s -> queue_closed (exec (submit kind m) s).
Proof.
  intros Hc job_id. unfold exec, submit, create_job. simpl.
  rewrite elem_of_app, list_elem_of_singleton. intros [Hin | ->].
  - destruct (decide (job_id = fresh (dom (jobs s)))) as [->|Hne].
    + rewrite lookup_insert_eq. eauto.
    + rewrite lookup_insert_ne by done. by apply Hc.
  - rewrite lookup_insert_eq. eauto.
Qed.

Lemma worker_queue_closed (worker : world -> M unit) run_job w s :
  worker_contract worker run_job ->
  (job_queue s = [] -> exec (worker w) s = s) ->
  queue_closed s -> queue_closed (exec (worker w) s).
Proof.
  intros Hw Hempty Hc. destruct (job_queue s) as [|job_id rest] eqn:Hq.
  - by rewrite Hempty.
  - destruct (Hc job_id) as [j Hj]; [rewrite Hq; by left|].
    destruct (Hw w s job_id rest j Hq Hj) as (_ & Hrest & Hother & Hsome & _).
    intros other Hin. unfold exec in *. rewrite Hrest in Hin.
    destruct (decide (other = job_id)) as [->|Hne]; [done|].
    rewrite Hother by done. apply Hc. rewrite Hq. by right.
Qed.

Lemma server_job_worker_queue_closed w s :
  queue_closed s -> queue_closed (exec (Server.job_worker w) s).
Proof.
  apply (worker_queue_closed _ _ _ _ server_job_worker_contract).
  intros Hq. unfold exec, Server.job_worker, try_except, mbind, M_bind, queue_get.
  by rewrite Hq.
Qed.

Lemma app_worker_loop_queue_closed w s :
  queue_closed s -> queue_closed (exec (App.worker_loop w) s).
Proof.
  apply (worker_queue_closed _ _ _ _ app_worker_loop_contract).
  intros Hq. unfold exec, App.worker_loop. by rewrite Hq.
Qed.

End WorkerFacts.

Section RangeFacts.
Import Jobs.

(** The two first statements of every handler. *)
Lemma start_running job_id s j :
  jobs s !! job_id = Some j ->
  (set_job job_id (with_status Running) ;; push_job_update job_id) s =
  (Ret tt,
   set_emitted (emitted s ++ [JobUpdate (Some (with_status Running j))])
     (set_jobs (<[job_id := with_status Running j]> (jobs s)) s)).
Proof.
  intros Hj. unfold mbind, M_bind, set_job, push_job_update. rewrite Hj. simpl.
  by rewrite lookup_insert_eq.
Qed.

Lemma bind_assoc {A B C} (m : M A) (k : A -> M B) (k' : B -> M C) s :
  ((m ≫= k) ≫= k') s = (m ≫= fun a => k a ≫= k') s.
Proof. unfold mbind, M_bind. by destruct (m s) as [[a|e] s']. Qed.

Lemma bind_run {A B} (m : M A) (k : A -> M B) s a s' :
  m s = (Ret a, s') -> (m ≫= k) s = k a s'.
Proof. intros H. unfold mbind, M_bind. by rewrite H. Qed.

Lemma fail_state job_id msg s j :
  jobs s !! job_id = Some j ->
  fail job_id msg s =
  (Ret tt,
   set_emitted (emitted s ++ [JobUpdate (Some (with_error msg (with_status Error j)))])
     (set_jobs (<[job_id := with_error msg (with_status Error j)]> (jobs s)) s)).
Proof.
  intros Hj. unfold fail, mbind, M_bind, set_job, push_job_update. rewrite Hj. simpl.
  rewrite lookup_insert_eq. simpl. rewrite lookup_insert_eq, insert_insert_eq. done.
Qed.

(** [server.do_clip] rejects an empty or reversed range before it launches
    anything. *)
Lemma server_do_clip_rejects w s job_id j filename start end_ text flip sid out :
  jobs s !! job_id = Some j ->
  meta j = MetaClip filename start end_ text flip sid out ->
  path_exists w (path_join DOWNLOADS_DIR filename) = true ->
  (end_ <= start)%Q ->
  launched (exec (Server.do_clip w job_id) s) = launched s /\
  exists j', jobs (exec (Server.do_clip w job_id) s) !! job_id = Some j' /\
             status j' = Error /\ error j' = Some "invalid start/end".
Proof.
  intros Hj Hm Hex Hle.
  assert (Hd : Qle_bool (end_ - start) 0 = true).
  { apply Qle_bool_iff. lra. }
  unfold exec, Server.do_clip, get_meta, fail, mbind, M_bind, set_job, get_job,
    push_job_update, time_time.
  rewrite Hj. simpl. rewrite lookup_insert_eq. simpl. rewrite Hm.
  destruct (truthy_str out); simpl; rewrite Hex, Hd; simpl;
    rewrite !lookup_insert_eq; simpl; rewrite !lookup_insert_eq; simpl;
    (split; [done|]); rewrite lookup_insert_eq; eauto.
Qed.

Lemma wp_keeps {A} (I : state -> Prop) (m : M A) s :
  keeps I m -> I s -> wp m (fun _ => I) (fun _ => I) s.
Proof.
  intros Hk HI. specialize (Hk s HI). unfold wp. by destruct (m s) as [[a|e] s'].
Qed.

Lemma wp_exec {A} (m : M A) (P : state -> Prop) s :
  wp m (fun _ => P) (fun _ => P) s -> P (exec m s).
Proof. unfold wp, exec. by destruct (m s) as [[a|e] s']. Qed.

(** What follows the launch in the transcoding handlers of [server.py]
    launches nothing more. *)
Lemma server_after_launch_keeps_launched w job_id duration ev (finish : M unit) L :
  keeps (fun s => launched s = L) finish ->
  keeps (fun s => launched s = L)
    (try_except
       (for_each (stderr_lines w) (Server.read_line job_id ev duration) ;;
        Server.wait_process w ;; finish)
       (fun e => kill ;; fail job_id e)).
Proof.
  intros Hf. unfold Server.read_line, Server.wait_process, fail.
  keeps_with ltac:(first [exact Hf | silent_prim]).
Qed.

Lemma server_finish_keeps_launched w job_id r key rec sid outpath L :
  keeps (fun s => launched s = L)
    (set_job job_id (with_status Finished) ;;
     set_job job_id (with_result r) ;;
     set_job job_id (with_progress 100) ;;
     created ← time_time;
     set_clip_metadata key (rec created) ;;
     Server.copy_into_session w sid outpath ;;
     push_job_update job_id).
Proof.
  unfold Server.copy_into_session, make_session_folder, copy_to_session, makedirs.
  keeps_with silent_prim.
Qed.

(** [server.do_clip] passes [end - start] as the trim length. *)
Lemma server_do_clip_trims w s job_id j filename start end_ text flip sid out :
  jobs s !! job_id = Some j ->
  meta j = MetaClip filename start end_ text flip sid out ->
  path_exists w (path_join DOWNLOADS_DIR filename) = true ->
  (start < end_)%Q ->
  makedirs_error w (path_join CLIPS_DIR (splitext_root w filename)) = None ->
  popen_error w = None ->
  exists cmd,
    launched (exec (Server.do_clip w job_id) s) = (launched s ++ [cmd])%list /\
    trim_length cmd = Some (end_ - start)%Q.
Proof.
  intros Hj Hm Hex Hlt Hmk Hp.
  assert (Hd : Qle_bool (end_ - start) 0 = false).
  { apply not_true_iff_false. rewrite Qle_bool_iff. lra. }
  apply (wp_exec _ (fun s' => exists cmd, launched s' = (launched s ++ [cmd])%list /\
                                          trim_length cmd = Some (end_ - start)%Q)).
  unfold Server.do_clip.
  apply wp_bind. eapply wp_set_job; [done|].
  apply wp_bind. unfold wp at 1. simpl.
  apply wp_bind. unfold get_meta. apply wp_bind.
  eapply wp_get_job; [simpl; apply lookup_insert_eq|]. unfold wp at 1. simpl.
  rewrite Hm, Hex, Hd. simpl.
  apply wp_bind.
  eapply (wp_mono _ (fun _ s' => launched s' = launched s) _ (fun _ _ => False)).
  2: { by intros e s' H. }
  2: { destruct (truthy_str out); unfold wp; simpl; done. }
  intros output_name s1 Hl1. simpl.
  apply wp_bind. unfold makedirs. rewrite Hmk. unfold wp at 1. simpl.
  apply wp_bind. unfold wp at 1. simpl.
  apply wp_bind. unfold wp at 1, popen. rewrite Hp. simpl.
  match goal with |- wp _ _ _ (set_launched (_ ++ [?c])%list _) =>
    eapply (wp_mono _ (fun _ s' => launched s' = (launched s ++ [c])%list)
                      _ (fun _ s' => launched s' = (launched s ++ [c])%list))
  end.
  - intros _ s' Hs'. eexists. split; [exact Hs' | reflexivity].
  - intros _ s' Hs'. eexists. split; [exact Hs' | reflexivity].
  - apply wp_keeps; [|simpl; by rewrite Hl1].
    apply server_after_launch_keeps_launched.
    apply (server_finish_keeps_launched w job_id _ _
             (fun created => {| source_video := filename; clip_start := start;
                                clip_end := end_; clip_text := text; clip_overlays := [];
                                clip_template := ""; clip_created_at := created;
                                clip_path := _ |})).
Qed.

(** [server.do_clip_with_template] has no such check: it launches the
    transcoder with the template's duration as the trim length, whatever its
    sign. *)
Lemma server_do_clip_with_template_never_validates w s job_id j filename template sid :
  jobs s !! job_id = Some j ->
  meta j = MetaClipTemplate filename template sid ->
  path_exists w (path_join DOWNLOADS_DIR filename) = true ->
  makedirs_error w (path_join CLIPS_DIR (splitext_root w filename)) = None ->
  popen_error w = None ->
  exists cmd,
    launched (exec (Server.do_clip_with_template w job_id) s) = (launched s ++ [cmd])%list /\
    trim_length cmd = Some (default 10%Q (t_duration template)).
Proof.
  intros Hj Hm Hex Hmk Hp.
  apply (wp_exec _ (fun s' => exists cmd, launched s' = (launched s ++ [cmd])%list /\
                                          trim_length cmd
                                          = Some (default 10%Q (t_duration template)))).
  unfold Server.do_clip_with_template.
  apply wp_bind. eapply wp_set_job; [done|].
  apply wp_bind. unfold wp at 1. simpl.
  apply wp_bind. unfold get_meta. apply wp_bind.
  eapply wp_get_job; [simpl; apply lookup_insert_eq|]. unfold wp at 1. simpl.
  rewrite Hm, Hex. simpl.
  apply wp_bind. unfold wp at 1. simpl.
  apply wp_bind. unfold makedirs. rewrite Hmk. unfold wp at 1. simpl.
  apply wp_bind. unfold wp at 1, popen. rewrite Hp. simpl.
  match goal with |- wp _ _ _ (set_launched (_ ++ [?c])%list _) =>
    eapply (wp_mono _ (fun _ s' => launched s' = (launched s ++ [c])%list)
                      _ (fun _ s' => launched s' = (launched s ++ [c])%list))
  end.
  - intros _ s' Hs'. eexists. split; [exact Hs' | reflexivity].
  - intros _ s' Hs'. eexists. split; [exact Hs' | reflexivity].
  - apply wp_keeps; [|done].
    apply server_after_launch_keeps_launched.
    apply (server_finish_keeps_launched w job_id _ _
             (fun created => {| source_video := filename;
                                clip_start := default 0%Q (t_start template);
                                clip_end := (default 0 (t_start template)
                                             + default 10 (t_duration template))%Q;
                                clip_text := ""; clip_overlays := t_overlays template;
                                clip_template := default "unknown" (t_name template);
                                clip_created_at := created; clip_path := _ |})).
Qed.

(** The two ranged handlers of [app.py] reject an empty or reversed range
    before they launch anything. *)
Lemma app_do_clip_rejects w s job_id j filename start end_ text flip sid out :
  jobs s !! job_id = Some j ->
  meta j = MetaClip filename start end_ text flip sid out ->
  path_exists w (path_join DOWNLOADS_DIR filename) = true ->
  (end_ <= start)%Q ->
  launched (exec (App.do_clip w job_id) s) = launched s /\
  exists j', jobs (exec (App.do_clip w job_id) s) !! job_id = Some j' /\
             status j' = Error /\ error j' = Some "invalid start/end".
Proof.
  intros Hj Hm Hex Hle.
  assert (Hd : Qle_bool (end_ - start) 0 = true).
  { apply Qle_bool_iff. lra. }
  unfold exec, App.do_clip, get_meta, fail, mbind, M_bind, set_job, get_job,
    push_job_update, time_time.
  rewrite Hj. simpl. rewrite lookup_insert_eq. simpl. rewrite Hm.
  destruct (truthy_str out); simpl; rewrite Hex, Hd; simpl;
    rewrite !lookup_insert_eq; simpl; rewrite !lookup_insert_eq; simpl;
    (split; [done|]); rewrite lookup_insert_eq; eauto.
Qed.

Lemma app_do_template_clip_rejects w s job_id j filename start end_ template out sid :
  jobs s !! job_id = Some j ->
  meta j = MetaTemplateClip filename start end_ template out sid ->
  path_exists w (path_join DOWNLOADS_DIR filename) = true ->
  (end_ <= start)%Q ->
  launched (exec (App.do_template_clip w job_id) s) = launched s /\
  exists j', jobs (exec (App.do_template_clip w job_id) s) !! job_id = Some j' /\
             status j' = Error /\ error j' = Some "invalid start/end".
Proof.
  intros Hj Hm Hex Hle.
  assert (Hd : Qle_bool (end_ - start) 0 = true).
  { apply Qle_bool_iff. lra. }
  unfold exec, App.do_template_clip, get_meta, fail, mbind, M_bind, set_job, get_job,
    push_job_update, time_time.
  rewrite Hj. simpl. rewrite lookup_insert_eq. simpl. rewrite Hm.
  destruct (truthy_str out); simpl; rewrite Hex, Hd; simpl;
    rewrite !lookup_insert_eq; simpl; rewrite !lookup_insert_eq; simpl;
    (split; [done|]); rewrite lookup_insert_eq; eauto.
Qed.

(** C2 fails on [server.do_clip_with_template]: for a template with start 5
    and duration 0 (so end = start) or duration -3 (end < start) on an
    existing input, the handler sets no validation error, launches the
    transcoder with [-t 0], respectively [-t -3], and the job finishes.
    [server.do_clip] on the range 15..10 sets the error and launches
    nothing. *)
Theorem template_clip_launches_on_empty_range :
  (status <$> submitted_then Server.job_worker quiet_world "clip_template"
                (MetaClipTemplate "v.mp4" (bare_template 5 0) None)) = Some Finished /\
  (trim_length <$> launched_by Server.job_worker quiet_world "clip_template"
                     (MetaClipTemplate "v.mp4" (bare_template 5 0) None))
  = [Some 0%Q] /\
  (status <$> submitted_then Server.job_worker quiet_world "clip_template"
                (MetaClipTemplate "v.mp4" (bare_template 5 (-3)) None)) = Some Finished /\
  (trim_length <$> launched_by Server.job_worker quiet_world "clip_template"
                     (MetaClipTemplate "v.mp4" (bare_template 5 (-3)) None))
  = [Some (-3)%Q] /\
  (error <$> submitted_then Server.job_worker quiet_world "clip"
               (MetaClip "v.mp4" 15 10 "" false None None))
  = Some (Some "invalid start/end") /\
  launched_by Server.job_worker quiet_world "clip"
    (MetaClip "v.mp4" 15 10 "" false None None) = [].
Proof. vm_compute. repeat split; reflexivity. Qed.

End RangeFacts.

Section CopyFailureFacts.
Import Jobs.

(** [app.do_download] guards the copy: once the download has succeeded the
    job finishes with its result, whether the copy fails or not. *)
Lemma app_do_download_survives_copy_failure w s job_id j url sid :
  jobs s !! job_id = Some j ->
  meta j = MetaDownload url sid ->
  download_error w = None ->
  makedirs_error w (path_join SESSIONS_DIR (default "" sid)) = None ->
  exists j',
    jobs (exec (App.do_download w job_id) s) !! job_id = Some j' /\
    status j' = Finished /\ is_Some (result j') /\ error j' = error j /\
    progress j' = 100%Q.
Proof.
  intros Hj Hm Hd Hmk.
  apply (wp_exec _ (fun s' => exists j',
                      jobs s' !! job_id = Some j' /\ status j' = Finished /\
                      is_Some (result j') /\ error j' = error j /\ progress j' = 100%Q)).
  unfold App.do_download.
  apply wp_bind. eapply wp_set_job; [done|].
  apply wp_bind. unfold wp at 1. simpl.
  apply wp_bind. unfold get_meta. apply wp_bind.
  eapply wp_get_job; [simpl; apply lookup_insert_eq|]. unfold wp at 1. simpl.
  rewrite Hm. apply wp_bind. unfold wp at 1. simpl.
  apply wp_try_except. apply wp_bind.
  eapply (wp_mono _ (fun _ s' => exists j0, jobs s' !! job_id = Some j0 /\ error j0 = error j)
                    _ (fun _ _ => False));
    [| by intros |].
  2: { apply (wp_for_each (fun s' => exists j0, jobs s' !! job_id = Some j0 /\
                                                error j0 = error j)).
       - intros d s' _ (j0 & Hj0 & He0).
         unfold App.progress_hook, wp, mbind, M_bind, set_job, get_job,
           time_time, create_task.
         destruct (hook_status d =? "downloading");
           [|destruct (hook_status d =? "finished")];
           rewrite ?Hj0; simpl; rewrite ?lookup_insert_eq; simpl;
           rewrite ?lookup_insert_eq; simpl; rewrite ?lookup_insert_eq; eauto.
       - simpl. rewrite lookup_insert_eq. eauto. }
  intros _ s1 (j1 & Hj1 & He1). simpl.
  rewrite Hd. apply wp_bind. unfold wp at 1. simpl.
  unfold App.touch, make_session_folder, makedirs, copy_to_session, when,
    wp, mbind, M_bind, set_job, time_time, try_except, push_job_update,
    ensure_session, add_session_file, raise_if.
  rewrite Hj1. simpl. rewrite !lookup_insert_eq. simpl. rewrite !lookup_insert_eq. simpl.
  rewrite !lookup_insert_eq. simpl.
  destruct (truthy_str sid); simpl.
  - rewrite Hmk. simpl.
    destruct (sessions _ !! _); simpl; destruct (copy_error w); simpl;
      rewrite lookup_insert_eq; eauto 10.
  - rewrite lookup_insert_eq; eauto 10.
Qed.

Lemma app_do_download_survives_witness :
  exists j',
    jobs (exec (App.do_download copy_fails 0)
            (exec (submit "download" download_meta) initial_state)) !! 0%nat = Some j' /\
    status j' = Finished /\ is_Some (result j') /\ error j' = None /\ progress j' = 100%Q.
Proof.
  apply (app_do_download_survives_copy_failure copy_fails _ 0%nat
           {| id := 0; kind := "download"; meta := download_meta; status := Queued;
              progress := 0; created_at := 0; updated_at := 1; result := None;
              error := None |} "https://example.org/v" (Some "s1"));
    vm_compute; reflexivity.
Defined.

(** C5 fails on every handler but [app.do_download]: with a session id, a
    successful piece of work and a copy that raises "disk full", the job
    ends with status [Error] and that message.  On the same input
    [app.do_download], which wraps the copy in [try ... except: pass], ends
    [Finished]. *)
Theorem session_copy_failure_fails_the_job :
  let outcome worker kind m :=
    (fun j => (status j, error j)) <$> submitted_then worker copy_fails kind m in
  outcome Server.job_worker "download" download_meta = Some (Error, Some "disk full") /\
  outcome Server.job_worker "transcribe" transcribe_meta = Some (Error, Some "disk full") /\
  outcome Server.job_worker "clip" clip_meta = Some (Error, Some "disk full") /\
  outcome Server.job_worker "clip_template" clip_template_meta
    = Some (Error, Some "disk full") /\
  outcome App.worker_loop "transcribe" transcribe_meta = Some (Error, Some "disk full") /\
  outcome App.worker_loop "clip" clip_meta = Some (Error, Some "disk full") /\
  outcome App.worker_loop "template_clip" template_clip_meta
    = Some (Error, Some "disk full") /\
  outcome App.worker_loop "merge" merge_meta = Some (Error, Some "disk full") /\
  outcome App.worker_loop "download" download_meta = Some (Finished, None).
Proof. vm_compute. repeat split; reflexivity. Qed.

(** C1 fails when the copy into the session folder raises after [result]
    was written: the clip job, in both variants, ends with status [Error],
    an error message and a result, against the invariant.  The same holds
    for the download, template-clip and merge handlers that write [result]
    before the copy. *)
Theorem copy_failure_leaves_result_and_error :
  let broken worker kind m :=
    exists j,
      submitted_then worker copy_fails kind m = Some j /\
      status j = Error /\ is_Some (result j) /\ error j = Some "disk full" /\
      ~ result_error_invariant j in
  broken Server.job_worker "clip" clip_meta /\
  broken App.worker_loop "clip" clip_meta /\
  broken Server.job_worker "download" download_meta /\
  broken Server.job_worker "clip_template" clip_template_meta /\
  broken App.worker_loop "template_clip" template_clip_meta /\
  broken App.worker_loop "merge" merge_meta.
Proof.
  assert (Hbreak : forall j : job job_meta,
            status j = Error -> is_Some (result j) -> ~ result_error_invariant j).
  { intros j Hs Hr [Hres _]. apply Hres in Hr. congruence. }
  simpl. repeat split; eexists;
    (split; [vm_compute; reflexivity|]);
    (split; [reflexivity|]); (split; [eauto|]); (split; [reflexivity|]);
    (apply Hbreak; [reflexivity | simpl; eauto]).
Qed.

End CopyFailureFacts.

Section MarkerFacts.
Import Jobs.

(** The progress a transcoding handler of [server.py] stores for one line:
    [round(min(100.0, (secs / duration) * 100.0), 2)]. *)
Lemma server_read_line_progress job_id ev duration line secs s j :
  jobs s !! job_id = Some j ->
  line_secs line = Some secs ->
  Qeq_bool duration 0 = false ->
  exists j',
    jobs (exec (Server.read_line job_id ev duration line) s) !! job_id = Some j' /\
    progress j' = round2 (Qmin 100 (secs / duration * 100)) /\
    status j' = status j /\ result j' = result j /\ error j' = error j.
Proof.
  intros Hj Hl Hd.
  unfold exec, Server.read_line, py_div, mbind, M_bind, set_job, get_job, time_time,
    emit, push_job_update.
  rewrite Hl, Hd. simpl. rewrite Hj.
  repeat (progress (simpl; rewrite ?lookup_insert_eq)). eauto 10.
Qed.

(** C4 (amended). The marker of the example line is 65.5 seconds, so with a
    total of 130 seconds the fraction [min(1, 65.5 / 130)] is 131/260, about
    0.5038, and a transcoding handler stores the percentage 50.38.  The
    fraction is exactly 0.5 for the marker [00:01:05.00]. *)
Theorem marker_line_progress (job_id : nat) (ev : nat -> Q -> event) (s : state)
    (j : job job_meta) :
  jobs s !! job_id = Some j ->
  (exists secs, line_secs example_line = Some secs /\ (secs == 131 # 2)%Q) /\
  (exists f, spec_progress_fraction example_line 130 = Some f /\ (f == 131 # 260)%Q) /\
  (exists j',
     jobs (exec (Server.read_line job_id ev 130 example_line) s) !! job_id = Some j' /\
     (progress j' == 5038 # 100)%Q) /\
  (exists f, spec_progress_fraction whole_second_line 130 = Some f /\ (f == 1 # 2)%Q).
Proof.
  intros Hj. split; [|split; [|split]].
  - eexists. split; [vm_compute; reflexivity|]. vm_compute. reflexivity.
  - eexists. split; [vm_compute; reflexivity|]. vm_compute. reflexivity.
  - assert (Hsecs : exists secs, line_secs example_line = Some secs /\
                                    (round2 (Qmin 100 (secs / 130 * 100)) == 5038 # 100)%Q).
    { eexists. split; [vm_compute; reflexivity|]. vm_compute. reflexivity. }
    destruct Hsecs as (secs & Hsecs & Hround).
    destruct (server_read_line_progress job_id ev 130 example_line secs s j Hj Hsecs)
      as (j' & Hj' & Hp & _); [reflexivity|].
    exists j'. split; [done|]. by rewrite Hp.
  - eexists. split; [vm_compute; reflexivity|]. vm_compute. reflexivity.
Qed.

Lemma marker_line_progress_witness :
  exists j',
    jobs (exec (Server.read_line 0 ClipProgress 130 example_line)
            (exec (submit "clip" long_clip_meta) initial_state)) !! 0%nat = Some j' /\
    (progress j' == 5038 # 100)%Q.
Proof.
  eapply (marker_line_progress 0 ClipProgress); vm_compute; reflexivity.
Defined.

(** C4, as stated, fails: the fraction for the example line is 131/260 and
    not 0.5, and the clip handler of a 130 second clip publishes the
    progress 50.38 and not 50. *)
Lemma marker_line_counterexample :
  (exists f, spec_progress_fraction example_line 130 = Some f /\ ~ (f == 1 # 2)%Q) /\
  running_progress 0
    (emitted (exec (Server.job_worker (with_stderr_lines [example_line] quiet_world))
                (exec (submit "clip" long_clip_meta) initial_state)))
  = [0; 5038 # 100]%Q.
Proof.
  split.
  - eexists. split; [vm_compute; reflexivity|]. vm_compute. discriminate.
  - vm_compute. reflexivity.
Qed.

End MarkerFacts.

Section RecordInvariants.
Import Jobs.

Variable job_id : nat.

Lemma keeps_job_has_set_job (P : job job_meta -> Prop) f :
  (forall j, P j -> P (f j)) -> keeps (job_has job_id P) (set_job job_id f).
Proof.
  intros Hf s (j & Hj & HP). unfold set_job. rewrite Hj. simpl.
  exists (f j). split; [apply lookup_insert_eq | by apply Hf].
Qed.

Lemma job_has_mono (P P' : job job_meta -> Prop) s :
  (forall j, P j -> P' j) -> job_has job_id P s -> job_has job_id P' s.
Proof. intros H (j & Hj & HP). exists j. auto. Qed.

(** The three writes of success, whatever follows them. *)
Lemma wp_finishing r (k : M unit) Q E s :
  job_has job_id (fun _ => True) s ->
  (forall s', job_has job_id (fun j => progress j = 100%Q) s' -> wp k Q E s') ->
  wp (set_job job_id (with_status Finished) ;;
      set_job job_id (with_result r) ;;
      set_job job_id (with_progress 100) ;; k) Q E s.
Proof.
  intros (j & Hj & _) Hk.
  apply wp_bind. eapply wp_set_job; [done|].
  apply wp_bind. eapply wp_set_job; [apply lookup_insert_eq|].
  apply wp_bind. eapply wp_set_job; [apply lookup_insert_eq|].
  apply Hk. eexists. split; [apply lookup_insert_eq | done].
Qed.

(** A failure path leaves the status [Error]. *)
Lemma wp_fail msg (P : job job_meta -> Prop) E s :
  job_has job_id (fun _ => True) s ->
  (forall j, status j = Error -> P j) ->
  wp (fail job_id msg) (fun _ => job_has job_id P) E s.
Proof.
  intros (j & Hj & _) HP. unfold wp. rewrite (fail_state job_id msg s j Hj). simpl.
  eexists. split; [apply lookup_insert_eq|]. by apply HP.
Qed.

Lemma wp_fail_touch msg (P : job job_meta -> Prop) E s :
  job_has job_id (fun _ => True) s ->
  (forall j, status j = Error -> P j) ->
  wp (App.fail_touch job_id msg) (fun _ => job_has job_id P) E s.
Proof.
  intros (j & Hj & _) HP.
  unfold wp, App.fail_touch, App.touch, mbind, M_bind, set_job, time_time, push_job_update.
  rewrite Hj. repeat (progress (simpl; rewrite ?lookup_insert_eq)).
  eexists. split; [apply lookup_insert_eq|]. by apply HP.
Qed.

End RecordInvariants.

(** A primitive of a handler under an invariant on the record of the job:
    a field update that keeps the invariant, or an operation that does not
    write the job table. *)
Ltac record_prim :=
  idtac;
  unfold Jobs.not_finished, Jobs.at_100, Jobs.is_present, Jobs.finished_goal;
  first [ apply keeps_job_has_set_job; intros ? ?; simpl in *; solve [auto | congruence]
        | silent_prim ].

(** Runs the next operation of a handler under the invariant [I]: [tac]
    shows that the operation keeps [I], [etac] that [I] is enough when it
    raises. *)
Ltac wp_keep I tac etac :=
  apply wp_bind;
  eapply wp_mono;
  [ | | apply (wp_keeps I); [ tac | eassumption ] ];
  [ intros ? ? ?; cbv beta in *
  | intros ? ? ?; cbv beta in *; etac ].

(** Unfolds the helpers of the handlers down to primitives. *)
Ltac unfold_helpers :=
  unfold Jobs.get_meta, Jobs.Server.progress_hook, Jobs.Server.read_line,
    Jobs.Server.wait_process, Jobs.Server.copy_into_session,
    Jobs.Server.transcribe_item, Jobs.Server.transcribe_segment,
    Jobs.App.progress_hook, Jobs.App.read_line, Jobs.App.percent_of,
    Jobs.App.merge_percent, Jobs.App.touch, Jobs.App.copy_into_session,
    Jobs.App.transcribe_item, Jobs.App.transcribe_segment,
    Jobs.make_session_folder, Jobs.copy_to_session, Jobs.makedirs.

Section FinishedFacts.
Import Jobs.

Variables (w : world) (job_id : nat).

Lemma not_finished_goal s : (not_finished job_id) s -> (finished_goal job_id) s.
Proof. apply job_has_mono. intros j H1 H2. done. Qed.

Lemma at_100_goal s : (at_100 job_id) s -> (finished_goal job_id) s.
Proof. apply job_has_mono. intros j H1 H2. done. Qed.

Lemma error_goal (j : job job_meta) : status j = Error -> finished_at_100 j.
Proof. intros H1 H2. congruence. Qed.

Lemma present_of_not_finished s : (not_finished job_id) s -> (is_present job_id) s.
Proof. by apply job_has_mono. Qed.

Lemma present_of_at_100 s : (at_100 job_id) s -> (is_present job_id) s.
Proof. by apply job_has_mono. Qed.

(** What the handlers of [server.py] do once the work has succeeded. *)
Lemma server_success_tail r (tail : M unit) s :
  keeps (at_100 job_id) tail ->
  (is_present job_id) s ->
  wp (set_job job_id (with_status Finished) ;;
      set_job job_id (with_result r) ;;
      set_job job_id (with_progress 100) ;; tail)
     (fun _ => (finished_goal job_id)) (fun _ => (is_present job_id)) s.
Proof.
  intros Htail Hs. apply wp_finishing; [done|]. intros s' Hs'.
  eapply wp_mono; [| |apply (wp_keeps (at_100 job_id)); [exact Htail | exact Hs']].
  - intros ? s''. apply at_100_goal.
  - intros ? s''. apply present_of_at_100.
Qed.

(** Runs a handler up to its [try], under "not finished". *)
Ltac run_outside :=
  repeat first
    [ match goal with
      | |- wp (raise _) _ _ _ => by apply wp_raise, not_finished_goal
      | |- wp (fail _ _) _ _ _ =>
          apply wp_fail; [by apply present_of_not_finished | apply error_goal]
      | |- wp (match ?m with _ => _ end) _ _ _ => destruct m
      end
    | wp_keep (not_finished job_id) ltac:(unfold_helpers; keeps_with record_prim)
        ltac:(by apply not_finished_goal) ].

(** Runs the body of the [try] up to the writes of success. *)
Ltac run_inside :=
  repeat first
    [ wp_keep (not_finished job_id) ltac:(unfold_helpers; keeps_with record_prim)
        ltac:(by apply present_of_not_finished)
    | match goal with |- wp (match ?m with _ => _ end) _ _ _ => destruct m end ].

(** The [except] clauses. *)
Lemma wp_except_fail e s :
  is_present job_id s ->
  wp (fail job_id e) (fun _ => finished_goal job_id) (fun _ => finished_goal job_id) s.
Proof. intros Hs. apply wp_fail; [done | apply error_goal]. Qed.

Lemma wp_except_kill_fail e s :
  is_present job_id s ->
  wp (kill ;; fail job_id e) (fun _ => finished_goal job_id)
     (fun _ => finished_goal job_id) s.
Proof. intros Hs. apply wp_bind. unfold wp at 1. simpl. by apply wp_except_fail. Qed.

Lemma wp_except_fail_touch e s :
  is_present job_id s ->
  wp (App.fail_touch job_id e) (fun _ => finished_goal job_id)
     (fun _ => finished_goal job_id) s.
Proof. intros Hs. apply wp_fail_touch; [done | apply error_goal]. Qed.

Lemma wp_except_kill_fail_touch e s :
  is_present job_id s ->
  wp (kill ;; App.fail_touch job_id e) (fun _ => finished_goal job_id)
     (fun _ => finished_goal job_id) s.
Proof. intros Hs. apply wp_bind. unfold wp at 1. simpl. by apply wp_except_fail_touch. Qed.

(** Enters a [try ... except] whose handler is one of the four above. *)
Ltac enter_try :=
  apply wp_try_except;
  eapply (wp_mono _ (fun _ => finished_goal job_id) _ (fun _ => is_present job_id));
  [ done
  | intros ? ? ?;
    first [ by apply wp_except_fail | by apply wp_except_kill_fail
          | by apply wp_except_fail_touch | by apply wp_except_kill_fail_touch ]
  | ].

Ltac success_tail :=
  apply server_success_tail;
  [ unfold_helpers; keeps_with record_prim | by apply present_of_not_finished ].












End FinishedFacts.

Section RoundingFacts.

Local Open Scope Q_scope.










End RoundingFacts.

Section MarkerValues.

Local Open Scope Q_scope.












End MarkerValues.

Section TraceFacts.
Import Jobs.

Local Open Scope Q_scope.









Section OneJob.
Variable job_id : nat.











End OneJob.

End TraceFacts.


Section TranscribeFacts.
Import Jobs.

Local Open Scope Q_scope.

Variables (w : world) (job_id : nat).


Lemma keeps_capped_silent {A} c (m : M A) :
  (forall s, jobs (m s).2 = jobs s) -> keeps (capped job_id c) m.
Proof. intros Hm s (j & Hj & Hp). exists j. by rewrite Hm. Qed.








Hypothesis ffprobe_nonneg : forall path d, ffprobe w path = Some d -> 0 <= d.




End TranscribeFacts.

Section BoundsFacts.

Local Open Scope Q_scope.

Variable job_id : nat.





Lemma bounds_0 : 0 <= 0 /\ 0 <= 100.
Proof. split; done. Qed.


End BoundsFacts.



Section ClipBounds.

Local Open Scope Q_scope.

Variables (w : world) (job_id : nat).









Lemma just_queued_within_bounds s : just_queued job_id s -> within_bounds job_id s.
Proof.
  intros (j & Hj & Hid & Hs & Hp & Ht). split.
  - rewrite Ht. constructor.
  - exists j. split; [done|]. split; [done|]. rewrite Hp. exact bounds_0.
Qed.

End ClipBounds.

Section ClipTrace.

Local Open Scope Q_scope.

Variables (w : world) (job_id : nat).







End ClipTrace.

Section AppTranscribeFacts.

Local Open Scope Q_scope.

Variables (w : world) (job_id : nat).


Hypothesis ffprobe_nonneg : forall path d, ffprobe w path = Some d -> 0 <= d.




End AppTranscribeFacts.

Section AppTranscodeTrace.

Local Open Scope Q_scope.

Variables (w : world) (job_id : nat).












End AppTranscodeTrace.

Section ProgressFacts.
Import Jobs.

Local Open Scope Q_scope.





End ProgressFacts.

Section CleanupFacts.
Import Cleanup.

Lemma cleanup_session_body_doomed dc dv d fname :
  cleanup_session_body dc dv d fname =
  if doomed dc dv fname then try_remove fname d else d.
Proof.
  unfold cleanup_session_body, doomed.
  destruct (endswith fname ".mp4"); [done|].
  by destruct (endswith fname ".txt" || endswith fname ".vtt" || endswith fname ".srt").
Qed.

Lemma cleanup_session_immediate_body_doomed dc dv d fname :
  cleanup_session_immediate_body dc dv d fname =
  if doomed dc dv fname then try_remove fname d else d.
Proof. unfold cleanup_session_immediate_body, doomed. by destruct (endswith fname ".mp4"). Qed.

Lemma try_remove_lookup fname d name :
  try_remove fname d !! name =
  if decide (name = fname)
  then match d !! name with Some RegularFile => None | other => other end
  else d !! name.
Proof.
  unfold try_remove, os_remove.
  destruct (decide (name = fname)) as [->|Hne].
  - destruct (d !! fname) as [[]|] eqn:E; simpl; rewrite ?E; try done.
    apply lookup_delete_eq.
  - destruct (d !! fname) as [[]|] eqn:E; simpl; try done.
    by apply lookup_delete_ne.
Qed.

Lemma loop_lookup (body : gmap string entry -> string -> gmap string entry) dc dv :
  (forall d fname, body d fname = if doomed dc dv fname then try_remove fname d else d) ->
  forall (l : list string) (d : gmap string entry) (name : string),
    foldl body d l !! name =
    if decide (name ∈ l) then survivor dc dv name (d !! name) else d !! name.
Proof.
  intros Hbody l. induction l as [|fname l IH]; intros d name; simpl.
  - destruct (decide (name ∈ [])) as [H|_]; [by apply elem_of_nil in H | done].
  - rewrite IH, Hbody.
    assert (Hstep : (if doomed dc dv fname then try_remove fname d else d) !! name =
                    if decide (name = fname) then survivor dc dv name (d !! name)
                    else d !! name).
    { destruct (doomed dc dv fname) eqn:Hd.
      - rewrite try_remove_lookup. destruct (decide (name = fname)) as [->|]; [|done].
        unfold survivor. rewrite Hd. by destruct (d !! fname) as [[]|].
      - destruct (decide (name = fname)) as [->|]; [|done].
        unfold survivor. destruct (d !! fname) as [[]|]; rewrite ?Hd; done. }
    rewrite Hstep.
    assert (Hidem : forall e, survivor dc dv name (survivor dc dv name e) = survivor dc dv name e).
    { intros [[]|]; simpl; try done. by destruct (doomed dc dv name) eqn:E; simpl; rewrite ?E. }
    destruct (decide (name = fname)) as [->|Hne].
    + rewrite (decide_True (P := fname ∈ fname :: l)) by (apply elem_of_cons; by left).
      destruct (decide (fname ∈ l)); [apply Hidem | done].
    + destruct (decide (name ∈ l)) as [Hin|Hnin].
      * rewrite (decide_True (P := name ∈ fname :: l)) by (apply elem_of_cons; by right).
        done.
      * rewrite (decide_False (P := name ∈ fname :: l)); [done|].
        rewrite elem_of_cons. by intros [?|?].
Qed.

Lemma listdir_elem (d : gmap string entry) name : name ∈ listdir d <-> is_Some (d !! name).
Proof.
  unfold listdir. rewrite list_elem_of_fmap. split.
  - intros [[k e] [-> H]]. apply elem_of_map_to_list in H. eauto.
  - intros [e H]. exists (name, e). split; [done|]. by apply elem_of_map_to_list.
Qed.

Lemma listdir_nil (d : gmap string entry) : listdir d = [] <-> d = ∅.
Proof.
  unfold listdir. split.
  - intros H. apply fmap_nil_inv in H. by apply map_to_list_empty_iff.
  - intros ->. by rewrite map_to_list_empty.
Qed.

(** The folder after the loop, entry by entry. *)
Lemma swept_lookup body dc dv (d : gmap string entry) name :
  (forall d fname, body d fname = if doomed dc dv fname then try_remove fname d else d) ->
  foldl body d (listdir d) !! name = survivor dc dv name (d !! name).
Proof.
  intros Hbody. rewrite (loop_lookup body dc dv Hbody).
  destruct (decide (name ∈ listdir d)) as [|Hn]; [done|].
  rewrite listdir_elem in Hn. destruct (d !! name) eqn:E; [|done].
  exfalso. apply Hn. eauto.
Qed.

Lemma rmdir_if_empty_lookup sid d (fs : gmap string (gmap string entry)) :
  default ∅ (rmdir_if_empty sid d fs !! sid) = d /\
  (rmdir_if_empty sid d fs !! sid = None <-> d = ∅) /\
  (forall sid', sid' ≠ sid -> rmdir_if_empty sid d fs !! sid' = fs !! sid').
Proof.
  unfold rmdir_if_empty. destruct (listdir d) eqn:E.
  - apply listdir_nil in E. subst d. rewrite lookup_delete_eq. repeat split; try done.
    intros sid' Hne. by apply lookup_delete_ne.
  - rewrite lookup_insert_eq. simpl. repeat split; try done.
    + intros ->. by rewrite (proj2 (listdir_nil ∅)) in E.
    + intros sid' Hne. by apply lookup_insert_ne.
Qed.



(** The result of a cleanup on an existing folder, entry by entry. *)
Lemma cleanup_with_existing body dc dv sid (fs : gmap string (gmap string entry)) d :
  (forall d fname, body d fname = if doomed dc dv fname then try_remove fname d else d) ->
  fs !! sid = Some d ->
  (cleanup_with body sid fs).1 = true /\
  (forall name, default ∅ ((cleanup_with body sid fs).2 !! sid) !! name
                = survivor dc dv name (d !! name)) /\
  ((cleanup_with body sid fs).2 !! sid = None <->
     forall name, survivor dc dv name (d !! name) = None) /\
  (forall sid', sid' ≠ sid -> (cleanup_with body sid fs).2 !! sid' = fs !! sid').
Proof.
  intros Hbody Hd. unfold cleanup_with. rewrite Hd. simpl.
  destruct (rmdir_if_empty_lookup sid (foldl body d (listdir d)) fs) as (H1 & H2 & H3).
  split; [done|]. split; [|split; [|done]].
  - intros name. rewrite H1. by apply swept_lookup.
  - rewrite H2. split.
    + intros Hempty name. rewrite <- (swept_lookup body dc dv d name Hbody), Hempty.
      apply lookup_empty.
    + intros Hall. apply map_eq. intros name.
      rewrite (swept_lookup body dc dv d name Hbody), Hall. by rewrite lookup_empty.
Qed.



(** C10. For an existing session folder, whatever the two flags, cleanup
    returns [True]; a regular file whose name does not end in [.mp4] is
    always deleted, also with both flags false; a regular file whose name
    ends in [.mp4] is deleted iff [delete_clips or delete_video], the two
    flags never being told apart.  Both cleanup functions behave so. *)
Theorem cleanup_flags_only_guard_mp4
    (sid : string) (fs : gmap string (gmap string entry)) (d : gmap string entry)
    (delete_clips delete_video : bool) (cleanup : _) :
  fs !! sid = Some d ->
  cleanup = cleanup_session \/ cleanup = cleanup_session_immediate ->
  (cleanup sid delete_clips delete_video fs).1 = true /\
  forall name,
    d !! name = Some RegularFile ->
    let after := default ∅ ((cleanup sid delete_clips delete_video fs).2 !! sid) in
    (endswith name ".mp4" = false -> after !! name = None) /\
    (endswith name ".mp4" = true ->
       (after !! name = None <-> delete_clips || delete_video = true) /\
       (after !! name = Some RegularFile <-> delete_clips || delete_video = false)).
Proof.
  intros Hd Hc.
  assert (Hspec :
    (cleanup sid delete_clips delete_video fs).1 = true /\
    (forall name, default ∅ ((cleanup sid delete_clips delete_video fs).2 !! sid) !! name
                  = survivor delete_clips delete_video name (d !! name))).
  { destruct Hc as [-> | ->].
    - destruct (cleanup_with_existing (cleanup_session_body delete_clips delete_video)
                  delete_clips delete_video sid fs d) as (? & ? & _); try done.
      apply cleanup_session_body_doomed.
    - destruct (cleanup_with_existing
                  (cleanup_session_immediate_body delete_clips delete_video)
                  delete_clips delete_video sid fs d) as (? & ? & _); try done.
      apply cleanup_session_immediate_body_doomed. }
  destruct Hspec as [Hr Hl]. split; [done|].
  intros name Hname after. subst after. rewrite Hl, Hname. unfold survivor, doomed.
  split; intros ->; [done|].
  destruct (delete_clips || delete_video); split; split; intros; done.
Qed.

Lemma cleanup_flags_only_guard_mp4_witness :
  let after := default ∅ ((cleanup_session "s1" false false two_files).2 !! "s1") in
  after !! "b.txt" = None.
Proof.
  destruct (cleanup_flags_only_guard_mp4 "s1" two_files
              {[ "a.mp4" := RegularFile; "b.txt" := RegularFile ]} false false
              cleanup_session) as [_ H]; [reflexivity | by left |].
  destruct (H "b.txt") as [Hb _]; [vm_compute; reflexivity |].
  apply Hb. reflexivity.
Defined.

End CleanupFacts.

Section TemplateFacts.
Import Templates.

Lemma alloc_extends o (h : gmap nat object) : h ⊆ (alloc o h).2.
Proof.
  unfold alloc. simpl. apply insert_subseteq.
  apply not_elem_of_dom. apply is_fresh.
Qed.

Lemma alloc_fresh o (h : gmap nat object) :
  h !! (alloc o h).1 = None /\ (alloc o h).2 !! (alloc o h).1 = Some o.
Proof.
  unfold alloc. simpl. split; [|apply lookup_insert_eq].
  apply not_elem_of_dom. apply is_fresh.
Qed.

(** Reading a request body leaves every existing object as it is. *)
Lemma load_extends : forall (j : json) (h : gmap nat object), h ⊆ (load j h).2.
Proof.
  fix IH 1. intros [ | b | q | s | items | items] h; simpl; try reflexivity.
  - match goal with |- context [match ?g items h with _ => _ end] => set (go := g) end.
    assert (Hgo : forall js h0, h0 ⊆ (go js h0).2).
    { induction js as [|j js IHjs]; intros h0; simpl; [reflexivity|].
      pose proof (IH j h0) as Hj. destruct (load j h0) as [v h1]. simpl in Hj.
      pose proof (IHjs h1) as Hjs. destruct (go js h1) as [vs h2]. simpl in *.
      by etrans. }
    pose proof (Hgo items h) as Hitems. destruct (go items h) as [vs h1]. simpl in *.
    etrans; [exact Hitems | apply (alloc_extends (OList vs) h1)].
  - match goal with |- context [match ?g items ∅ h with _ => _ end] => set (go := g) end.
    assert (Hgo : forall kvs d h0, h0 ⊆ (go kvs d h0).2).
    { induction kvs as [|[k j] kvs IHkvs]; intros d h0; simpl; [reflexivity|].
      pose proof (IH j h0) as Hj. destruct (load j h0) as [v h1]. simpl in Hj.
      pose proof (IHkvs (<[k:=v]> d) h1) as Hkvs. by etrans. }
    pose proof (Hgo items ∅ h) as Hitems. destruct (go items ∅ h) as [d h1]. simpl in *.
    etrans; [exact Hitems | apply (alloc_extends (ODict d) h1)].
Qed.








End TemplateFacts.

Section LayoutFacts.
Import Layout.

Lemma place_spec st t h :
  place st t h =
  (position (anchor_of t) (stack_of st (anchor_of t)) h,
   {| bottom_stack := bottom_stack st + (if decide (anchor_of t = Bottom) then h + 40 else 0);
      center_stack := center_stack st + (if decide (anchor_of t = Center) then h + 40 else 0);
      top_stack := top_stack st + (if decide (anchor_of t = Top) then h + 40 else 0) |})%Z.
Proof.
  unfold place. destruct (anchor_of t); simpl; f_equal; destruct st; simpl; f_equal; lia.
Qed.

Lemma place_stack_of st t h a :
  stack_of (place st t h).2 a =
  (stack_of st a + (if decide (anchor_of t = a) then h + 40 else 0))%Z.
Proof.
  rewrite place_spec. simpl. destruct a; simpl; destruct (anchor_of t); simpl; done.
Qed.

(** The loop places each overlay at the offset its anchor has reached. *)
Lemma place_texts_positions (texts : list txt) :
  forall (st : stacks) (draws : list drawtext),
    place_texts (Some st) texts = inr draws ->
    forall (k : nat) (t : txt),
      texts !! k = Some t ->
      exists d h,
        draws !! k = Some d /\ estimated_h t = Some h /\
        draw_y d =
        position (anchor_of t)
          (stack_of st (anchor_of t) + stack_before (anchor_of t) (take k texts)) h.
Proof.
  induction texts as [|t0 texts IH]; intros st draws Hrun k t Hk; [done|].
  simpl in Hrun.
  destruct (estimated_h t0) as [h0|] eqn:Hh0; [|done].
  destruct (place st t0 h0) as [auto_y st'] eqn:Hplace.
  destruct (place_texts (Some st') texts) as [e|ds] eqn:Hrest; [done|].
  injection Hrun as <-.
  destruct k as [|k]; simpl in Hk.
  - injection Hk as <-. exists (draw t0 auto_y), h0. split; [done|]. split; [done|].
    simpl. rewrite place_spec in Hplace. injection Hplace as <- _.
    f_equal. lia.
  - destruct (IH st' ds Hrest k t Hk) as (d & h & Hd & Hh & Hy).
    exists d, h. split; [done|]. split; [done|].
    rewrite Hy. f_equal. simpl. rewrite Hh0. simpl.
    pose proof (place_stack_of st t0 h0 (anchor_of t)) as Hs.
    rewrite Hplace in Hs. simpl in Hs. rewrite Hs. lia.
Qed.

(** C7 (amended). For a template with a resolution: the anchor of an
    overlay is top when its lower-cased position contains "top", else
    center when it contains "mid" or "center", else bottom; its height is
    [int(fontsize * 1.4)], computed in binary64 and truncated; whenever the
    layout succeeds, each overlay is placed at the offset reached by the
    earlier overlays of the same anchor, each of which advanced it by its
    height plus 40.  Three bottom overlays of font size 50 get
    y = 1730, 1620, 1510: strictly upward and exactly 110 apart. *)
Theorem overlay_stacking_layout
    (resolution : string) (texts : list txt) (draws : list drawtext) :
  resolution ≠ "" ->
  layout (Some resolution) texts = inr draws ->
  (forall (k : nat) (t : txt),
     texts !! k = Some t ->
     let pos := lower (default "" (y t)) in
     anchor_of t =
       (if contains "top" pos then Top
        else if contains "mid" pos || contains "center" pos then Center
        else Bottom) /\
     estimated_h t
       = int_of_float (SFmul prec emax (float_of_Z (default 50%Z (fontsize t))) f1_4) /\
     exists d h,
       draws !! k = Some d /\ estimated_h t = Some h /\
       draw_y d = position (anchor_of t) (stack_before (anchor_of t) (take k texts)) h) /\
  ys_of (layout (Some resolution) three_bottom) = Some [1730; 1620; 1510]%Z.
Proof.
  intros Hres Hrun. split.
  - intros k t Hk pos. subst pos. split; [|split; [done|]].
    + unfold anchor_of. by repeat case_match.
    + unfold layout, stacks_for in Hrun.
      destruct resolution as [|c r]; [done|].
      destruct (place_texts_positions texts initial_stacks draws Hrun k t Hk)
        as (d & h & Hd & Hh & Hy).
      exists d, h. split; [done|]. split; [done|].
      rewrite Hy. f_equal. by destruct (anchor_of t).
  - destruct resolution as [|c r]; [done|]. vm_compute. reflexivity.
Qed.

Lemma overlay_stacking_layout_witness :
  exists d h,
    three_bottom_draws !! 2%nat = Some d /\
    estimated_h (overlay_at "bottom" 50) = Some h /\
    draw_y d = position Bottom (stack_before Bottom (take 2 three_bottom)) h.
Proof.
  destruct (overlay_stacking_layout "1080x1920" three_bottom three_bottom_draws)
    as [H _]; [done | vm_compute; reflexivity |].
  destruct (H 2%nat (overlay_at "bottom" 50) eq_refl) as (_ & _ & Hex).
  exact Hex.
Defined.

(** C7, as stated, fails on an overlay whose position is "middle" and whose
    font size is 45: the code anchors it at the center, where the claim
    sends an unrecognized position to the bottom, and estimates its height
    as 62, where the claim has 45 * 1.4 = 63, so that two such bottom
    overlays are 102 apart, less than 63 + 40. *)
Lemma overlay_stacking_counterexample :
  anchor_of (overlay_at "middle" 45) = Center /\
  spec_anchor_of (overlay_at "middle" 45) = Bottom /\
  estimated_h (overlay_at "bottom" 45) = Some 62%Z /\
  (spec_height (overlay_at "bottom" 45) == 63)%Q /\
  ys_of (layout (Some "1080x1920") [overlay_at "bottom" 45; overlay_at "bottom" 45])
  = Some [1738; 1636]%Z.
Proof. vm_compute. repeat split; reflexivity. Qed.

End LayoutFacts.

Section OutcomeFacts.
Import Outcomes.

Variables (w : world) (job_id : nat).

Lemma pending_present s : job_has job_id pending s -> is_present job_id s.
Proof. by apply job_has_mono. Qed.

Lemma succeeded_present s : job_has job_id succeeded s -> is_present job_id s.
Proof. by apply job_has_mono. Qed.

Lemma succeeded_concluded s : job_has job_id succeeded s -> job_has job_id concluded s.
Proof. apply job_has_mono. intros j Hj. by left. Qed.

(** A failure path concludes the job. *)
Lemma wp_fail_concluded msg E s :
  is_present job_id s ->
  wp (fail job_id msg) (fun _ => job_has job_id concluded) E s.
Proof.
  intros (j & Hj & _). unfold wp. rewrite (fail_state job_id msg s j Hj). simpl.
  eexists. split; [apply lookup_insert_eq|]. right. split; simpl; eauto.
Qed.

Lemma wp_fail_touch_concluded msg E s :
  is_present job_id s ->
  wp (App.fail_touch job_id msg) (fun _ => job_has job_id concluded) E s.
Proof.
  intros (j & Hj & _).
  unfold wp, App.fail_touch, App.touch, mbind, M_bind, set_job, time_time, push_job_update.
  rewrite Hj. repeat (progress (simpl; rewrite ?lookup_insert_eq)).
  eexists. split; [apply lookup_insert_eq|]. right. split; simpl; eauto.
Qed.

Lemma wp_kill_fail_concluded msg E s :
  is_present job_id s ->
  wp (kill ;; fail job_id msg) (fun _ => job_has job_id concluded) E s.
Proof. intros Hs. apply wp_bind. unfold wp at 1. simpl. by apply wp_fail_concluded. Qed.

Lemma wp_kill_fail_touch_concluded msg E s :
  is_present job_id s ->
  wp (kill ;; App.fail_touch job_id msg) (fun _ => job_has job_id concluded) E s.
Proof. intros Hs. apply wp_bind. unfold wp at 1. simpl. by apply wp_fail_touch_concluded. Qed.

(** A field update, or an operation that does not write the job table,
    under [pending] or [succeeded]. *)
Ltac outcome_prim :=
  idtac;
  first [ apply keeps_job_has_set_job;
          unfold pending, succeeded; intros ? ?; simpl in *; solve [intuition (auto; congruence)]
        | silent_prim ].

(** The three writes of success on a pending record, whatever follows
    them. *)
Lemma wp_success_tail r (tail : M unit) s :
  keeps (job_has job_id succeeded) tail ->
  job_has job_id pending s ->
  wp (set_job job_id (with_status Finished) ;;
      set_job job_id (with_result r) ;;
      set_job job_id (with_progress 100) ;; tail)
     (fun _ => job_has job_id concluded) (fun _ => is_present job_id) s.
Proof.
  intros Htail (j & Hj & Hstatus & Hres & Herr).
  apply wp_bind. eapply wp_set_job; [done|].
  apply wp_bind. eapply wp_set_job; [apply lookup_insert_eq|].
  apply wp_bind. eapply wp_set_job; [apply lookup_insert_eq|].
  eapply wp_mono; [| |apply (wp_keeps (job_has job_id succeeded)); [exact Htail|]].
  - intros ? s'. apply succeeded_concluded.
  - intros ? s'. apply succeeded_present.
  - eexists. split; [apply lookup_insert_eq|]. repeat split; simpl; eauto.
Qed.

Ltac run_outside :=
  repeat first
    [ match goal with
      | |- wp (raise _) _ _ _ => by apply wp_raise, pending_present
      | |- wp (fail _ _) _ _ _ => apply wp_fail_concluded; by apply pending_present
      | |- wp (match ?m with _ => _ end) _ _ _ => destruct m
      end
    | wp_keep (job_has job_id pending) ltac:(unfold_helpers; keeps_with outcome_prim)
        ltac:(by apply pending_present) ].

Ltac run_inside :=
  repeat first
    [ wp_keep (job_has job_id pending) ltac:(unfold_helpers; keeps_with outcome_prim)
        ltac:(by apply pending_present)
    | match goal with |- wp (match ?m with _ => _ end) _ _ _ => destruct m end ].

Ltac enter_try :=
  apply wp_try_except;
  eapply (wp_mono _ (fun _ => job_has job_id concluded) _ (fun _ => is_present job_id));
  [ done
  | intros ? ? ?;
    first [ by apply wp_fail_concluded | by apply wp_kill_fail_concluded
          | by apply wp_fail_touch_concluded | by apply wp_kill_fail_touch_concluded ]
  | ].

Ltac success_tail :=
  apply wp_success_tail; [ unfold_helpers; keeps_with outcome_prim | assumption ].

Lemma server_do_download_concludes s :
  job_has job_id pending s ->
  wp (Server.do_download w job_id) (fun _ => job_has job_id concluded)
     (fun _ => is_present job_id) s.
Proof.
  intros Hs. unfold Server.do_download.
  run_outside. enter_try. run_inside. success_tail.
Qed.

Lemma server_do_clip_concludes s :
  job_has job_id pending s ->
  wp (Server.do_clip w job_id) (fun _ => job_has job_id concluded)
     (fun _ => is_present job_id) s.
Proof.
  intros Hs. unfold Server.do_clip.
  run_outside. enter_try. run_inside. success_tail.
Qed.

Lemma server_do_clip_with_template_concludes s :
  job_has job_id pending s ->
  wp (Server.do_clip_with_template w job_id) (fun _ => job_has job_id concluded)
     (fun _ => is_present job_id) s.
Proof.
  intros Hs. unfold Server.do_clip_with_template.
  run_outside. enter_try. run_inside. success_tail.
Qed.

Lemma server_do_transcribe_concludes s :
  job_has job_id pending s ->
  wp (Server.do_transcribe w job_id) (fun _ => job_has job_id concluded)
     (fun _ => is_present job_id) s.
Proof.
  intros Hs. unfold Server.do_transcribe.
  run_outside. enter_try. run_inside. success_tail.
Qed.

Lemma app_do_download_concludes s :
  job_has job_id pending s ->
  wp (App.do_download w job_id) (fun _ => job_has job_id concluded)
     (fun _ => is_present job_id) s.
Proof.
  intros Hs. unfold App.do_download.
  run_outside. enter_try. run_inside. success_tail.
Qed.

Lemma app_do_transcribe_concludes s :
  job_has job_id pending s ->
  wp (App.do_transcribe w job_id) (fun _ => job_has job_id concluded)
     (fun _ => is_present job_id) s.
Proof.
  intros Hs. unfold App.do_transcribe.
  run_outside. enter_try. run_inside. success_tail.
Qed.

Lemma app_do_clip_concludes s :
  job_has job_id pending s ->
  wp (App.do_clip w job_id) (fun _ => job_has job_id concluded)
     (fun _ => is_present job_id) s.
Proof.
  intros Hs. unfold App.do_clip, App.finish.
  run_outside. enter_try. run_inside. success_tail.
Qed.

Lemma app_do_template_clip_concludes s :
  job_has job_id pending s ->
  wp (App.do_template_clip w job_id) (fun _ => job_has job_id concluded)
     (fun _ => is_present job_id) s.
Proof.
  intros Hs. unfold App.do_template_clip, App.finish.
  run_outside. enter_try. run_inside. success_tail.
Qed.

Lemma app_do_merge_concludes s :
  job_has job_id pending s ->
  wp (App.do_merge w job_id) (fun _ => job_has job_id concluded)
     (fun _ => is_present job_id) s.
Proof.
  intros Hs. unfold App.do_merge, App.finish.
  run_outside. apply wp_try_finally. enter_try. run_inside. success_tail.
Qed.

Lemma server_run_job_concludes kind s :
  job_has job_id pending s ->
  wp (Server.run_job w kind job_id) (fun _ => job_has job_id concluded)
     (fun _ => is_present job_id) s.
Proof.
  intros Hs. unfold Server.run_job.
  repeat match goal with |- wp (if ?b then _ else _) _ _ _ => destruct b end;
    auto using server_do_download_concludes, server_do_clip_concludes,
      server_do_clip_with_template_concludes, server_do_transcribe_concludes.
  apply wp_fail_concluded. by apply pending_present.
Qed.

Lemma app_run_job_concludes kind s :
  job_has job_id pending s ->
  wp (App.run_job w kind job_id) (fun _ => job_has job_id concluded)
     (fun _ => is_present job_id) s.
Proof.
  intros Hs. unfold App.run_job.
  repeat match goal with |- wp (if ?b then _ else _) _ _ _ => destruct b end;
    auto using app_do_download_concludes, app_do_clip_concludes,
      app_do_template_clip_concludes, app_do_transcribe_concludes, app_do_merge_concludes.
  apply wp_fail_concluded. by apply pending_present.
Qed.

End OutcomeFacts.

Section TurnFacts.
Import Outcomes.

Lemma turn_concludes worker run_job w s job_id rest j :
  worker_contract worker run_job -> concludes run_job ->
  job_queue s = job_id :: rest ->
  jobs s !! job_id = Some j ->
  pending j ->
  job_has job_id concluded (exec (worker w) s).
Proof.
  intros Hcontract Hrun Hq Hj Hp.
  destruct (Hcontract w s job_id rest j Hq Hj) as (_ & _ & _ & _ & Hcase).
  assert (Hs : job_has job_id pending (set_job_queue rest s)) by (by exists j).
  specialize (Hrun w (kind j) job_id _ Hs). unfold wp in Hrun. unfold exec.
  destruct (run_job w (kind j) job_id (set_job_queue rest s)) as [[[]|e] s1]; simpl in *.
  - by rewrite Hcase.
  - destruct Hcase as (j' & _ & Hj'). exists (with_error e (with_status Error j')).
    split; [done|]. right. split; simpl; eauto.
Qed.

Lemma turns_drain worker run_job (ws : list world) : forall s,
  worker_contract worker run_job -> concludes run_job ->
  NoDup (job_queue s) ->
  (forall job_id, job_id ∈ job_queue s -> job_has job_id pending s) ->
  length ws = length (job_queue s) ->
  job_queue (turns worker ws s) = [] /\
  (forall job_id, job_id ∈ job_queue s -> job_has job_id concluded (turns worker ws s)) /\
  (forall job_id, job_id ∉ job_queue s -> jobs (turns worker ws s) !! job_id = jobs s !! job_id).
Proof.
  induction ws as [|w ws IH]; intros s Hcontract Hrun Hnodup Hpending Hlen.
  { destruct (job_queue s) as [|? ?] eqn:Hq; [|done]. simpl.
    split; [done|]. split; [|done]. intros job_id Hin. by apply elem_of_nil in Hin. }
  destruct (job_queue s) as [|job_id rest] eqn:Hq; [done|].
  destruct (Hpending job_id) as (j & Hj & Hp); [by left|].
  destruct (Hcontract w s job_id rest j Hq Hj) as (_ & Hrest & Hother & _ & _).
  pose proof (turn_concludes worker run_job w s job_id rest j Hcontract Hrun Hq Hj Hp)
    as Hdone.
  apply NoDup_cons in Hnodup as [Hnotin Hnodup].
  change (turns worker (w :: ws) s) with (turns worker ws (exec (worker w) s)).
  unfold exec in *.
  destruct (IH (worker w s).2) as (Hempty & Hall & Hframe); auto.
  - by rewrite Hrest.
  - rewrite Hrest. intros other Hin.
    assert (other ≠ job_id) as Hne by (intros ->; done).
    destruct (Hpending other) as (j' & Hj' & Hp'); [by right|].
    exists j'. split; [|done]. by rewrite Hother.
  - rewrite Hrest. simpl in Hlen. lia.
  - rewrite Hrest in Hall, Hframe. split; [done|]. split.
    + intros other [->|Hin]%elem_of_cons; [|by apply Hall].
      destruct Hdone as (j' & Hj' & Hc). exists j'. split; [|done].
      by rewrite Hframe.
    + intros other Hout. apply not_elem_of_cons in Hout as [Hne Hout].
      rewrite Hframe by done. by apply Hother.
Qed.

(** One turn of either worker concludes the job it dequeues: the job ends
    finished, with a result, no error and progress 100, or in error with a
    message. *)
Theorem worker_turn_concludes_the_job (w : world) (s : state) (job_id : nat)
    (rest : list nat) (j : job job_meta) :
  job_queue s = job_id :: rest ->
  jobs s !! job_id = Some j ->
  pending j ->
  job_has job_id concluded (exec (Server.job_worker w) s) /\
  job_has job_id concluded (exec (App.worker_loop w) s).
Proof.
  intros Hq Hj Hp. split.
  - eapply (turn_concludes _ _ _ _ _ _ _ server_job_worker_contract); eauto.
    intros w' kind' id' s'. apply server_run_job_concludes.
  - eapply (turn_concludes _ _ _ _ _ _ _ app_worker_loop_contract); eauto.
    intros w' kind' id' s'. apply app_run_job_concludes.
Qed.

Lemma worker_turn_concludes_witness :
  job_has 0 concluded
    (exec (Server.job_worker quiet_world) (exec (submit "clip" clip_meta) initial_state)) /\
  job_has 0 concluded
    (exec (App.worker_loop quiet_world) (exec (submit "clip" clip_meta) initial_state)).
Proof.
  eapply (worker_turn_concludes_the_job quiet_world _ 0%nat []).
  - vm_compute. reflexivity.
  - vm_compute. reflexivity.
  - repeat split; simpl; auto.
Defined.

(** As many turns as there are queued jobs empty the queue and conclude
    every one of them, whatever each turn meets, and change no other
    record. *)
Theorem workers_drain_the_queue (ws : list world) (s : state) :
  NoDup (job_queue s) ->
  (forall job_id, job_id ∈ job_queue s -> job_has job_id pending s) ->
  length ws = length (job_queue s) ->
  (job_queue (turns Server.job_worker ws s) = [] /\
   (forall job_id, job_id ∈ job_queue s ->
      job_has job_id concluded (turns Server.job_worker ws s)) /\
   (forall job_id, job_id ∉ job_queue s ->
      jobs (turns Server.job_worker ws s) !! job_id = jobs s !! job_id)) /\
  (job_queue (turns App.worker_loop ws s) = [] /\
   (forall job_id, job_id ∈ job_queue s ->
      job_has job_id concluded (turns App.worker_loop ws s)) /\
   (forall job_id, job_id ∉ job_queue s ->
      jobs (turns App.worker_loop ws s) !! job_id = jobs s !! job_id)).
Proof.
  intros Hnodup Hpending Hlen. split.
  - apply (turns_drain _ Server.run_job); auto using server_job_worker_contract.
    intros w' kind' id' s'. apply server_run_job_concludes.
  - apply (turns_drain _ App.run_job); auto using app_worker_loop_contract.
    intros w' kind' id' s'. apply app_run_job_concludes.
Qed.

Lemma workers_drain_witness :
  job_queue (turns Server.job_worker [quiet_world; quiet_world] two_submitted) = [] /\
  job_has 1 concluded (turns App.worker_loop [quiet_world; quiet_world] two_submitted).
Proof.
  assert (Hq : job_queue two_submitted = [0; 1]%nat) by (vm_compute; reflexivity).
  destruct (workers_drain_the_queue [quiet_world; quiet_world] two_submitted)
    as ((Hempty & _ & _) & (_ & Hall & _)).
  - rewrite Hq. apply (bool_decide_unpack _). vm_compute. exact I.
  - rewrite Hq. intros job_id [->|[->|Hin%elem_of_nil]%elem_of_cons]%elem_of_cons;
      [| |done]; (eexists; split; [vm_compute; reflexivity|]);
      repeat split; simpl; auto.
  - rewrite Hq. reflexivity.
  - split; [exact Hempty|]. apply Hall. rewrite Hq. set_solver.
Defined.

End TurnFacts.

Section MissingInput.
Import Outcomes.

Variables (w : world) (s : state) (job_id : nat) (j : job job_meta).
Hypothesis Hj : jobs s !! job_id = Some j.

Ltac run_to_rejection :=
  unfold rejected_with, exec, get_meta, fail, mbind, M_bind, set_job, get_job,
    push_job_update, time_time;
  rewrite Hj; simpl; rewrite lookup_insert_eq; simpl.

Ltac rejected :=
  repeat (progress (simpl; rewrite ?lookup_insert_eq, ?insert_insert_eq)); done.

Lemma server_do_clip_missing_input filename start end_ text flip sid out :
  meta j = MetaClip filename start end_ text flip sid out ->
  path_exists w (path_join DOWNLOADS_DIR filename) = false ->
  rejected_with "input file not found" job_id j s (exec (Server.do_clip w job_id) s).
Proof.
  intros Hm He. unfold Server.do_clip. run_to_rejection. rewrite Hm.
  destruct (truthy_str out); simpl; rewrite He; rejected.
Qed.

Lemma server_do_clip_with_template_missing_input filename template sid :
  meta j = MetaClipTemplate filename template sid ->
  path_exists w (path_join DOWNLOADS_DIR filename) = false ->
  rejected_with "input file not found" job_id j s
    (exec (Server.do_clip_with_template w job_id) s).
Proof.
  intros Hm He. unfold Server.do_clip_with_template. run_to_rejection. rewrite Hm.
  rewrite He; rejected.
Qed.

Lemma server_do_transcribe_missing_input filename sid :
  WHISPER_AVAILABLE w = true ->
  meta j = MetaTranscribe filename sid ->
  path_exists w (path_join DOWNLOADS_DIR filename) = false ->
  rejected_with "file not found" job_id j s (exec (Server.do_transcribe w job_id) s).
Proof.
  intros Hw Hm He. unfold Server.do_transcribe. rewrite Hw. cbn [negb]. run_to_rejection. rewrite Hm.
  rewrite He; rejected.
Qed.

Lemma app_do_clip_missing_input filename start end_ text flip sid out :
  meta j = MetaClip filename start end_ text flip sid out ->
  path_exists w (path_join DOWNLOADS_DIR filename) = false ->
  rejected_with "input file not found" job_id j s (exec (App.do_clip w job_id) s).
Proof.
  intros Hm He. unfold App.do_clip. run_to_rejection. rewrite Hm.
  destruct (truthy_str out); simpl; rewrite He; rejected.
Qed.

Lemma app_do_template_clip_missing_input filename start end_ template out sid :
  meta j = MetaTemplateClip filename start end_ template out sid ->
  path_exists w (path_join DOWNLOADS_DIR filename) = false ->
  rejected_with "input file not found" job_id j s (exec (App.do_template_clip w job_id) s).
Proof.
  intros Hm He. unfold App.do_template_clip. run_to_rejection. rewrite Hm.
  destruct (truthy_str out); simpl; rewrite He; rejected.
Qed.

Lemma app_do_transcribe_missing_input filename sid :
  meta j = MetaTranscribe filename sid ->
  path_exists w (path_join DOWNLOADS_DIR filename) = false ->
  rejected_with "file not found" job_id j s (exec (App.do_transcribe w job_id) s).
Proof.
  intros Hm He. unfold App.do_transcribe. run_to_rejection. rewrite Hm.
  rewrite He; rejected.
Qed.

Lemma server_do_transcribe_unavailable :
  WHISPER_AVAILABLE w = false ->
  rejected_with "faster-whisper not available" job_id j s
    (exec (Server.do_transcribe w job_id) s) /\
  emitted (exec (Server.do_transcribe w job_id) s)
  = (emitted s ++
      [JobUpdate (Some (with_error "faster-whisper not available" (with_status Error j)))])%list.
Proof.
  intros Hw. unfold Server.do_transcribe. rewrite Hw. simpl.
  unfold exec. rewrite (fail_state job_id _ s j Hj). simpl.
  unfold rejected_with. simpl. rewrite lookup_insert_eq. done.
Qed.

End MissingInput.

(** A handler gives up before doing any work when what it needs is not
    there: when the source video is not in the downloads folder, and, for
    [server.do_transcribe], when the transcription engine could not be
    imported, whatever the job.  The job gets the status [Error] and the
    message of the handler; no transcoder is launched, no session folder is
    written and no clip is recorded. *)
Theorem unmet_preconditions_are_rejected (w : world) (s : state) (job_id : nat)
    (j : job job_meta) :
  jobs s !! job_id = Some j ->
  (WHISPER_AVAILABLE w = false ->
   Outcomes.rejected_with "faster-whisper not available" job_id j s
     (exec (Server.do_transcribe w job_id) s)) /\
  (forall filename,
     path_exists w (path_join DOWNLOADS_DIR filename) = false ->
     (forall start end_ text flip sid out,
        meta j = MetaClip filename start end_ text flip sid out ->
        Outcomes.rejected_with "input file not found" job_id j s
          (exec (Server.do_clip w job_id) s) /\
        Outcomes.rejected_with "input file not found" job_id j s
          (exec (App.do_clip w job_id) s)) /\
     (forall template sid,
        meta j = MetaClipTemplate filename template sid ->
        Outcomes.rejected_with "input file not found" job_id j s
          (exec (Server.do_clip_with_template w job_id) s)) /\
     (forall start end_ template out sid,
        meta j = MetaTemplateClip filename start end_ template out sid ->
        Outcomes.rejected_with "input file not found" job_id j s
          (exec (App.do_template_clip w job_id) s)) /\
     (forall sid,
        meta j = MetaTranscribe filename sid ->
        (WHISPER_AVAILABLE w = true ->
         Outcomes.rejected_with "file not found" job_id j s
           (exec (Server.do_transcribe w job_id) s)) /\
        Outcomes.rejected_with "file not found" job_id j s
          (exec (App.do_transcribe w job_id) s))).
Proof.
  intros Hj. split.
  { intros Hw. by apply server_do_transcribe_unavailable. }
  intros filename He. split; [|split; [|split]].
  - intros start end_ text flip sid out Hm. split.
    + by eapply server_do_clip_missing_input.
    + by eapply app_do_clip_missing_input.
  - intros template sid Hm. by eapply server_do_clip_with_template_missing_input.
  - intros start end_ template out sid Hm. by eapply app_do_template_clip_missing_input.
  - intros sid Hm. split.
    + intros Hw. by eapply server_do_transcribe_missing_input.
    + by eapply app_do_transcribe_missing_input.
Qed.

Lemma unmet_preconditions_witness :
  exists j,
    jobs (exec (submit "clip" clip_meta) initial_state) !! 0%nat = Some j /\
    Outcomes.rejected_with "input file not found" 0 j
      (exec (submit "clip" clip_meta) initial_state)
      (exec (Server.do_clip Outcomes.no_files 0)
         (exec (submit "clip" clip_meta) initial_state)).
Proof.
  eexists. split; [vm_compute; reflexivity|].
  refine (proj1 (proj1 (proj2 (unmet_preconditions_are_rejected Outcomes.no_files _ 0%nat _ _)
                          "v.mp4" _) _ _ _ _ _ _ _)).
  - vm_compute. reflexivity.
  - reflexivity.
  - reflexivity.
Defined.

Section TranscoderFailure.
Import Outcomes.

Variables (w : world) (job_id : nat) (j : job job_meta).

Lemma wp_pointwise {A} (m m' : M A) Q E s : m s = m' s -> wp m' Q E s -> wp m Q E s.
Proof. unfold wp. by intros ->. Qed.

(** With a duration that is not zero, one turn of the read loop returns. *)
Lemma server_read_line_returns ev duration line k cmds s :
  Qeq_bool duration 0 = false ->
  untouched job_id j k cmds s ->
  wp (Server.read_line job_id ev duration line) (fun _ => untouched job_id j k cmds)
     (fun _ _ => False) s.
Proof.
  intros Hd Hs. pose proof Hs as ((j' & Hj' & Hres) & Hk & Hl). unfold Server.read_line.
  destruct (line_secs line) as [secs|]; [|by apply wp_ret].
  unfold py_div. rewrite Hd. apply wp_bind, wp_ret.
  apply wp_bind. eapply wp_set_job; [exact Hj'|].
  apply wp_bind. unfold wp at 1. simpl.
  apply wp_bind. eapply wp_set_job; [simpl; apply lookup_insert_eq|].
  apply wp_bind. eapply wp_get_job; [simpl; apply lookup_insert_eq|].
  apply wp_bind. unfold wp at 1. simpl.
  unfold wp. simpl. split; [|done].
  eexists. split; [apply lookup_insert_eq | done].
Qed.

Lemma app_read_line_percent_of ev duration line s :
  App.read_line job_id ev (App.percent_of duration) line s
  = Server.read_line job_id ev duration line s.
Proof.
  unfold App.read_line, Server.read_line, App.percent_of, App.touch, py_div.
  destruct (line_secs line); [|done]. destruct (Qeq_bool duration 0); [done|].
  unfold mbind, M_bind, mret, M_ret, set_job, time_time.
  destruct (jobs s !! job_id); [|done]. simpl. by rewrite lookup_insert_eq.
Qed.

Lemma read_loop_returns (read : string -> M unit) k cmds lines s :
  (forall line s, untouched job_id j k cmds s ->
                  wp (read line) (fun _ => untouched job_id j k cmds) (fun _ _ => False) s) ->
  untouched job_id j k cmds s ->
  wp (for_each lines read) (fun _ => untouched job_id j k cmds) (fun _ _ => False) s.
Proof. intros Hread Hs. apply wp_for_each; [|done]. intros line s' _. apply Hread. Qed.

Lemma server_read_loop_returns ev duration k cmds lines s :
  Qeq_bool duration 0 = false ->
  untouched job_id j k cmds s ->
  wp (for_each lines (Server.read_line job_id ev duration)) (fun _ => untouched job_id j k cmds)
     (fun _ _ => False) s.
Proof.
  intros Hd. apply read_loop_returns. intros line s'. by apply server_read_line_returns.
Qed.

Lemma app_read_loop_returns ev duration k cmds lines s :
  Qeq_bool duration 0 = false ->
  untouched job_id j k cmds s ->
  wp (for_each lines (App.read_line job_id ev (App.percent_of duration)))
     (fun _ => untouched job_id j k cmds) (fun _ _ => False) s.
Proof.
  intros Hd. apply read_loop_returns. intros line s' Hs'.
  eapply wp_pointwise; [apply app_read_line_percent_of|].
  by apply server_read_line_returns.
Qed.

(** The [except] clause of [server.py] after a failure of the transcoder. *)
Lemma wp_report_failure e k cmds E s :
  untouched job_id j k cmds s ->
  wp (kill ;; fail job_id e)
     (fun _ s' =>
        job_has job_id (fun j' => status j' = Error /\ error j' = Some e /\
                                  result j' = result j) s' /\
        killed s' = S k /\ launched s' = cmds) E s.
Proof.
  intros ((j' & Hj' & Hres) & Hk & Hl). apply wp_bind. unfold wp at 1. simpl.
  unfold wp. rewrite (fail_state job_id e _ j'); [|done]. simpl.
  split; [|by rewrite Hk]. eexists. split; [apply lookup_insert_eq | done].
Qed.

Lemma wp_report_failure_touch e k cmds E s :
  untouched job_id j k cmds s ->
  wp (kill ;; App.fail_touch job_id e)
     (fun _ s' =>
        job_has job_id (fun j' => status j' = Error /\ error j' = Some e /\
                                  result j' = result j) s' /\
        killed s' = S k /\ launched s' = cmds) E s.
Proof.
  intros ((j' & Hj' & Hres) & Hk & Hl). apply wp_bind. unfold wp at 1. simpl.
  unfold wp, App.fail_touch, App.touch, mbind, M_bind, set_job, time_time, push_job_update.
  simpl. rewrite Hj'. repeat (progress (simpl; rewrite ?lookup_insert_eq)).
  split; [|by rewrite Hk]. eexists. split; [apply lookup_insert_eq | done].
Qed.

(** The body of the [try] once the transcoder has exited with a code that
    is not zero. *)
Lemma wp_failed_wait (read_loop finish : M unit) (handler : string -> M unit) Q s k cmds :
  returncode w ≠ 0%Z ->
  untouched job_id j k cmds s ->
  wp read_loop (fun _ => untouched job_id j k cmds) (fun _ _ => False) s ->
  (forall s', untouched job_id j k cmds s' ->
     wp (handler ("ffmpeg failed with code " ++ pretty (returncode w))) Q
        (fun _ _ => False) s') ->
  wp (try_except (read_loop ;; Server.wait_process w ;; finish) handler) Q
     (fun _ _ => False) s.
Proof.
  intros Hrc Hs Hloop Hhandler. apply wp_try_except, wp_bind.
  eapply wp_mono; [| |exact Hloop]; [|done].
  intros ? s1 H1. cbv beta. apply wp_bind. unfold Server.wait_process.
  destruct (Z.eqb_spec (returncode w) 0) as [|_]; [done|].
  apply wp_raise. by apply Hhandler.
Qed.

Variable s : state.
Hypothesis Hj : jobs s !! job_id = Some j.
Hypothesis Hpopen : popen_error w = None.
Hypothesis Hrc : returncode w ≠ 0%Z.

Lemma reported cmd s' :
  (job_has job_id (fun j' => status j' = Error /\
                             error j' = Some ("ffmpeg failed with code " ++ pretty (returncode w)) /\
                             result j' = result j) s' /\
   killed s' = S (killed s) /\ launched s' = (launched s ++ [cmd])%list) ->
  reported_failure (returncode w) job_id j s s'.
Proof.
  intros (Hjob & Hk & Hl). split; [done|]. split; [done|].
  rewrite Hl, length_app. simpl. lia.
Qed.

Ltac start_handler :=
  apply wp_bind; eapply wp_set_job; [exact Hj|];
  apply wp_bind; unfold wp at 1; simpl;
  apply wp_bind; unfold get_meta; apply wp_bind;
  eapply wp_get_job; [simpl; apply lookup_insert_eq|]; unfold wp at 1; simpl.

(** Records what holds once the transcoder is launched. *)
Ltac launched_once :=
  match goal with
  | H1 : untouched _ _ _ _ _ |- wp _ _ _ (set_launched (?l ++ [?c])%list ?s0) =>
      assert (untouched job_id j (killed s) (launched s ++ [c])%list
                (set_launched (l ++ [c])%list s0))
        by (destruct H1 as (? & ? & Hl); split; [done|]; split; [done|];
            simpl; by rewrite Hl)
  end.

Ltac still_untouched :=
  split; [eexists; split; [simpl; apply lookup_insert_eq | done] | done].

Lemma server_do_clip_reports_failure filename start end_ text flip sid out :
  meta j = MetaClip filename start end_ text flip sid out ->
  path_exists w (path_join DOWNLOADS_DIR filename) = true ->
  (start < end_)%Q ->
  makedirs_error w (path_join CLIPS_DIR (splitext_root w filename)) = None ->
  reported_failure (returncode w) job_id j s (exec (Server.do_clip w job_id) s).
Proof.
  intros Hm Hex Hlt Hmk.
  assert (Hd : Qle_bool (end_ - start) 0 = false).
  { apply not_true_iff_false. rewrite Qle_bool_iff. lra. }
  assert (Hz : Qeq_bool (end_ - start) 0 = false).
  { apply not_true_iff_false. rewrite Qeq_bool_iff. lra. }
  apply (wp_exec _ (reported_failure (returncode w) job_id j s)).
  eapply wp_mono with (E := fun _ _ => False); [intros ? ? H; exact H | done |].
  unfold Server.do_clip. start_handler. rewrite Hm.
  apply wp_bind.
  eapply (wp_mono _ (fun _ => untouched job_id j (killed s) (launched s)) _ (fun _ _ => False));
    [|done|destruct (truthy_str out); unfold wp; simpl; still_untouched].
  intros output_name s1 H1. cbv beta. rewrite Hex, Hd. cbn [negb].
  apply wp_bind. unfold makedirs. rewrite Hmk. unfold wp at 1. simpl.
  apply wp_bind. unfold wp at 1. simpl.
  apply wp_bind. unfold wp at 1, popen. rewrite Hpopen. simpl.
  launched_once.
  eapply wp_failed_wait; [exact Hrc | eassumption | by apply server_read_loop_returns |].
  intros s' Hs'.
  eapply wp_mono with (E := fun _ _ => False); [| |by apply wp_report_failure]; [|done].
  intros ? s2 H2'. cbv beta in H2'. by eapply reported.
Qed.

Lemma app_do_clip_reports_failure filename start end_ text flip sid out :
  meta j = MetaClip filename start end_ text flip sid out ->
  path_exists w (path_join DOWNLOADS_DIR filename) = true ->
  (start < end_)%Q ->
  text ≠ "" ->
  reported_failure (returncode w) job_id j s (exec (App.do_clip w job_id) s).
Proof.
  intros Hm Hex Hlt Htext.
  assert (Hd : Qle_bool (end_ - start) 0 = false).
  { apply not_true_iff_false. rewrite Qle_bool_iff. lra. }
  assert (Hz : Qeq_bool (end_ - start) 0 = false).
  { apply not_true_iff_false. rewrite Qeq_bool_iff. lra. }
  apply String.eqb_neq in Htext.
  apply (wp_exec _ (reported_failure (returncode w) job_id j s)).
  eapply wp_mono with (E := fun _ _ => False); [intros ? ? H; exact H | done |].
  unfold App.do_clip, App.finish. start_handler. rewrite Hm.
  apply wp_bind.
  eapply (wp_mono _ (fun _ => untouched job_id j (killed s) (launched s)) _ (fun _ _ => False));
    [|done|destruct (truthy_str out); unfold wp; simpl; still_untouched].
  intros output_name s1 H1. cbv beta. rewrite Hex, Hd, Htext. cbn [negb].
  apply wp_bind, wp_ret.
  apply wp_bind. unfold wp at 1, popen. rewrite Hpopen. simpl.
  launched_once.
  eapply wp_failed_wait; [exact Hrc | eassumption | by apply app_read_loop_returns |].
  intros s' Hs'.
  eapply wp_mono with (E := fun _ _ => False);
    [| |by apply wp_report_failure_touch]; [|done].
  intros ? s2 H2'. cbv beta in H2'. by eapply reported.
Qed.

Lemma app_do_template_clip_reports_failure filename start end_ template out sid draws :
  meta j = MetaTemplateClip filename start end_ template out sid ->
  path_exists w (path_join DOWNLOADS_DIR filename) = true ->
  (start < end_)%Q ->
  Layout.layout (a_resolution template) (a_texts template) = inr draws ->
  reported_failure (returncode w) job_id j s (exec (App.do_template_clip w job_id) s).
Proof.
  intros Hm Hex Hlt Hlayout.
  assert (Hd : Qle_bool (end_ - start) 0 = false).
  { apply not_true_iff_false. rewrite Qle_bool_iff. lra. }
  assert (Hz : Qeq_bool (end_ - start) 0 = false).
  { apply not_true_iff_false. rewrite Qeq_bool_iff. lra. }
  apply (wp_exec _ (reported_failure (returncode w) job_id j s)).
  eapply wp_mono with (E := fun _ _ => False); [intros ? ? H; exact H | done |].
  unfold App.do_template_clip, App.finish. start_handler. rewrite Hm.
  apply wp_bind.
  eapply (wp_mono _ (fun _ => untouched job_id j (killed s) (launched s)) _ (fun _ _ => False));
    [|done|destruct (truthy_str out); unfold wp; simpl; still_untouched].
  intros output_name s1 H1. cbv beta. rewrite Hex, Hd, Hlayout. cbn [negb].
  apply wp_bind. unfold wp at 1, popen. rewrite Hpopen. simpl.
  launched_once.
  eapply wp_failed_wait; [exact Hrc | eassumption | by apply app_read_loop_returns |].
  intros s' Hs'.
  eapply wp_mono with (E := fun _ _ => False);
    [| |by apply wp_report_failure_touch]; [|done].
  intros ? s2 H2'. cbv beta in H2'. by eapply reported.
Qed.

End TranscoderFailure.

(** When the transcoder exits with a code that is not zero, the clip
    handlers that check the range report it: the job ends in error with the
    message [ffmpeg failed with code <code>] and without a result of its
    own, the process is killed once, and exactly one command was
    launched. *)
Theorem transcoder_failure_is_reported (w : world) (s : state) (job_id : nat)
    (j : job job_meta) (filename : string) (start end_ : Q) :
  jobs s !! job_id = Some j ->
  popen_error w = None ->
  returncode w ≠ 0%Z ->
  path_exists w (path_join DOWNLOADS_DIR filename) = true ->
  (start < end_)%Q ->
  (forall text flip sid out,
     meta j = MetaClip filename start end_ text flip sid out ->
     (makedirs_error w (path_join CLIPS_DIR (splitext_root w filename)) = None ->
      Outcomes.reported_failure (returncode w) job_id j s
        (exec (Server.do_clip w job_id) s)) /\
     (text ≠ "" ->
      Outcomes.reported_failure (returncode w) job_id j s
        (exec (App.do_clip w job_id) s))) /\
  (forall template out sid draws,
     meta j = MetaTemplateClip filename start end_ template out sid ->
     Layout.layout (a_resolution template) (a_texts template) = inr draws ->
     Outcomes.reported_failure (returncode w) job_id j s
       (exec (App.do_template_clip w job_id) s)).
Proof.
  intros Hj Hpopen Hrc Hex Hlt. split.
  - intros text flip sid out Hm. split.
    + intros Hmk. by eapply server_do_clip_reports_failure.
    + intros Htext. by eapply app_do_clip_reports_failure.
  - intros template out sid draws Hm Hlayout.
    by eapply app_do_template_clip_reports_failure.
Qed.

Lemma transcoder_failure_witness :
  Outcomes.reported_failure 1 0 Outcomes.some_clip
    (exec (submit "clip" clip_meta) initial_state)
    (exec (Server.do_clip (with_returncode 1 quiet_world) 0)
       (exec (submit "clip" clip_meta) initial_state)).
Proof.
  refine (proj1 (proj1 (transcoder_failure_is_reported (with_returncode 1 quiet_world)
                          _ 0%nat Outcomes.some_clip "v.mp4" 10 15 _ _ _ _ _)
                   "Hi" false (Some "s1") None _) _).
  - vm_compute. reflexivity.
  - reflexivity.
  - discriminate.
  - reflexivity.
  - reflexivity.
  - reflexivity.
  - reflexivity.
Defined.


(** [app.do_clip] assigns its command under [if text:] only, so a clip job
    without a text never launches the transcoder: whatever the file and the
    range, the worker leaves the job in error, with the result it had. *)
Theorem app_clip_without_text_fails (w : world) (s : state) (job_id : nat)
    (rest : list nat) (j : job job_meta) (filename : string) (start end_ : Q)
    (flip : bool) (sid out : option string) :
  job_queue s = job_id :: rest ->
  jobs s !! job_id = Some j ->
  kind j = "clip" ->
  meta j = MetaClip filename start end_ "" flip sid out ->
  launched (exec (App.worker_loop w) s) = launched s /\
  job_has job_id
    (fun j' => status j' = Error /\ is_Some (error j') /\ result j' = result j)
    (exec (App.worker_loop w) s).
Proof.
  intros Hq Hj Hkind Hm.
  unfold exec, App.worker_loop. rewrite Hq.
  unfold lookup_job, try_finally, try_except, task_done, App.run_job, mbind, M_bind.
  simpl. rewrite Hj, Hkind. simpl.
  unfold App.do_clip, get_meta, fail, mbind, M_bind, set_job, get_job, push_job_update,
    time_time, raise.
  simpl. rewrite Hj. simpl. rewrite lookup_insert_eq. simpl. rewrite Hm.
  destruct (truthy_str out); simpl;
    destruct (path_exists w (path_join DOWNLOADS_DIR filename)); simpl;
    repeat (progress (simpl; rewrite ?lookup_insert_eq));
    try (destruct (Qle_bool (end_ - start) 0); simpl;
         repeat (progress (simpl; rewrite ?lookup_insert_eq)));
    (split; [done|]); eexists; (split; [apply lookup_insert_eq|]); simpl; eauto.
Qed.

Lemma app_clip_without_text_witness :
  launched
    (exec (App.worker_loop quiet_world)
       (exec (submit "clip" (MetaClip "v.mp4" 10 15 "" false None None)) initial_state))
  = [].
Proof.
  refine (proj1 (app_clip_without_text_fails quiet_world _ 0%nat [] _ "v.mp4" 10 15
                   false None None _ _ _ _)).
  - vm_compute. reflexivity.
  - vm_compute. reflexivity.
  - reflexivity.
  - reflexivity.
Defined.

Section TranscriptFacts.
Import Outcomes.

Variables (w : world) (job_id : nat).









Variables (s : state) (j : job job_meta) (filename : string) (sid : option string).
Hypothesis Hj : jobs s !! job_id = Some j.
Hypothesis Hm : meta j = MetaTranscribe filename sid.
Hypothesis Hex : path_exists w (path_join DOWNLOADS_DIR filename) = true.
Hypothesis Hmodel : model_error w = None.
Hypothesis Hengine : transcription_error w = None.
Hypothesis Hwrite : write_error w = None.
Hypothesis Hcopy :
  truthy_str sid = true ->
  makedirs_error w (path_join SESSIONS_DIR (default "" sid)) = None /\
  copy_error w = None.

Ltac start_handler :=
  apply wp_bind; eapply wp_set_job; [exact Hj|];
  apply wp_bind; unfold wp at 1; simpl;
  apply wp_bind; unfold get_meta; apply wp_bind;
  eapply wp_get_job; [simpl; apply lookup_insert_eq|]; unfold wp at 1; simpl.




End TranscriptFacts.




Section MarkerParsing.
Import Markers.

Local Open Scope string_scope.


Lemma digit_not_dot c : is_digit c = true -> c <> "."%char.
Proof. unfold is_digit. intros H ->. vm_compute in H. done. Qed.



Lemma count_char_app c s1 s2 :
  count_char c (s1 ++ s2) = (count_char c s1 + count_char c s2)%nat.
Proof. induction s1 as [|a s1 IH]; [done|]. simpl. rewrite IH. lia. Qed.









(** *** Finding the marker in a line *)








Lemma append_assoc (s1 s2 s3 : string) : (s1 ++ s2) ++ s3 = s1 ++ (s2 ++ s3).
Proof.
  induction s1 as [|c s1 IH]; [done|].
  change (String c ((s1 ++ s2) ++ s3) = String c (s1 ++ (s2 ++ s3))). by rewrite IH.
Qed.



End MarkerParsing.






Section SocketFacts.
Import Sockets.

Local Open Scope list_scope.

Context {Msg : Type}.

Lemma send_all_spec alive meanwhile (message : Msg) snapshot : forall k living m,
  (send_all alive meanwhile message k snapshot living m).1
    = living ++ base.filter (fun ws => alive ws = true) snapshot /\
  sent (send_all alive meanwhile message k snapshot living m).2
    = sent m ++ map (fun ws => (ws, message)) (base.filter (fun ws => alive ws = true) snapshot) /\
  closed (send_all alive meanwhile message k snapshot living m).2
    = closed m ++ base.filter (fun ws => alive ws = false) snapshot.
Proof.
  induction snapshot as [|ws rest IH]; intros k living m; simpl.
  { by rewrite !app_nil_r. }
  destruct (alive ws) eqn:Hws.
  - rewrite filter_cons_True, filter_cons_False by (done || congruence).
    destruct (IH (S k) (living ++ [ws])
                {| active := meanwhile k (active m); sent := sent m ++ [(ws, message)];
                   closed := closed m |}) as (-> & -> & ->).
    simpl. by rewrite <- !app_assoc.
  - rewrite filter_cons_False, filter_cons_True by (done || congruence).
    destruct (IH (S k) living
                {| active := meanwhile k (active m); sent := sent m;
                   closed := closed m ++ [ws] |}) as (-> & -> & ->).
    simpl. by rewrite <- !app_assoc.
Qed.

Lemma broadcast_spec alive meanwhile (message : Msg) m :
  active (broadcast alive meanwhile message m)
    = base.filter (fun ws => alive ws = true) (active m) /\
  sent (broadcast alive meanwhile message m)
    = sent m ++ map (fun ws => (ws, message)) (base.filter (fun ws => alive ws = true) (active m)) /\
  closed (broadcast alive meanwhile message m)
    = closed m ++ base.filter (fun ws => alive ws = false) (active m).
Proof.
  unfold broadcast.
  pose proof (send_all_spec alive meanwhile message (active m) 0 [] m) as (H1 & H2 & H3).
  destruct (send_all alive meanwhile message 0 (active m) [] m) as [living m'].
  simpl in *. by subst.
Qed.

Lemma remove_first_absent ws l : ws ∉ l -> remove_first ws l = l.
Proof.
  induction l as [|y l IH]; [done|]. intros [Hne Hl]%not_elem_of_cons. simpl.
  destruct (decide (y = ws)); [congruence|]. by rewrite IH.
Qed.

Lemma remove_first_snoc ws l : ws ∉ l -> remove_first ws (l ++ [ws]) = l.
Proof.
  induction l as [|y l IH]; simpl.
  - intros _. by destruct (decide (ws = ws)).
  - intros [Hne Hl]%not_elem_of_cons.
    destruct (decide (y = ws)); [congruence|]. by rewrite IH.
Qed.

Lemma remove_first_nodup ws l :
  NoDup l -> remove_first ws l = base.filter (fun y => y ≠ ws) l.
Proof.
  induction 1 as [|y l Hy Hl IH]; [done|]. simpl.
  destruct (decide (y = ws)) as [->|Hne].
  - rewrite filter_cons_False by (intros H; by apply H).
    rewrite <- IH. symmetry. by apply remove_first_absent.
  - rewrite filter_cons_True by done. by rewrite IH.
Qed.

(** After a broadcast the manager holds exactly the sockets of its snapshot
    on which the send succeeded, in their order: each of them was sent the
    message once per occurrence, the others were closed, and whatever the
    other coroutines did to the list while the broadcast was suspended is
    overwritten; in particular a socket that connected meanwhile is no
    longer in the list. *)
Theorem broadcast_keeps_the_living alive meanwhile (message : Msg) (m : manager Msg) :
  active (broadcast alive meanwhile message m)
    = base.filter (fun ws => alive ws = true) (active m) /\
  sent (broadcast alive meanwhile message m)
    = sent m ++
      map (fun ws => (ws, message)) (base.filter (fun ws => alive ws = true) (active m)) /\
  closed (broadcast alive meanwhile message m)
    = closed m ++ base.filter (fun ws => alive ws = false) (active m) /\
  (forall ws, ws ∉ active m -> ws ∉ active (broadcast alive meanwhile message m)).
Proof.
  destruct (broadcast_spec alive meanwhile message m) as (Ha & Hs & Hc).
  split; [done|]. split; [done|]. split; [done|].
  intros ws Hws. rewrite Ha, list_elem_of_filter. tauto.
Qed.

(** [disconnect] never raises: on a socket that is not in the list it does
    nothing, and on a list without repetition it removes the socket and
    keeps the others in order; disconnecting a socket that has just
    connected restores the manager. *)
Theorem disconnect_removes_the_socket (ws : nat) (m : manager Msg) :
  (ws ∉ active m -> disconnect ws m = m) /\
  (NoDup (active m) ->
   active (disconnect ws m) = base.filter (fun y => y ≠ ws) (active m)) /\
  (ws ∉ active m -> disconnect ws <$> connect true ws m = Some m) /\
  sent (disconnect ws m) = sent m /\
  closed (disconnect ws m) = closed m.
Proof.
  unfold disconnect, connect. split; [|split; [|split; [|split]]].
  - intros Hws. by destruct (decide (ws ∈ active m)).
  - intros Hnd. destruct (decide (ws ∈ active m)) as [Hin|Hout]; simpl.
    + by apply remove_first_nodup.
    + rewrite <- (remove_first_nodup ws) by done. symmetry. by apply remove_first_absent.
  - intros Hws. simpl. f_equal.
    destruct (decide (ws ∈ active m ++ [ws])) as [_|Hout].
    + rewrite remove_first_snoc by done. by destruct m.
    + exfalso. apply Hout. apply elem_of_app. right. by left.
  - by destruct (decide (ws ∈ active m)).
  - by destruct (decide (ws ∈ active m)).
Qed.

End SocketFacts.

Lemma broadcast_keeps_the_living_witness :
  Sockets.active
    (Sockets.broadcast Sockets.first_alive Sockets.third_arrives "hi" Sockets.two_sockets)
  = [1%nat] /\
  3%nat ∉ Sockets.active
    (Sockets.broadcast Sockets.first_alive Sockets.third_arrives "hi" Sockets.two_sockets).
Proof.
  destruct (broadcast_keeps_the_living Sockets.first_alive Sockets.third_arrives "hi"
              Sockets.two_sockets) as (Ha & _ & _ & Hnew).
  split; [exact Ha|]. apply Hnew. apply (bool_decide_unpack _). vm_compute. exact I.
Defined.

Lemma disconnect_removes_the_socket_witness :
  Sockets.disconnect 3 Sockets.two_sockets = Sockets.two_sockets /\
  Sockets.active (Sockets.disconnect 1 Sockets.two_sockets) = [2%nat].
Proof.
  split.
  - apply (disconnect_removes_the_socket 3 Sockets.two_sockets).
    apply (bool_decide_unpack _). vm_compute. exact I.
  - refine (proj1 (proj2 (disconnect_removes_the_socket 1 Sockets.two_sockets)) _).
    apply (bool_decide_unpack _). vm_compute. exact I.
Defined.


Section FontFacts.
Import Fonts.

Local Open Scope list_scope.








End FontFacts.



Section RouteFacts.
Import Routes.

Lemma split_once_parts sep s :
  match split_once sep s with
  | [a] => a = s /\ Markers.count_char sep s = 0%nat
  | [a; b] => s = a ++ String sep b /\ Markers.count_char sep a = 0%nat
  | _ => False
  end.
Proof.
  induction s as [|c s IH]; [done|]. cbn [split_once Markers.count_char].
  destruct (Ascii.eqb_spec c sep) as [->|Hne]; [done|].
  destruct (split_once sep s) as [|a [|b [|? ?]]]; try done.
  - destruct IH as [-> Hc]. cbn [Markers.count_char].
    by destruct (Ascii.eqb_spec c sep).
  - destruct IH as [-> Hc]. cbn [Markers.count_char].
    by destruct (Ascii.eqb_spec c sep).
Qed.

Lemma split_once_cut sep a b :
  Markers.count_char sep a = 0%nat -> split_once sep (a ++ String sep b) = [a; b].
Proof.
  induction a as [|c a IH]; cbn [Markers.count_char].
  - intros _. change ("" ++ String sep b) with (String sep b). cbn [split_once].
    by rewrite Ascii.eqb_refl.
  - change (String c a ++ String sep b) with (String c (a ++ String sep b)).
    cbn [split_once]. destruct (Ascii.eqb c sep); [done|]. intros Hc.
    by rewrite IH.
Qed.

Lemma split_once_whole sep s :
  Markers.count_char sep s = 0%nat -> split_once sep s = [s].
Proof.
  induction s as [|c s IH]; [done|]. cbn [split_once Markers.count_char].
  destruct (Ascii.eqb c sep); [done|]. intros Hc. by rewrite IH.
Qed.

(** Whichever branch [get_clip_file] takes, the file it asks for is
    [clips/<filepath>]: the cut at the first separator only moves the first
    folder from the file name to the directory. *)
Theorem get_clip_file_serves_the_path :
  (forall filepath,
     path_join (get_clip_file filepath).1 (get_clip_file filepath).2
     = path_join "clips" filepath) /\
  (forall folder rest,
     Markers.count_char "/" folder = 0%nat ->
     get_clip_file (folder ++ "/" ++ rest) = (path_join "clips" folder, rest)) /\
  (forall filepath,
     Markers.count_char "/" filepath = 0%nat ->
     get_clip_file filepath = ("clips", filepath)).
Proof.
  split; [|split].
  - intros filepath. unfold get_clip_file.
    pose proof (split_once_parts "/" filepath) as Hparts.
    destruct (split_once "/" filepath) as [|a [|b [|? ?]]]; try done.
    destruct Hparts as [-> _]. unfold path_join. simpl.
    change (String "/" b) with ("/" ++ b). by rewrite !append_assoc.
  - intros folder rest Hc. unfold get_clip_file.
    change ("/" ++ rest) with (String "/" rest). by rewrite split_once_cut.
  - intros filepath Hc. unfold get_clip_file. by rewrite split_once_whole.
Qed.

Lemma get_clip_file_witness :
  get_clip_file "talk/intro_17.mp4" = ("clips/talk", "intro_17.mp4") /\
  get_clip_file "old.mp4" = ("clips", "old.mp4").
Proof.
  destruct get_clip_file_serves_the_path as (_ & Hcut & Hwhole). split.
  - apply (Hcut "talk" "intro_17.mp4"). reflexivity.
  - apply Hwhole. reflexivity.
Defined.

End RouteFacts.

Section ListingFacts.
Import Routes.

Lemma prefix_append (a b : string) : String.prefix a (a ++ b) = true.
Proof.
  induction a as [|c a IH]; [by destruct b|].
  change (String c a ++ b) with (String c (a ++ b)). simpl.
  destruct (ascii_dec c c); [done | congruence].
Qed.

Lemma prefix_folder (folder name : string) :
  String.prefix (folder ++ "/") (folder ++ "/" ++ name) = true.
Proof. rewrite <- append_assoc. apply prefix_append. Qed.

Variable root : string -> string.

Lemma keeps_foldered_silent {A} (m : M A) :
  (forall s, clips_metadata (m s).2 = clips_metadata s) -> keeps (foldered root) m.
Proof. intros Hm s Hs key r. rewrite Hm. apply Hs. Qed.

Lemma keeps_foldered_set_clip_metadata key r :
  String.prefix (root (source_video r) ++ "/") key = true ->
  keeps (foldered root) (set_clip_metadata key r).
Proof.
  intros Hkey s Hs key' r'. unfold set_clip_metadata. simpl.
  destruct (decide (key' = key)) as [->|Hne].
  - rewrite lookup_insert_eq. by intros [= <-].
  - rewrite lookup_insert_ne by done. apply Hs.
Qed.

End ListingFacts.

(** A primitive under [foldered]: the record of a clip under the folder of
    its source, or an operation that leaves the records alone. *)
Ltac foldered_prim :=
  idtac;
  first
    [ apply keeps_foldered_set_clip_metadata; simpl; apply prefix_folder
    | apply keeps_foldered_silent; intros ?;
      cbv [Jobs.set_job Jobs.get_job Jobs.emit Jobs.create_task Jobs.push_job_update
           Jobs.time_time Jobs.kill Jobs.ensure_session Jobs.add_session_file
           Jobs.py_div Jobs.raise Jobs.popen Jobs.queue_get Jobs.lookup_job
           Jobs.task_done];
      repeat case_match; reflexivity ].

Section ListingInvariant.
Import Routes.

Variable w : world.

Lemma keeps_foldered_server_run_job kind job_id :
  keeps (foldered (splitext_root w)) (Server.run_job w kind job_id).
Proof.
  unfold Server.run_job, Server.do_download, Server.do_transcribe, Server.do_clip,
    Server.do_clip_with_template, fail.
  unfold_helpers. keeps_with foldered_prim.
Qed.

Lemma keeps_foldered_app_run_job kind job_id :
  keeps (foldered (splitext_root w)) (App.run_job w kind job_id).
Proof.
  unfold App.run_job, App.do_download, App.do_transcribe, App.do_clip,
    App.do_template_clip, App.do_merge, App.finish, App.fail_touch, fail.
  unfold_helpers. keeps_with foldered_prim.
Qed.

Lemma keeps_foldered_server_job_worker :
  keeps (foldered (splitext_root w)) (Server.job_worker w).
Proof.
  unfold Server.job_worker.
  keeps_with ltac:(first [apply keeps_foldered_server_run_job
                         | unfold fail; keeps_with foldered_prim ]).
Qed.

Lemma keeps_foldered_app_worker_loop :
  keeps (foldered (splitext_root w)) (App.worker_loop w).
Proof.
  intros s Hs. unfold App.worker_loop. destruct (job_queue s) as [|job_id rest]; [done|].
  assert (Hs' : foldered (splitext_root w) (set_job_queue rest s)) by exact Hs.
  revert Hs'. generalize (set_job_queue rest s). change (keeps (foldered (splitext_root w))
    (job ← lookup_job job_id;
     match job with
     | None => task_done
     | Some job =>
         try_finally
           (try_except (App.run_job w (kind job) job_id) (fun e => fail job_id e))
           task_done
     end)).
  keeps_with ltac:(first [apply keeps_foldered_app_run_job
                         | unfold fail; keeps_with foldered_prim ]).
Qed.

End ListingInvariant.

Section ListingTheorem.
Import Routes.

Lemma reachable_foldered root s : reachable root s -> foldered root s.
Proof.
  induction 1 as [|s kind m _ IH|s w <- _ IH|s w <- _ IH].
  - intros key r Hkey. done.
  - intros key r. unfold exec, submit, create_job. simpl. apply IH.
  - by apply keeps_foldered_server_job_worker.
  - by apply keeps_foldered_app_worker_loop.
Qed.

Lemma filter_none {A} (P : A -> Prop) `{forall x, Decision (P x)} (l : list A) :
  (forall x, x ∈ l -> ~ P x) -> base.filter P l = [].
Proof.
  induction l as [|x l IH]; [done|]. intros Hl.
  rewrite filter_cons_False by (apply Hl; by left). apply IH.
  intros y Hy. apply Hl. by right.
Qed.

(** However the program got to a state, every clip is recorded under the
    folder of its source video, so the second loop of
    [get_clips_for_video], which lists the clips recorded by their bare
    name, never lists anything. *)
Theorem legacy_listing_is_empty (root : string -> string) (s : state)
    (video_filename : string) :
  reachable root s ->
  foldered root s /\
  legacy_clips root video_filename (clips_metadata s) = [].
Proof.
  intros Hs. pose proof (reachable_foldered root s Hs) as Hf. split; [done|].
  unfold legacy_clips. apply filter_none. intros [key r] Hin.
  apply elem_of_map_to_list in Hin. unfold is_legacy. simpl.
  destruct (bool_decide_reflect (source_video r = video_filename)) as [<-|]; [|done].
  rewrite (Hf key r Hin). done.
Qed.

Lemma legacy_listing_witness :
  legacy_clips (fun p => p) "v.mp4"
    (clips_metadata
       (exec (Server.job_worker quiet_world)
          (exec (submit "clip" clip_meta) initial_state)))
  = [].
Proof.
  refine (proj2 (legacy_listing_is_empty (fun p => p) _ "v.mp4" _)).
  apply (reach_server _ _ quiet_world); [reflexivity|].
  apply reach_submit, reach_start.
Defined.

End ListingTheorem.

Section NameFacts.
Import Markers.

(** *** Names without separators *)

Lemma pretty_N_char_digit k : is_digit (pretty_N_char k) = true.
Proof. unfold pretty_N_char. by repeat case_match. Qed.

Lemma digit_not_slash c : is_digit c = true -> Ascii.eqb c "/" = false.
Proof.
  unfold is_digit. intros H. apply Ascii.eqb_neq. intros ->. vm_compute in H. done.
Qed.

Lemma count_slash_pretty_N_go x : forall s,
  count_char "/" (pretty_N_go x s) = count_char "/" s.
Proof.
  induction x as [x IH] using (well_founded_ind N.lt_wf_0). intros s.
  destruct (decide (0 < x)%N) as [Hpos|Hzero].
  - rewrite pretty_N_go_step by done. rewrite IH by (by apply N.div_lt).
    simpl. by rewrite (digit_not_slash _ (pretty_N_char_digit _)).
  - assert (x = 0%N) as -> by lia. by rewrite pretty_N_go_0.
Qed.

Lemma count_slash_pretty_nat (n : nat) : count_char "/" (pretty n) = 0%nat.
Proof.
  unfold pretty, pretty_nat, pretty, pretty_N.
  destruct (decide (N.of_nat n = 0%N)); [done|]. by rewrite count_slash_pretty_N_go.
Qed.

Lemma alnum_not_slash c : is_alnum c = true -> Ascii.eqb c "/" = false.
Proof.
  intros H. apply Ascii.eqb_neq. intros ->. vm_compute in H. done.
Qed.

Lemma count_slash_sanitize s : count_char "/" (sanitize s) = 0%nat.
Proof.
  induction s as [|c s IH]; [done|]. simpl. rewrite IH.
  destruct (is_alnum c) eqn:Ha; simpl.
  { by rewrite (alnum_not_slash c Ha). }
  destruct (Ascii.eqb_spec c "-") as [->|_]; [done|]. simpl.
  destruct (Ascii.eqb_spec c "_") as [->|_]; done.
Qed.

Lemma count_slash_safe_name s : count_char "/" (Tools.safe_name s) = 0%nat.
Proof.
  induction s as [|c s IH]; [done|]. simpl. rewrite IH.
  destruct (is_alnum c) eqn:Ha; simpl.
  { by rewrite (alnum_not_slash c Ha). }
  destruct (Ascii.eqb_spec c "-") as [->|_]; [done|]. simpl.
  destruct (Ascii.eqb_spec c "_") as [->|_]; [done|]. simpl.
  destruct (Ascii.eqb_spec c ".") as [->|_]; done.
Qed.

Lemma sanitize_length s : String.length (sanitize s) = String.length s.
Proof. induction s as [|c s IH]; [done|]. simpl. by rewrite IH. Qed.

Lemma sanitize_idempotent s : sanitize (sanitize s) = sanitize s.
Proof.
  induction s as [|c s IH]; [done|]. simpl. rewrite IH. f_equal.
  destruct (is_alnum c || Ascii.eqb c "-" || Ascii.eqb c "_") eqn:Hc; [by rewrite Hc|].
  reflexivity.
Qed.

End NameFacts.

(** [uuid_name] yields a name that can be used as a file name: it holds no
    path separator, whatever the string, so the list file of a merge lies
    directly in the clips folder; on ASCII strings the sanitized part has the length of the
    string and sanitizing it again changes nothing. *)
Theorem uuid_name_is_a_file_name (e : Tools.env) (s : string) :
  Markers.count_char "/" (Tools.uuid_name e s) = 0%nat /\
  Markers.count_char "/" ("merge_" ++ Tools.uuid_name e s ++ ".txt") = 0%nat /\
  String.length (sanitize s) = String.length s /\
  sanitize (sanitize s) = sanitize s.
Proof.
  unfold Tools.uuid_name, Tools.list_file_of, Tools.uuid_name, path_join, CLIPS_DIR.
  split; [|split; [|split]].
  - rewrite !count_char_app, count_slash_sanitize, count_slash_pretty_nat. done.
  - rewrite !count_char_app, count_slash_sanitize, count_slash_pretty_nat. done.
  - apply sanitize_length.
  - apply sanitize_idempotent.
Qed.

Section MergeFacts.
Import Tools.

Variables (e : env) (clips : list string) (output_name : string)
  (session_id : option string) (d : disk).

Lemma merge_clips_raises err :
  outcome_of (merge_clips e clips output_name session_id d) = Raise err ->
  list_file_of e output_name ∈ files (disk_after (merge_clips e clips output_name session_id d)).
Proof.
  unfold merge_clips, make_session_folder.
  destruct (first_missing _ clips); simpl.
  { intros _. set_solver. }
  destruct (Z.eqb (ffmpeg_returncode e) 0); simpl.
  2: { intros _. set_solver. }
  destruct (truthy_str session_id); simpl; [|done].
  destruct (makedirs_error e); simpl.
  - intros _. set_solver.
  - by destruct (copy_error e).
Qed.

Lemma removed_file_is_gone p (d' : disk) : p ∉ files (remove_file p d').
Proof.
  unfold remove_file. simpl. rewrite elem_of_difference. intros [_ Hp].
  apply Hp. by apply elem_of_singleton.
Qed.

Lemma merge_clips_returns name :
  outcome_of (merge_clips e clips output_name session_id d) = Ret name ->
  name = output_name /\
  (list_file_of e output_name
     ∉ files (disk_after (merge_clips e clips output_name session_id d))) /\
  first_missing (add_file (list_file_of e output_name) d) clips = None /\
  ffmpeg_returncode e = 0%Z /\
  commands (merge_clips e clips output_name session_id d)
  = [concat_command (list_file_of e output_name) (path_join CLIPS_DIR output_name)].
Proof.
  unfold merge_clips, make_session_folder.
  destruct (first_missing _ clips); [done|].
  destruct (Z.eqb_spec (ffmpeg_returncode e) 0) as [Hrc|]; [|done]. cbn [negb].
  destruct (truthy_str session_id).
  - destruct (makedirs_error e); [done|].
    destruct (copy_error e); cbn [outcome_of disk_after commands]; intros [= <-];
      (split; [done|]); (split; [apply removed_file_is_gone | done]).
  - cbn [outcome_of disk_after commands]. intros [= <-].
    split; [done|]. split; [apply removed_file_is_gone | done].
Qed.

Lemma merge_clips_missing full :
  first_missing (add_file (list_file_of e output_name) d) clips = Some full ->
  outcome_of (merge_clips e clips output_name session_id d) = Raise ("Clip not found: " ++ full) /\
  commands (merge_clips e clips output_name session_id d) = [].
Proof. unfold merge_clips. by intros ->. Qed.

Lemma merge_clips_goes_through :
  first_missing (add_file (list_file_of e output_name) d) clips = None ->
  ffmpeg_returncode e = 0%Z ->
  makedirs_error e = None ->
  outcome_of (merge_clips e clips output_name session_id d) = Ret output_name.
Proof.
  unfold merge_clips, make_session_folder. intros -> -> ->. simpl.
  destruct (truthy_str session_id); simpl; [|done]. by destruct (copy_error e).
Qed.

End MergeFacts.

(** [merge_clips] removes its list file only when it returns: when a clip
    is missing (the first one is named in the error, and no transcoder is
    run), when the transcoder exits with an error or when the session
    folder cannot be made, the list file stays in the clips folder.  When
    it returns, it returns the output name as given, and it does so
    whenever the clips are there, the transcoder exits with 0 and the
    session folder can be made: a failing copy into the session folder is
    ignored. *)
Theorem merge_clips_leaves_its_list_file_on_failure (e : Tools.env) (clips : list string)
    (output_name : string) (session_id : option string) (d : Tools.disk) :
  (forall err,
     Tools.outcome_of (Tools.merge_clips e clips output_name session_id d) = Raise err ->
     Tools.list_file_of e output_name
       ∈ Tools.files (Tools.disk_after (Tools.merge_clips e clips output_name session_id d))) /\
  (forall name,
     Tools.outcome_of (Tools.merge_clips e clips output_name session_id d) = Ret name ->
     name = output_name /\
     (Tools.list_file_of e output_name
        ∉ Tools.files (Tools.disk_after (Tools.merge_clips e clips output_name session_id d))) /\
     Tools.first_missing (Tools.add_file (Tools.list_file_of e output_name) d) clips = None /\
     Tools.ffmpeg_returncode e = 0%Z /\
     Tools.commands (Tools.merge_clips e clips output_name session_id d)
     = [Tools.concat_command (Tools.list_file_of e output_name)
          (path_join CLIPS_DIR output_name)]) /\
  (forall full,
     Tools.first_missing (Tools.add_file (Tools.list_file_of e output_name) d) clips
     = Some full ->
     Tools.outcome_of (Tools.merge_clips e clips output_name session_id d)
     = Raise ("Clip not found: " ++ full) /\
     Tools.commands (Tools.merge_clips e clips output_name session_id d) = []) /\
  (Tools.first_missing (Tools.add_file (Tools.list_file_of e output_name) d) clips = None ->
   Tools.ffmpeg_returncode e = 0%Z ->
   Tools.makedirs_error e = None ->
   Tools.outcome_of (Tools.merge_clips e clips output_name session_id d) = Ret output_name).
Proof.
  split; [|split; [|split]].
  - apply merge_clips_raises.
  - apply merge_clips_returns.
  - apply merge_clips_missing.
  - apply merge_clips_goes_through.
Qed.

Lemma merge_clips_witness :
  Tools.outcome_of
    (Tools.merge_clips (Tools.fine 0) ["a.mp4"; "b.mp4"] "out.mp4" (Some "s1") Tools.two_clips)
  = Ret "out.mp4" /\
  "clips/merge_out_mp4_7.txt"
    ∈ Tools.files
        (Tools.disk_after
           (Tools.merge_clips (Tools.fine 1) ["a.mp4"; "b.mp4"] "out.mp4" (Some "s1")
              Tools.two_clips)).
Proof.
  split.
  - apply (merge_clips_leaves_its_list_file_on_failure (Tools.fine 0)); reflexivity.
  - apply (proj1 (merge_clips_leaves_its_list_file_on_failure (Tools.fine 1)
                    ["a.mp4"; "b.mp4"] "out.mp4" (Some "s1") Tools.two_clips)
             "CalledProcessError").
    reflexivity.
Defined.

Section RenderFacts.
Import Tools.

Variables (e : env) (input_file : string) (start end_ : Q) (t : template)
  (output_name : string) (session_id : option string) (d : disk).

Lemma trim_of_render_command input filters output :
  trim_of (render_command (path_join DOWNLOADS_DIR input) start end_ filters output)
  = Some (end_ - start)%Q.
Proof. reflexivity. Qed.

Lemma render_template_clip_missing_input :
  path_exists d (path_join DOWNLOADS_DIR input_file) = false ->
  render_template_clip e input_file start end_ t output_name session_id d
  = {| outcome_of := Raise ("Input file not found: " ++ path_join DOWNLOADS_DIR input_file);
       disk_after := d; commands := [] |}.
Proof. unfold render_template_clip. by intros ->. Qed.

Lemma added_file_is_there p (d' : disk) : p ∈ files (add_file p d').
Proof. unfold add_file. simpl. apply elem_of_union. left. by apply elem_of_singleton. Qed.

Lemma added_file_stays p q (d' : disk) : p ∈ files d' -> p ∈ files (add_file q d').
Proof. intros Hp. unfold add_file. simpl. apply elem_of_union. by right. Qed.

Lemma render_template_clip_returns name :
  outcome_of (render_template_clip e input_file start end_ t output_name session_id d)
  = Ret name ->
  name = safe_name output_name ++ ".mp4" /\
  path_join CLIPS_DIR name
    ∈ files (disk_after
               (render_template_clip e input_file start end_ t output_name session_id d)) /\
  ffmpeg_returncode e = 0%Z /\
  commands (render_template_clip e input_file start end_ t output_name session_id d)
  = [render_command (path_join DOWNLOADS_DIR input_file) start end_ (vf_filters t)
       (path_join CLIPS_DIR name)].
Proof.
  unfold render_template_clip, make_session_folder, copy_clip.
  destruct (path_exists d _); [|done]. cbn [negb].
  destruct (truthy_str session_id).
  - destruct (makedirs_error e); [done|].
    destruct (Z.eqb_spec (ffmpeg_returncode e) 0) as [Hrc|]; [|done]. cbn [negb].
    destruct (cp e); [| |destruct (copy_error e); [done|]];
      cbn [outcome_of disk_after commands]; intros [= <-];
      (split; [done|]); (split; [|done]);
      auto using added_file_is_there, added_file_stays.
  - destruct (Z.eqb_spec (ffmpeg_returncode e) 0) as [Hrc|]; [|done].
    cbn [negb outcome_of disk_after commands]. intros [= <-].
    split; [done|]. split; [apply added_file_is_there | done].
Qed.

Lemma render_template_clip_goes_through :
  path_exists d (path_join DOWNLOADS_DIR input_file) = true ->
  ffmpeg_returncode e = 0%Z ->
  makedirs_error e = None ->
  cp e ≠ CpMissing ->
  outcome_of (render_template_clip e input_file start end_ t output_name session_id d)
  = Ret (safe_name output_name ++ ".mp4").
Proof.
  unfold render_template_clip, make_session_folder, copy_clip. intros -> -> -> Hcp.
  cbn [negb Z.eqb]. destruct (truthy_str session_id); [|done].
  by destruct (cp e).
Qed.

End RenderFacts.

(** [render_template_clip] writes its clip directly into the clips folder:
    the name it returns is the output name with every character outside
    letters, digits, [-], [_] and [.] replaced, followed by [.mp4], so it
    holds no path separator, and the file of that name is in the clips
    folder when the function returns.  It runs one command, whose trim
    length is [end - start] as given, without a check of its sign.  It
    raises before doing anything when the input is not in the downloads
    folder, and a [cp] command that fails does not make it raise. *)
Theorem render_template_clip_writes_into_clips (e : Tools.env) (input_file : string)
    (start end_ : Q) (t : Tools.template) (output_name : string)
    (session_id : option string) (d : Tools.disk) :
  (Tools.path_exists d (path_join DOWNLOADS_DIR input_file) = false ->
   Tools.render_template_clip e input_file start end_ t output_name session_id d
   = {| Tools.outcome_of :=
          Raise ("Input file not found: " ++ path_join DOWNLOADS_DIR input_file);
        Tools.disk_after := d; Tools.commands := [] |}) /\
  (forall name,
     Tools.outcome_of
       (Tools.render_template_clip e input_file start end_ t output_name session_id d)
     = Ret name ->
     name = Tools.safe_name output_name ++ ".mp4" /\
     Markers.count_char "/" name = 0%nat /\
     path_join CLIPS_DIR name
       ∈ Tools.files
           (Tools.disk_after
              (Tools.render_template_clip e input_file start end_ t output_name session_id d)) /\
     exists cmd,
       Tools.commands
         (Tools.render_template_clip e input_file start end_ t output_name session_id d)
       = [cmd] /\
       Tools.trim_of cmd = Some (end_ - start)%Q) /\
  (Tools.path_exists d (path_join DOWNLOADS_DIR input_file) = true ->
   Tools.ffmpeg_returncode e = 0%Z ->
   Tools.makedirs_error e = None ->
   Tools.cp e ≠ Tools.CpMissing ->
   Tools.outcome_of
     (Tools.render_template_clip e input_file start end_ t output_name session_id d)
   = Ret (Tools.safe_name output_name ++ ".mp4")).
Proof.
  split; [|split].
  - apply render_template_clip_missing_input.
  - intros name Hname.
    destruct (render_template_clip_returns e input_file start end_ t output_name
                session_id d name Hname) as (-> & Hfile & _ & Hcmd).
    split; [done|]. split; [|split; [done|]].
    + rewrite count_char_app, count_slash_safe_name. done.
    + eexists. split; [exact Hcmd|]. apply trim_of_render_command.
  - apply render_template_clip_goes_through.
Qed.

Lemma render_template_clip_witness :
  Tools.outcome_of
    (Tools.render_template_clip (Tools.fine 0) "v.mp4" 15 10
       {| Tools.resolution := None; Tools.texts := [] |} "../a b" (Some "s1")
       Tools.two_clips)
  = Ret ".._a_b.mp4".
Proof.
  apply (render_template_clip_writes_into_clips (Tools.fine 0) "v.mp4" 15 10
           {| Tools.resolution := None; Tools.texts := [] |} "../a b" (Some "s1")
           Tools.two_clips).
  - vm_compute. reflexivity.
  - reflexivity.
  - reflexivity.
  - discriminate.
Defined.

Section TemplateWithoutResolution.

Lemma layout_without_resolution resolution t texts :
  truthy_str resolution = false ->
  exists e, Layout.layout resolution (t :: texts) = inl e.
Proof.
  intros Hres. unfold Layout.layout, Layout.stacks_for.
  destruct resolution as [[|c r]|]; try done; simpl;
    destruct (Layout.estimated_h t); eauto.
Qed.

End TemplateWithoutResolution.

(** [app.do_template_clip] binds the layout constants and the stacking
    offsets under [if template.get("resolution"):], so a template with
    texts but without a resolution never reaches the transcoder: whatever
    the file and the range, the worker leaves the job in error, with the
    result it had. *)
Theorem app_template_without_resolution_fails (w : world) (s : state) (job_id : nat)
    (rest : list nat) (j : job job_meta) (filename : string) (start end_ : Q)
    (template : app_template) (out sid : option string) :
  job_queue s = job_id :: rest ->
  jobs s !! job_id = Some j ->
  kind j = "template_clip" ->
  meta j = MetaTemplateClip filename start end_ template out sid ->
  truthy_str (a_resolution template) = false ->
  a_texts template ≠ [] ->
  launched (exec (App.worker_loop w) s) = launched s /\
  job_has job_id
    (fun j' => status j' = Error /\ is_Some (error j') /\ result j' = result j)
    (exec (App.worker_loop w) s).
Proof.
  intros Hq Hj Hkind Hm Hres Htexts.
  destruct (a_texts template) as [|t texts] eqn:Ht; [done|].
  destruct (layout_without_resolution (a_resolution template) t texts Hres) as [e He].
  unfold exec, App.worker_loop. rewrite Hq.
  unfold lookup_job, try_finally, try_except, task_done, App.run_job, mbind, M_bind.
  simpl. rewrite Hj, Hkind. simpl.
  unfold App.do_template_clip, get_meta, fail, mbind, M_bind, set_job, get_job,
    push_job_update, time_time, raise.
  simpl. rewrite Hj. simpl. rewrite lookup_insert_eq. simpl. rewrite Hm, Ht, He.
  destruct (truthy_str out); simpl;
    destruct (path_exists w (path_join DOWNLOADS_DIR filename)); simpl;
    repeat (progress (simpl; rewrite ?lookup_insert_eq));
    try (destruct (Qle_bool (end_ - start) 0); simpl;
         repeat (progress (simpl; rewrite ?lookup_insert_eq)));
    (split; [done|]); eexists; (split; [apply lookup_insert_eq|]); simpl; eauto.
Qed.

Lemma app_template_without_resolution_witness :
  launched
    (exec (App.worker_loop quiet_world)
       (exec (submit "template_clip"
                (MetaTemplateClip "v.mp4" 10 15
                   {| a_resolution := None; a_texts := Layout.three_bottom |} None None))
          initial_state))
  = [].
Proof.
  refine (proj1 (app_template_without_resolution_fails quiet_world _ 0%nat [] _ "v.mp4"
                   10 15 {| a_resolution := None; a_texts := Layout.three_bottom |}
                   None None _ _ _ _ _ _)).
  - vm_compute. reflexivity.
  - vm_compute. reflexivity.
  - reflexivity.
  - reflexivity.
  - reflexivity.
  - discriminate.
Defined.

Section CleanupAgain.
Import Cleanup.

Lemma survivor_idempotent dc dv name e :
  survivor dc dv name (survivor dc dv name e) = survivor dc dv name e.
Proof.
  destruct e as [[]|]; simpl; try done.
  by destruct (doomed dc dv name) eqn:E; simpl; rewrite ?E.
Qed.

(** A folder that was swept is left as it is by a second sweep. *)
Lemma swept_twice body dc dv (d : gmap string entry) :
  (forall d fname, body d fname = if doomed dc dv fname then try_remove fname d else d) ->
  foldl body (foldl body d (listdir d)) (listdir (foldl body d (listdir d)))
  = foldl body d (listdir d).
Proof.
  intros Hbody. apply map_eq. intros name.
  rewrite (swept_lookup body dc dv _ name Hbody).
  rewrite (swept_lookup body dc dv d name Hbody).
  apply survivor_idempotent.
Qed.

Lemma cleanup_with_twice body dc dv sid (fs : gmap string (gmap string entry)) :
  (forall d fname, body d fname = if doomed dc dv fname then try_remove fname d else d) ->
  (cleanup_with body sid (cleanup_with body sid fs).2).2 = (cleanup_with body sid fs).2 /\
  (cleanup_with body sid (cleanup_with body sid fs).2).1
  = bool_decide (is_Some ((cleanup_with body sid fs).2 !! sid)).
Proof.
  intros Hbody.
  destruct (fs !! sid) as [d|] eqn:Hd.
  - assert (E : cleanup_with body sid fs
                = (true, rmdir_if_empty sid (foldl body d (listdir d)) fs))
      by (unfold cleanup_with; by rewrite Hd).
    rewrite E. cbn [fst snd]. unfold rmdir_if_empty.
    destruct (listdir (foldl body d (listdir d))) as [|n l] eqn:Hl.
    + unfold cleanup_with. rewrite lookup_delete_eq. cbn [fst snd]. split; [done|].
      symmetry. apply bool_decide_eq_false. by intros [? ?].
    + unfold cleanup_with. rewrite lookup_insert_eq. cbn [fst snd].
      rewrite (swept_twice body dc dv d Hbody).
      unfold rmdir_if_empty. rewrite Hl. split.
      * apply insert_insert_eq.
      * symmetry. apply bool_decide_eq_true. eauto.
  - assert (E : cleanup_with body sid fs = (false, fs))
      by (unfold cleanup_with; by rewrite Hd).
    rewrite E. cbn [fst snd]. rewrite E. cbn [fst snd]. split; [done|].
    symmetry. apply bool_decide_eq_false. rewrite Hd. by intros [? ?].
Qed.

Lemma foldl_pointwise {A B} (f g : A -> B -> A) (l : list B) :
  (forall a b, f a b = g a b) -> forall a, foldl f a l = foldl g a l.
Proof.
  intros Hfg. induction l as [|b l IH]; intros a; simpl; [done|].
  by rewrite Hfg, IH.
Qed.

End CleanupAgain.

(** The cleanup of [video_tools.py] and the one of [app.py] are the same
    function: the branch that the first one has for [.txt], [.vtt] and
    [.srt] names does what its last branch does.  A cleanup is idempotent:
    a second one with the same flags changes nothing, and returns [True]
    exactly when the first one left the folder in place. *)
Theorem cleanup_twice_changes_nothing (sid : string) (delete_clips delete_video : bool)
    (fs : gmap string (gmap string Cleanup.entry)) :
  Cleanup.cleanup_session sid delete_clips delete_video fs
  = Cleanup.cleanup_session_immediate sid delete_clips delete_video fs /\
  (Cleanup.cleanup_session sid delete_clips delete_video
     (Cleanup.cleanup_session sid delete_clips delete_video fs).2).2
  = (Cleanup.cleanup_session sid delete_clips delete_video fs).2 /\
  (Cleanup.cleanup_session sid delete_clips delete_video
     (Cleanup.cleanup_session sid delete_clips delete_video fs).2).1
  = bool_decide
      (is_Some ((Cleanup.cleanup_session sid delete_clips delete_video fs).2 !! sid)).
Proof.
  split.
  - unfold Cleanup.cleanup_session, Cleanup.cleanup_session_immediate, Cleanup.cleanup_with.
    destruct (fs !! sid) as [d|]; [|done].
    f_equal. f_equal. apply foldl_pointwise. intros a b.
    by rewrite cleanup_session_body_doomed, cleanup_session_immediate_body_doomed.
  - apply (cleanup_with_twice _ delete_clips delete_video).
    apply cleanup_session_body_doomed.
Qed.

Section SubmissionFacts.
Import Templates Submissions.

(** Reading a document gives [None] for [null] only. *)
Lemma load_is_none (j : json) (h : gmap nat object) :
  is_none (load j h).1 = is_null j.
Proof.
  destruct j as [ | b | q | s | items | items]; simpl; try done.
  - match goal with |- context [match ?g items h with _ => _ end] => set (go := g) end.
    destruct (go items h) as [vs h1]. done.
  - match goal with |- context [match ?g items ∅ h with _ => _ end] => set (go := g) end.
    destruct (go items ∅ h) as [d h1]. done.
Qed.

Lemma load_null (h : gmap nat object) : load JNull h = (VNone, h).
Proof. done. Qed.

(** A document that is an object is read as a reference to a dictionary. *)
Lemma load_dict items (h : gmap nat object) :
  exists a d, (load (JDict items) h).1 = VRef a /\
              (load (JDict items) h).2 !! a = Some (ODict d).
Proof.
  simpl.
  match goal with |- context [match ?g items ∅ h with _ => _ end] => set (go := g) end.
  destruct (go items ∅ h) as [d h1]. simpl.
  exists (fresh (dom h1)), d. split; [done|]. apply lookup_insert_eq.
Qed.

Lemma load_list items (h : gmap nat object) :
  exists a l, (load (JList items) h).1 = VRef a /\
              (load (JList items) h).2 !! a = Some (OList l).
Proof.
  simpl.
  match goal with |- context [match ?g items h with _ => _ end] => set (go := g) end.
  destruct (go items h) as [vs h1]. simpl.
  exists (fresh (dom h1)), vs. split; [done|]. apply lookup_insert_eq.
Qed.

(** An assignment to a key of a dictionary goes through and leaves a
    dictionary. *)
Lemma override_dict a key v (h : gmap nat object) d :
  h !! a = Some (ODict d) ->
  exists h' d', override a key v h = Some h' /\ h' !! a = Some (ODict d').
Proof.
  intros Ha. unfold override, setitem. rewrite Ha.
  destruct v; eauto; eexists _, _; (split; [done|]); apply lookup_insert_eq.
Qed.

(** An assignment to a key of a list raises. *)
Lemma override_list a key v (h : gmap nat object) l :
  h !! a = Some (OList l) ->
  override a key v h = match v with VNone => Some h | _ => None end.
Proof. intros Ha. unfold override, setitem. rewrite Ha. by destruct v. Qed.

(** The six assignments on a dictionary. *)
Lemma overrides_dict a v1 v2 v3 v4 v5 v6 (h : gmap nat object) d :
  h !! a = Some (ODict d) ->
  is_Some (h ← override a "overlays" v1 h;
           h ← override a "start" v2 h;
           h ← override a "duration" v3 h;
           h ← override a "output_name" v4 h;
           h ← override a "resolution" v5 h;
           override a "flip" v6 h).
Proof.
  intros H0.
  destruct (override_dict a "overlays" v1 h d H0) as (h1 & d1 & -> & H1). simpl.
  destruct (override_dict a "start" v2 h1 d1 H1) as (h2 & d2 & -> & H2). simpl.
  destruct (override_dict a "duration" v3 h2 d2 H2) as (h3 & d3 & -> & H3). simpl.
  destruct (override_dict a "output_name" v4 h3 d3 H3) as (h4 & d4 & -> & H4). simpl.
  destruct (override_dict a "resolution" v5 h4 d4 H4) as (h5 & d5 & -> & H5). simpl.
  destruct (override_dict a "flip" v6 h5 d5 H5) as (h6 & d6 & -> & H6). eauto.
Qed.

(** The six assignments on a list. *)
Lemma overrides_list a v1 v2 v3 v4 v5 v6 (h : gmap nat object) l :
  h !! a = Some (OList l) ->
  (h ← override a "overlays" v1 h;
   h ← override a "start" v2 h;
   h ← override a "duration" v3 h;
   h ← override a "output_name" v4 h;
   h ← override a "resolution" v5 h;
   override a "flip" v6 h)
  = if forallb is_none [v1; v2; v3; v4; v5; v6] then Some h else None.
Proof.
  intros H0.
  rewrite (override_list a "overlays" v1 h l H0). destruct v1; try done. simpl.
  rewrite (override_list a "start" v2 h l H0). destruct v2; try done. simpl.
  rewrite (override_list a "duration" v3 h l H0). destruct v3; try done. simpl.
  rewrite (override_list a "output_name" v4 h l H0). destruct v4; try done. simpl.
  rewrite (override_list a "resolution" v5 h l H0). destruct v5; try done. simpl.
  rewrite (override_list a "flip" v6 h l H0). by destruct v6.
Qed.

(** What the submission reads from the request, and the heap it leaves. *)
Lemma loaded_customs (req : clip_template_request) (h : gmap nat object) :
  exists v1 v2 v3 v4 v5 v6 h1 h2 h3 h4 h5 h6,
    load (custom_overlays req) h = (v1, h1) /\
    load (custom_start req) h1 = (v2, h2) /\
    load (custom_duration req) h2 = (v3, h3) /\
    load (custom_output_name req) h3 = (v4, h4) /\
    load (custom_resolution req) h4 = (v5, h5) /\
    load (custom_flip req) h5 = (v6, h6) /\
    h ⊆ h6 /\
    forallb is_none [v1; v2; v3; v4; v5; v6] = forallb is_null (customs req).
Proof.
  pose proof (load_extends (custom_overlays req) h) as S1.
  pose proof (load_is_none (custom_overlays req) h) as N1.
  destruct (load (custom_overlays req) h) as [v1 h1] eqn:E1.
  pose proof (load_extends (custom_start req) h1) as S2.
  pose proof (load_is_none (custom_start req) h1) as N2.
  destruct (load (custom_start req) h1) as [v2 h2] eqn:E2.
  pose proof (load_extends (custom_duration req) h2) as S3.
  pose proof (load_is_none (custom_duration req) h2) as N3.
  destruct (load (custom_duration req) h2) as [v3 h3] eqn:E3.
  pose proof (load_extends (custom_output_name req) h3) as S4.
  pose proof (load_is_none (custom_output_name req) h3) as N4.
  destruct (load (custom_output_name req) h3) as [v4 h4] eqn:E4.
  pose proof (load_extends (custom_resolution req) h4) as S5.
  pose proof (load_is_none (custom_resolution req) h4) as N5.
  destruct (load (custom_resolution req) h4) as [v5 h5] eqn:E5.
  pose proof (load_extends (custom_flip req) h5) as S6.
  pose proof (load_is_none (custom_flip req) h5) as N6.
  destruct (load (custom_flip req) h5) as [v6 h6] eqn:E6.
  cbn [fst snd] in *.
  exists v1, v2, v3, v4, v5, v6, h1, h2, h3, h4, h5, h6.
  repeat (split; [done|]). split.
  - repeat (etrans; [eassumption|]). reflexivity.
  - unfold customs. cbn [forallb]. by rewrite N1, N2, N3, N4, N5, N6.
Qed.

(** The answer to a well-named submission, by what the store holds. *)
Lemma submission_by_stored (req : clip_template_request) (st : state) name stored :
  truthy_name (req_filename req) = true ->
  req_template_name req = Some name -> name ≠ "" ->
  templates st !! name = Some stored ->
  match stored with
  | VRef a =>
      match heap st !! a with
      | Some (ODict _) => exists job_id, (api_clip_with_template req st).1 = Accepted job_id
      | Some (OList _) =>
          if forallb is_null (customs req)
          then exists job_id, (api_clip_with_template req st).1 = Accepted job_id
          else api_clip_with_template req st
               = (ServerError,
                  {| heap := heap (api_clip_with_template req st).2;
                     templates := templates st; jobs := jobs st;
                     job_queue := job_queue st; job_updates := job_updates st;
                     now := now st |})
      | None => True
      end
  | _ =>
      api_clip_with_template req st
      = (ServerError,
         {| heap := heap (api_clip_with_template req st).2;
            templates := templates st; jobs := jobs st;
            job_queue := job_queue st; job_updates := job_updates st;
            now := now st |})
  end.
Proof.
  intros Hfile Hname Hne Hstored.
  destruct (loaded_customs req (heap st))
    as (v1 & v2 & v3 & v4 & v5 & v6 & h1 & h2 & h3 & h4 & h5 & h6 &
        E1 & E2 & E3 & E4 & E5 & E6 & Hsub & Hnull).
  unfold api_clip_with_template. rewrite E1, E2, E3, E4, E5, E6.
  rewrite Hfile, Hname.
  assert (Hn : truthy_name (Some name) = true) by (by destruct name).
  rewrite Hn. cbn [negb orb]. change (default "" (Some name)) with name. rewrite Hstored.
  destruct stored as [ | b | q | s | a]; try done.
  destruct (heap st !! a) as [[d|l]|] eqn:Ha; [| |done].
  - pose proof (lookup_weaken _ _ _ _ Ha Hsub) as Ha6.
    unfold copy. rewrite Ha6.
    destruct (alloc_fresh (ODict d) h6) as [_ Hnew].
    destruct (alloc (ODict d) h6) as [a' h7]. simpl in Hnew.
    destruct (overrides_dict a' v1 v2 v3 v4 v5 v6 h7 d Hnew) as [hf ->].
    destruct (create_job _ _ _ _) as [job_id jobs']. eauto.
  - pose proof (lookup_weaken _ _ _ _ Ha Hsub) as Ha6.
    unfold copy. rewrite Ha6.
    destruct (alloc_fresh (OList l) h6) as [_ Hnew].
    destruct (alloc (OList l) h6) as [a' h7]. simpl in Hnew.
    rewrite (overrides_list a' v1 v2 v3 v4 v5 v6 h7 l Hnew).
    rewrite Hnull.
    destruct (forallb is_null (customs req)); [|done].
    destruct (create_job _ _ _ _) as [job_id jobs']. eauto.
Qed.

End SubmissionFacts.

(** [create_template] stores any data that is truthy, an object or not, and
    what it stored decides every later submission that names the template
    and a file.  For an object the submission is accepted, whatever it
    overrides.  For a string, a number or [true] the copy of the template
    raises: the answer is a server error and no job is created.  For a
    list the submission is accepted only when it overrides nothing. *)
Theorem template_data_decides_submission (name : string) (data : Templates.json)
    (req : Templates.clip_template_request) (st : Templates.state) :
  name ≠ "" ->
  Templates.req_template_name req = Some name ->
  Templates.truthy_name (Templates.req_filename req) = true ->
  (Templates.create_template (Some name) data st).1 = Templates.Created ->
  let stored := (Templates.create_template (Some name) data st).2 in
  let answer := Templates.api_clip_with_template req stored in
  match data with
  | Templates.JDict _ => exists job_id, answer.1 = Templates.Accepted job_id
  | Templates.JList _ =>
      if forallb Submissions.is_null (Submissions.customs req)
      then exists job_id, answer.1 = Templates.Accepted job_id
      else answer.1 = Templates.ServerError /\
           Templates.jobs answer.2 = Templates.jobs st /\
           Templates.job_queue answer.2 = Templates.job_queue st /\
           Templates.job_updates answer.2 = Templates.job_updates st
  | _ =>
      answer.1 = Templates.ServerError /\
      Templates.jobs answer.2 = Templates.jobs st /\
      Templates.job_queue answer.2 = Templates.job_queue st /\
      Templates.job_updates answer.2 = Templates.job_updates st
  end.
Proof.
  intros Hne Hname Hfile Hcreated stored answer.
  assert (Hstored : exists h,
            stored = {| Templates.heap := h;
                        Templates.templates :=
                          <[name := (Templates.load data (Templates.heap st)).1]>
                            (Templates.templates st);
                        Templates.jobs := Templates.jobs st;
                        Templates.job_queue := Templates.job_queue st;
                        Templates.job_updates := Templates.job_updates st;
                        Templates.now := Templates.now st |} /\
            h = (Templates.load data (Templates.heap st)).2).
  { subst stored. unfold Templates.create_template in *.
    destruct (Templates.load data (Templates.heap st)) as [v h]. simpl in *.
    destruct (negb _ || negb _); [done|]. simpl. eauto. }
  destruct Hstored as (h & Hst & Hh).
  assert (Hlook : Templates.templates stored !! name
                  = Some (Templates.load data (Templates.heap st)).1).
  { rewrite Hst. simpl. apply lookup_insert_eq. }
  pose proof (submission_by_stored req stored name _ Hfile Hname Hne Hlook) as Hsub.
  fold answer in Hsub.
  assert (Hheap : Templates.heap stored = (Templates.load data (Templates.heap st)).2)
    by (by rewrite Hst).
  assert (Hjobs : Templates.jobs stored = Templates.jobs st /\
                  Templates.job_queue stored = Templates.job_queue st /\
                  Templates.job_updates stored = Templates.job_updates st)
    by (by rewrite Hst).
  destruct Hjobs as (J1 & J2 & J3).
  destruct data as [ | b | q | s | items | items].
  - simpl in Hsub. rewrite Hsub. simpl. by rewrite J1, J2, J3.
  - simpl in Hsub. rewrite Hsub. simpl. by rewrite J1, J2, J3.
  - simpl in Hsub. rewrite Hsub. simpl. by rewrite J1, J2, J3.
  - simpl in Hsub. rewrite Hsub. simpl. by rewrite J1, J2, J3.
  - destruct (load_list items (Templates.heap st)) as (a & l & Ea & El).
    rewrite Ea, Hheap, El in Hsub.
    destruct (forallb _ _); [done|].
    rewrite Hsub. simpl. by rewrite J1, J2, J3.
  - destruct (load_dict items (Templates.heap st)) as (a & d & Ea & Ed).
    by rewrite Ea, Hheap, Ed in Hsub.
Qed.

Lemma template_data_decides_submission_witness :
  (Templates.api_clip_with_template (Submissions.plain_request "promo")
     (Templates.create_template (Some "promo") (Templates.JStr "fade")
        Submissions.empty_store).2).1
  = Templates.ServerError.
Proof.
  refine (proj1 (template_data_decides_submission "promo" (Templates.JStr "fade")
                   (Submissions.plain_request "promo") Submissions.empty_store _ _ _ _)).
  - discriminate.
  - reflexivity.
  - reflexivity.
  - reflexivity.
Defined.

